(** * ldap_exporter: the metric translation and scrape engine

    A shallow embedding of the exporter's Go code (metric attributes,
    template translation, metrics sources, the scrape cycle and the
    configuration loader) together with the properties its specification
    states about it.

    Conventions.
    - A Go function returning [(T, error)] is a function into [result T].
    - A Go function that can also panic is a function into
      [outcome (result T)].
    - A Go [map[string]V] is a [gmap string V]; a [range] over a map visits
      its entries in an order chosen by an [oracle].
    - [float64] is Rocq's primitive binary64 [float].
    - Channels are modelled by the list of values sent, in sending order.
    - Functions of imported packages (strconv.ParseFloat, text/template,
      yaml.v2, prometheus, ldap.v2) are the fields of the class [Library]. *)

From Stdlib Require Import ZArith Ascii String PrimFloat SpecFloat FloatOps.
From stdpp Require Import gmap strings list fin_maps.

Set Default Proof Using "Type".
Set Warnings "-clear-no-such-hyp".

(** ** Values shared by the whole program *)

(** A decoded YAML node, as held by the [interface{}] values of the
    overflow maps ([X map[string]interface{}] with the [inline] tag). *)
#[warnings="-register-all"]
Inductive yaml_value :=
| YScalar (s : string)
| YSeq (l : list yaml_value)
| YMap (l : list (string * yaml_value)).

(** [strconv.NumError.Err] *)
Inductive num_error := ErrSyntax | ErrRange.

(** The error values built by the program, one constructor per
    [fmt.Errorf] site, and the errors handed over by imported packages. *)
Inductive error :=
| ErrExternal (pkg msg : string)
| ErrNum (func num : string) (kind : num_error)
| ErrUnknownFields (ctx : string) (keys : list string)
| ErrNoTranslator (attribute : string) (matches : nat)
| ErrLabelNotFound (label_name : string) (label_sources : list (gmap string string))
| ErrTranslationExecute (values : list string) (err : error)
| ErrTranslationYaml (values : list string) (err : error) (intermediate : string)
| ErrTranslationUnknownField (values : list string) (idx : nat) (err : error)
| ErrCreatingMetric (fqName : string) (err : error)
| ErrLabelMultiValued (attribute : string) (values : list string)
| ErrRequiredLabelsMissing (mapping built : gmap string string)
| ErrUnrecognizedAttribute (attribute : string)
| ErrWhileScraping (baseDN filter : string) (err : error)
| ErrSearchMalformed (err : error)
| ErrFilterMalformed (err : error)
| ErrTemplateParse (err : error) (text : string)
| ErrTypeUndefined
| ErrLabelWhitespace (idx : nat) (label : string)
| ErrScopeUnknown (choice : string)
| ErrDerefUnknown (choice : string)
| ErrSearchUndefined
| ErrConstantLabelWhitespace (key value : string)
| ErrDuplicateLabel (src final_name : string)
| ErrNaming (attribute : string) (err : error)
| ErrTypeInvalid (type attribute : string).

(** Go's [(T, error)] *)
Inductive result (A : Type) :=
| Ok (a : A)
| Err (e : error).
Arguments Ok {A} a.
Arguments Err {A} e.

#[global] Instance result_ret : MRet result := fun A a => Ok a.
#[global] Instance result_bind : MBind result := fun A B f r =>
  match r with
  | Ok a => f a
  | Err e => Err e
  end.
#[global] Instance result_fmap : FMap result := fun A B f r =>
  match r with
  | Ok a => Ok (f a)
  | Err e => Err e
  end.

Definition is_Ok {A} (r : result A) : Prop := ∃ a, r = Ok a.
Definition is_Err {A} (r : result A) : Prop := ∃ e, r = Err e.

(** Run-time panics the modelled code can raise. *)
Inductive panic :=
| IndexOutOfRange
| NilDereference.

(** A call either returns or panics. *)
Inductive outcome (A : Type) :=
| Returns (a : A)
| Panics (p : panic).
Arguments Returns {A} a.
Arguments Panics {A} p.

(** ** Standard-library functions used by the program *)

Module strconv.

Definition maxUint64 : Z := 2 ^ 64 - 1.
Definition uint64 (z : Z) : Z := z `mod` 2 ^ 64.

Definition lower (c : Z) : Z := Z.lor c 32.

(** The digit loop of [ParseUint] at base 10 and bit size 64: [s0] is
    the whole argument (for error values), [n] the number read so far. *)
Fixpoint ParseUint_digits (s0 s : string) (n : Z) : result Z :=
  match s with
  | EmptyString => Ok n
  | String c rest =>
    let c := Z.of_N (N_of_ascii c) in
    d ← (if bool_decide (48 ≤ c ≤ 57)%Z then Ok (c - 48)%Z
         else if bool_decide (97 ≤ lower c ≤ 122)%Z then Ok (lower c - 97 + 10)%Z
         else Err (ErrNum "ParseUint" s0 ErrSyntax));
    if bool_decide (10 ≤ d)%Z then Err (ErrNum "ParseUint" s0 ErrSyntax)
    else if bool_decide (maxUint64 `div` 10 + 1 ≤ n)%Z
    then Err (ErrNum "ParseUint" s0 ErrRange)
    else
      let n := uint64 (n * 10) in
      let n1 := uint64 (n + d) in
      if bool_decide (n1 < n ∨ maxUint64 < n1)%Z
      then Err (ErrNum "ParseUint" s0 ErrRange)
      else ParseUint_digits s0 rest n1
  end.

(** [strconv.ParseUint(s, 10, 64)] *)
Definition ParseUint (s : string) : result Z :=
  match s with
  | EmptyString => Err (ErrNum "ParseUint" s ErrSyntax)
  | _ => ParseUint_digits s s 0
  end.

(** The conversion [float64(x)] of a [uint64]: round to nearest, ties
    to even. *)
Definition float64_of_uint64 (x : Z) : float :=
  SF2Prim (binary_normalize prec emax x 0 false).

End strconv.

Module strings.

Definition bytes (s : string) : list N := N_of_ascii <$> list_ascii_of_string s.

Definition asciiSpace (b : N) : bool :=
  bool_decide (b = 9 ∨ b = 10 ∨ b = 11 ∨ b = 12 ∨ b = 13 ∨ b = 32)%N.

(** Width in bytes of the white-space rune ([unicode.IsSpace]) that the
    UTF-8 text [s] starts with, [0] when it starts with none. *)
Definition leading_space (s : list N) : nat :=
  match s with
  | 194 :: 133 :: _ | 194 :: 160 :: _ => 2%nat
  | 225 :: 154 :: 128 :: _ => 3%nat
  | 226 :: 128 :: b :: _ =>
    if bool_decide (128 ≤ b ≤ 138 ∨ b = 168 ∨ b = 169 ∨ b = 175) then 3%nat else 0%nat
  | 226 :: 129 :: 159 :: _ => 3%nat
  | 227 :: 128 :: 128 :: _ => 3%nat
  | b :: _ => if asciiSpace b then 1%nat else 0%nat
  | [] => 0%nat
  end%N.

(** The same for the rune that the text ends with, on the reversed
    text. *)
Definition trailing_space (r : list N) : nat :=
  match r with
  | 133 :: 194 :: _ | 160 :: 194 :: _ => 2%nat
  | 128 :: 154 :: 225 :: _ => 3%nat
  | 159 :: 129 :: 226 :: _ => 3%nat
  | 128 :: 128 :: 227 :: _ => 3%nat
  | b :: 128 :: 226 :: _ =>
    if bool_decide (128 ≤ b ≤ 138 ∨ b = 168 ∨ b = 169 ∨ b = 175) then 3%nat
    else if asciiSpace b then 1%nat else 0%nat
  | b :: _ => if asciiSpace b then 1%nat else 0%nat
  | [] => 0%nat
  end%N.

Fixpoint trim (width : list N → nat) (fuel : nat) (s : list N) : list N :=
  match fuel with
  | 0 => s
  | S fuel =>
    match width s with
    | 0 => s
    | k => trim width fuel (drop k s)
    end
  end.

(** The bytes of [strings.TrimSpace(s)]. *)
Definition TrimSpace (s : list N) : list N :=
  let l := trim leading_space (length s) s in
  rev (trim trailing_space (length l) (rev l)).

End strings.

(** ** Imported packages: data *)

Module prometheus.

Inductive ValueType := CounterValue | GaugeValue | UntypedValue.

(** A descriptor, as the arguments [NewDesc] was called with. *)
Record Desc := NewDesc {
  fqName : string;
  help : string;
  variableLabels : list string;
  constLabels : gmap string string;
}.

(** A constant metric ([constMetric]): one sample. *)
Record Metric := {
  desc : Desc;
  valType : ValueType;
  val : float;
  labelValues : list string;
}.

(** [BuildFQName] for non-empty namespace, subsystem and name *)
Definition BuildFQName (namespace subsystem name : string) : string :=
  namespace +:+ "_" +:+ subsystem +:+ "_" +:+ name.

(** [NewGauge] and [NewCounter] from options without labels, at value
    zero; the metric is held as the sample a collector reads from it. *)
Definition NewGauge (namespace subsystem name help : string) : Metric :=
  {| desc := NewDesc (BuildFQName namespace subsystem name) help [] ∅;
     valType := GaugeValue; val := 0; labelValues := [] |}.

Definition NewCounter (namespace subsystem name help : string) : Metric :=
  {| desc := NewDesc (BuildFQName namespace subsystem name) help [] ∅;
     valType := CounterValue; val := 0; labelValues := [] |}.

Definition Set_ (m : Metric) (v : float) : Metric :=
  {| desc := desc m; valType := valType m; val := v; labelValues := labelValues m |}.

(** [Add] for the non-negative arguments the program passes *)
Definition Add (m : Metric) (v : float) : Metric := Set_ m (val m + v).

Definition Inc (m : Metric) : Metric := Add m 1.

End prometheus.

Module ldap.

Record EntryAttribute := {
  Name : string;
  Values : list string;
}.

Record Entry := {
  DN : string;
  Attributes : list EntryAttribute;
}.

Record SearchResult := {
  Entries : list Entry;
}.

Record SearchRequest := NewSearchRequest {
  BaseDN : string;
  Scope : Z;
  DerefAliases : Z;
  SizeLimit : Z;
  TimeLimit : Z;
  TypesOnly : bool;
  Filter : string;
  RequestAttributes : list string;
}.

Definition ScopeBaseObject : Z := 0.
Definition ScopeSingleLevel : Z := 1.
Definition ScopeWholeSubtree : Z := 2.

Definition ScopeMap : list (Z * string) :=
  [(ScopeBaseObject, "Base Object");
   (ScopeSingleLevel, "Single Level");
   (ScopeWholeSubtree, "Whole Subtree")].

Definition NeverDerefAliases : Z := 0.
Definition DerefInSearching : Z := 1.
Definition DerefFindingBaseObj : Z := 2.
Definition DerefAlways : Z := 3.

(** The directory server behind a connection: its answer to the
    [n]-th search of a scrape. *)
Record Conn := {
  Search : nat → SearchRequest → result SearchResult;
}.

End ldap.

Module template.

(** [Option("missingkey=...")] *)
Inductive missingkey := MissingKeyDefault | MissingKeyZero | MissingKeyError.

(** The values the program puts into a template's data map. *)
Inductive value :=
| VString (s : string)
| VStrings (l : list string).

(** A template, as the calls that built it: [New(name)], [Funcs(sprig)]
    or not, [Parse(text)]. *)
Record Template := {
  name : string;
  sprig : bool;
  text : string;
}.

End template.

(** ** The program's data *)

(** [translationResult]: the [yaml:",inline"] map [X] receives every key
    of the rendered object other than [value] and [labels]. *)
Record translationResult := {
  tr_Value : float;
  tr_Labels : gmap string string;
  tr_X : gmap string yaml_value;
}.

(** A configuration document as YAML holds it, read through the structs'
    [yaml] tags, before any [UnmarshalYAML] method has looked at it: an
    absent key is [None] (or the zero value where the field is no
    pointer), scalars are still text. *)
Record metricAttributeConfig_doc := {
  doc_metric_name : string;
  doc_type : string;
  doc_metric_labels : list string;
  doc_translator : option string;
  doc_help : string;
  doc_metric_X : gmap string yaml_value;
}.

Record attributeConfig_doc := {
  doc_attr_labels : gmap string string;
  doc_attr_metrics : gmap string metricAttributeConfig_doc;
  doc_attr_X : gmap string yaml_value;
}.

Record metricSourceConfig_doc := {
  doc_name : string;
  doc_search : option string;
  doc_filter : option string;
  doc_scope : option string;
  doc_deref : option string;
  doc_counter_metric_name_template : option string;
  doc_gauge_metric_name_template : option string;
  doc_attributes : attributeConfig_doc;
  doc_labels : gmap string string;
  doc_X : gmap string yaml_value;
}.

(** ** Imported packages: functions *)

Class Library := {
  (** [strconv.ParseFloat(s, 64)] *)
  strconv_ParseFloat : string → result float;
  (** [Template.Parse]: the error it returns, if any *)
  template_Parse : template.Template → option error;
  (** [Template.Option(missingkey).Execute(&buffer, data)]: the text
      written to the buffer *)
  template_Execute :
    template.missingkey → template.Template → gmap string template.value → result string;
  (** [yaml.Unmarshal(text, &results)] for a slice [results] of pointers
      to [translationResult]; a [nil] element is [None] *)
  yaml_Unmarshal_translationResults : string → result (list (option translationResult));
  (** the document that [yaml.Unmarshal(text, &parsed_data)] walks for
      [parsed_data []metricSourceConfig] *)
  yaml_Unmarshal_document : string → result (list metricSourceConfig_doc);
  (** the conditions under which [prometheus.NewConstMetric] refuses a
      descriptor and label values *)
  prometheus_NewConstMetric_error : prometheus.Desc → list string → option error;
  (** [ldap.ParseDN], [ldap.CompileFilter]: the error they return, if any *)
  ldap_ParseDN : string → option error;
  ldap_CompileFilter : string → option error;
}.

(** ** Calls that may panic *)

Definition go (A : Type) : Type := outcome (result A).

#[global] Instance go_ret : MRet go := fun A a => Returns (Ok a).
#[global] Instance go_bind : MBind go := fun A B f x =>
  match x with
  | Returns (Ok a) => f a
  | Returns (Err e) => Returns (Err e)
  | Panics p => Panics p
  end.

(** A call that cannot panic, made from code that can. *)
Definition call {A} (r : result A) : go A := Returns r.

(** [return nil, err] *)
Definition fail {A} (e : error) : go A := Returns (Err e).

(** ** assets: strict-schema check *)

(** [checkOverflow]: the keys are reported as a set, the order in which
    the source joins them being that of a map iteration. *)
Definition checkOverflow {V} (m : gmap string V) (ctx : string) : result unit :=
  if bool_decide (0 < size m) then Err (ErrUnknownFields ctx (elements (dom m)))
  else Ok tt.

Section engine.
Context `{Library}.

Import prometheus ldap.

(** [prometheus.NewConstMetric] *)
Definition NewConstMetric (d : Desc) (valueType : ValueType) (value : float)
    (labelValues : list string) : result Metric :=
  match prometheus_NewConstMetric_error d labelValues with
  | Some err => Err err
  | None => Ok {| desc := d; valType := valueType; val := value; labelValues := labelValues |}
  end.

(** *** Template Translator *)

(** The loop of [do_the_translation_thing] over the decoded results:
    [result.X] dereferences the element, which panics on [nil]. The
    elements that passed are returned as values. *)
Fixpoint check_results (values : list string) (idx : nat)
    (results : list (option translationResult)) : go (list translationResult) :=
  match results with
  | [] => mret []
  | None :: _ => Panics NilDereference
  | Some r :: rest =>
    match checkOverflow (tr_X r) "interpretting ldap->yaml translation" with
    | Err err => fail (ErrTranslationUnknownField values idx err)
    | Ok _ => rs ← check_results values (S idx) rest; mret (r :: rs)
    end
  end.

(** The data map [{"values": values, "value": values[0]}], once
    [values[0]] has been read. *)
Definition translation_input (values : list string) (value0 : string)
    : gmap string template.value :=
  <["value" := template.VString value0]> (<["values" := template.VStrings values]> ∅).

Definition do_the_translation_thing (t : template.Template) (values : list string)
    : go (list translationResult) :=
  match values with
  | [] => Panics IndexOutOfRange
  | value0 :: _ =>
    match template_Execute template.MissingKeyError t (translation_input values value0) with
    | Err err => fail (ErrTranslationExecute values err)
    | Ok buffer =>
      match yaml_Unmarshal_translationResults buffer with
      | Err err => fail (ErrTranslationYaml values err buffer)
      | Ok results => check_results values 0 results
      end
    end
  end.

(** *** Metric Attribute *)

(** The inner loop of [buildOrderedLabels]: the first source that has
    the label. *)
Fixpoint first_source (label_name : string) (label_sources : list (gmap string string))
    : option string :=
  match label_sources with
  | [] => None
  | source :: rest =>
    match source !! label_name with
    | Some value => Some value
    | None => first_source label_name rest
    end
  end.

(** [buildOrderedLabels]; [label_sources] is the variadic argument. *)
Fixpoint buildOrderedLabels (desc_labels : list string)
    (label_sources : list (gmap string string)) : result (list string) :=
  match desc_labels with
  | [] => Ok []
  | label_name :: rest =>
    match first_source label_name label_sources with
    | None => Err (ErrLabelNotFound label_name label_sources)
    | Some value => results ← buildOrderedLabels rest label_sources; Ok (value :: results)
    end
  end.

Record CounterMetricAttribute := {
  c_Desc : Desc;
  c_labels : list string;
  c_translator : option template.Template;
}.

Definition NewCounterMetricAttribute (metric_name : string) (labels : list string)
    (constant_labels : gmap string string) (translator : option template.Template)
    (help : string) : CounterMetricAttribute :=
  {| c_translator := translator;
     c_labels := labels;
     c_Desc := NewDesc metric_name help labels constant_labels |}.

Record GaugeMetricAttribute := {
  g_Desc : Desc;
  g_labels : list string;
  g_translator : option template.Template;
}.

Definition NewGaugeMetricAttribute (metric_name : string) (labels : list string)
    (constant_labels : gmap string string) (translator : option template.Template)
    (help : string) : GaugeMetricAttribute :=
  {| g_translator := translator;
     g_labels := labels;
     g_Desc := NewDesc metric_name help labels constant_labels |}.

(** The loop that both [Parse] methods run over the translation
    results, appending to [metrics]. *)
Fixpoint translated (d : Desc) (valueType : ValueType) (labels : list string)
    (extra_labels : gmap string string) (values : list translationResult)
    (metrics : list Metric) : result (list Metric) :=
  match values with
  | [] => Ok metrics
  | value :: rest =>
    labels' ← buildOrderedLabels labels [tr_Labels value; extra_labels];
    metric ← NewConstMetric d valueType (tr_Value value) labels';
    translated d valueType labels extra_labels rest (metrics ++ [metric])
  end.

Definition CounterMetricAttribute_Parse (c : CounterMetricAttribute)
    (extra_labels : gmap string string) (entry : EntryAttribute) : go (list Metric) :=
  match c_translator c with
  | None =>
    call
      match Values entry with
      | [value0] =>
        x ← strconv.ParseUint value0;
        labels ← buildOrderedLabels (c_labels c) [extra_labels];
        metric ← NewConstMetric (c_Desc c) CounterValue (strconv.float64_of_uint64 x) labels;
        Ok [metric]
      | _ => Err (ErrNoTranslator (Name entry) (length (Values entry)))
      end
  | Some translator =>
    values ← do_the_translation_thing translator (Values entry);
    call (translated (c_Desc c) CounterValue (c_labels c) extra_labels values [])
  end.

Definition GaugeMetricAttribute_Parse (g : GaugeMetricAttribute)
    (extra_labels : gmap string string) (entry : EntryAttribute) : go (list Metric) :=
  match g_translator g with
  | None =>
    call
      match Values entry with
      | [value0] =>
        x ← strconv_ParseFloat value0;
        labels ← buildOrderedLabels (g_labels g) [extra_labels];
        match NewConstMetric (g_Desc g) CounterValue x labels with
        | Err err => Err (ErrCreatingMetric (fqName (g_Desc g)) err)
        | Ok metric => Ok [metric]
        end
      | _ => Err (ErrNoTranslator (Name entry) (length (Values entry)))
      end
  | Some translator =>
    values ← do_the_translation_thing translator (Values entry);
    call (translated (g_Desc g) GaugeValue (g_labels g) extra_labels values [])
  end.

(** The interface [MetricAttribute] and its two implementations. *)
Class MetricAttributeMethods (T : Type) := {
  Parse : T → gmap string string → EntryAttribute → go (list Metric);
  GetDesc : T → Desc;
}.

#[global] Instance CounterMetricAttribute_methods : MetricAttributeMethods CounterMetricAttribute :=
  {| Parse := CounterMetricAttribute_Parse; GetDesc := c_Desc |}.

#[global] Instance GaugeMetricAttribute_methods : MetricAttributeMethods GaugeMetricAttribute :=
  {| Parse := GaugeMetricAttribute_Parse; GetDesc := g_Desc |}.

(** A value of interface type [MetricAttribute]: the program stores
    only these two dynamic types in it. *)
Inductive MetricAttribute :=
| Counter (c : CounterMetricAttribute)
| Gauge (g : GaugeMetricAttribute).

#[global] Instance MetricAttribute_methods : MetricAttributeMethods MetricAttribute :=
  {| Parse := fun a =>
       match a with
       | Counter c => Parse c
       | Gauge g => Parse g
       end;
     GetDesc := fun a =>
       match a with
       | Counter c => GetDesc c
       | Gauge g => GetDesc g
       end |}.

(** The fields [translator] and [labels] of either implementation. *)
Definition translator (a : MetricAttribute) : option template.Template :=
  match a with
  | Counter c => c_translator c
  | Gauge g => g_translator g
  end.

Definition labels (a : MetricAttribute) : list string :=
  match a with
  | Counter c => c_labels c
  | Gauge g => g_labels g
  end.

Definition descriptor (a : MetricAttribute) : Desc :=
  match a with
  | Counter c => c_Desc c
  | Gauge g => g_Desc g
  end.

Definition is_counter (a : MetricAttribute) : bool :=
  match a with
  | Counter _ => true
  | Gauge _ => false
  end.

(** The number that [Parse] reads from a raw value when there is no
    translator: [ParseUint] and the conversion to [float64] for a
    counter, [ParseFloat] for a gauge. *)
Definition raw_value (a : MetricAttribute) (value0 : string) : result float :=
  match a with
  | Counter _ => strconv.float64_of_uint64 <$> strconv.ParseUint value0
  | Gauge _ => strconv_ParseFloat value0
  end.

End engine.

(** ** Map iteration *)

(** The places where the program ranges over a map. *)
Inductive range_site :=
| RangeConstantLabels (section : nat)
| RangeAttributeLabels (section : nat)
| RangeAttributeMetrics (section : nat)
| RangeMetricAttributes (section : nat)
| RangeLabelAttributes (section : nat).

(** Go leaves the order of a [range] over a map unspecified: each run of
    the program comes with a [range_order], which reorders the entries
    at every site. *)
Definition range_order : Type := ∀ A : Type, range_site → list A → list A.

Definition range_order_valid (order : range_order) : Prop :=
  ∀ A site (l : list A), order A site l ≡ₚ l.

Definition range {V} (order : range_order) (site : range_site) (m : gmap string V)
    : list (string * V) :=
  order _ site (map_to_list m).

Section source.
Context `{Library}.

Import prometheus ldap.

(** *** Metrics Source *)

Record MetricsSource := {
  SearchRequest_ : SearchRequest;
  MetricAttributes : gmap string MetricAttribute;
  LabelAttributes : gmap string string;
}.

(** [NewMetricsSource]; [searchDN] and [filter] are pointers. *)
Definition NewMetricsSource (order : range_order) (section : nat)
    (searchDN filter : option string) (scope deref : Z)
    (metric_attributes : gmap string MetricAttribute)
    (label_attributes : gmap string string) : outcome MetricsSource :=
  let attrs := (range order (RangeMetricAttributes section) metric_attributes).*1 in
  let attrs := attrs ++ (range order (RangeLabelAttributes section) label_attributes).*1 in
  let filter := default "(objectClass=*)" filter in
  match searchDN with
  | None => Panics NilDereference
  | Some searchDN =>
    let search := NewSearchRequest searchDN scope deref 0 0 false filter attrs in
    Returns {| SearchRequest_ := search;
               MetricAttributes := metric_attributes;
               LabelAttributes := label_attributes |}
  end.

(** The first loop of [scrapeMetrics] over an entry's attributes:
    collect all attributes that are labels. *)
Fixpoint collect_labels (m : MetricsSource) (attributes : list EntryAttribute)
    (labels : gmap string string) : result (gmap string string) :=
  match attributes with
  | [] => Ok labels
  | attribute :: rest =>
    match LabelAttributes m !! Name attribute with
    | Some remapped_label_name =>
      match Values attribute with
      | [value0] => collect_labels m rest (<[remapped_label_name := value0]> labels)
      | _ => Err (ErrLabelMultiValued (Name attribute) (Values attribute))
      end
    | None => collect_labels m rest labels
    end
  end.

(** The second loop over an entry's attributes: the metrics sent on the
    channel, and how the loop ended. *)
Fixpoint scrape_attributes (m : MetricsSource) (labels : gmap string string)
    (attributes : list EntryAttribute) : list Metric * go unit :=
  match attributes with
  | [] => ([], mret tt)
  | attribute :: rest =>
    match MetricAttributes m !! Name attribute with
    | None =>
      match LabelAttributes m !! Name attribute with
      | None => ([], fail (ErrUnrecognizedAttribute (Name attribute)))
      | Some _ => scrape_attributes m labels rest
      end
    | Some metricVec =>
      match Parse metricVec labels attribute with
      | Panics p => ([], Panics p)
      | Returns (Err err) =>
        ([], fail (ErrWhileScraping (BaseDN (SearchRequest_ m)) (Filter (SearchRequest_ m)) err))
      | Returns (Ok metrics) =>
        let '(sent, r) := scrape_attributes m labels rest in (metrics ++ sent, r)
      end
    end
  end.

(** The body of the loop of [scrapeMetrics] over the entries. *)
Definition scrape_entry (m : MetricsSource) (e : Entry) : list Metric * go unit :=
  match collect_labels m (Attributes e) ∅ with
  | Err err => ([], fail err)
  | Ok labels =>
    if bool_decide (size labels ≠ size (LabelAttributes m))
    then ([], fail (ErrRequiredLabelsMissing (LabelAttributes m) labels))
    else scrape_attributes m labels (Attributes e)
  end.

Fixpoint scrape_entries (m : MetricsSource) (entries : list Entry) : list Metric * go unit :=
  match entries with
  | [] => ([], mret tt)
  | e :: rest =>
    match scrape_entry m e with
    | (sent, Returns (Ok _)) =>
      let '(sent', r) := scrape_entries m rest in (sent ++ sent', r)
    | (sent, r) => (sent, r)
    end
  end.

(** [MetricsSource.scrapeMetrics]: what it sends on [ch], and its
    return. *)
Definition scrapeMetrics (m : MetricsSource) (result : SearchResult)
    : list Metric * go unit :=
  scrape_entries m (Entries result).

(** *** Scrape Orchestrator *)

Definition namespace : string := "ldap".

Record Exporter := {
  duration : Metric;
  scrapeError : Metric;
  totalErrors : Metric;
  totalScrapes : Metric;
  conn : Conn;
  metricsSources : list MetricsSource;
}.

Definition NewExporter (conn : Conn) (sources : list MetricsSource) : Exporter :=
  {| conn := conn;
     metricsSources := sources;
     duration := NewGauge namespace "exporter" "last_scrape_duration_seconds"
       "Duration of the last scrape of metrics from LDAP.";
     scrapeError := NewGauge namespace "exporter" "last_scrape_error"
       "Count of individual LDAP queries in the last scrape that failed.  Zero is success, anything else is failures.";
     totalScrapes := NewCounter namespace "exporter" "scrapes_total"
       "Total number of times LDAP was scraped for metrics.";
     totalErrors := NewCounter namespace "exporter" "errors_total"
       "Total number of times the exporter experienced errors collecting LDAP metrics." |}.

(** The loop of [scrape] over the sources, from the [n]-th search on:
    the metrics sent, the final value of [failures], and the panic that
    cut the loop short, if any. *)
Fixpoint scrape_sources (conn : Conn) (n : nat) (sources : list MetricsSource)
    (failures : float) : list Metric * float * option panic :=
  match sources with
  | [] => ([], failures, None)
  | source :: rest =>
    match Search conn n (SearchRequest_ source) with
    | Err err => scrape_sources conn (S n) rest (failures + 1)
    | Ok result =>
      match scrapeMetrics source result with
      | (sent, Panics p) => (sent, failures, Some p)
      | (sent, Returns r) =>
        let failures := match r with Err _ => (failures + 1)%float | Ok _ => failures end in
        let '(sent', failures, p) := scrape_sources conn (S n) rest failures in
        (sent ++ sent', failures, p)
      end
    end
  end.

(** [Exporter.scrape]; [elapsed] is [time.Since(begin).Seconds()] as
    the deferred function reads it. The deferred function runs whether
    the loop ends or panics. *)
Definition scrape (e : Exporter) (elapsed : float) : Exporter * list Metric * outcome unit :=
  let totalScrapes' := Inc (totalScrapes e) in
  let '(sent, failures, p) := scrape_sources (conn e) 0 (metricsSources e) 0 in
  let e' := {| duration := Set_ (duration e) elapsed;
               scrapeError := Set_ (scrapeError e) failures;
               totalErrors := Add (totalErrors e) failures;
               totalScrapes := totalScrapes';
               conn := conn e;
               metricsSources := metricsSources e |} in
  (e', sent, match p with None => Returns tt | Some p => Panics p end).

(** [Exporter.Collect] *)
Definition Collect (e : Exporter) (elapsed : float) : Exporter * list Metric * outcome unit :=
  match scrape e elapsed with
  | (e', sent, Panics p) => (e', sent, Panics p)
  | (e', sent, Returns _) =>
    (e', sent ++ [duration e'; totalScrapes e'; totalErrors e'; scrapeError e'], Returns tt)
  end.

(** *** Vocabulary for the scrape cycle *)

(** One source taken on its own, as the [n]-th of a cycle: the search,
    then the extraction; what is sent and how it ends. *)
Definition scrape_source (conn : Conn) (n : nat) (source : MetricsSource)
    : list Metric * go unit :=
  match Search conn n (SearchRequest_ source) with
  | Err err => ([], fail err)
  | Ok result => scrapeMetrics source result
  end.


(** A source has failed when its search or its extraction returned an
    error. *)
Definition is_failure (o : list Metric * go unit) : bool :=
  match o.2 with
  | Returns (Err _) => true
  | _ => false
  end.

Definition returned (o : list Metric * go unit) : Prop := ∃ r, o.2 = Returns r.

(** The value of [failures] after [k] increments. *)
Definition failures_after (k : nat) (failures : float) : float :=
  Nat.iter k (λ f, (f + 1)%float) failures.

End source.

(** ** Config Model *)

Record templateString := {
  template_ : option template.Template;
}.

Record metricAttributeConfig := {
  mac_Name : string;
  mac_Type : string;
  mac_Labels : list string;
  mac_Translator : templateString;
  mac_Help : string;
  mac_X : gmap string yaml_value;
}.

Record attributeConfig := {
  ac_Labels : gmap string string;
  ac_Metrics : gmap string metricAttributeConfig;
  ac_X : gmap string yaml_value;
}.

Record metricSourceConfig := {
  msc_Name : string;
  msc_Search : option string;
  msc_Filter : option string;
  msc_Scope : option Z;
  msc_Deref : option Z;
  msc_CounterNameTemplate : option templateString;
  msc_GaugeNameTemplate : option templateString;
  msc_Attributes : attributeConfig;
  msc_ConstantLabels : gmap string string;
  msc_labelsFromAttributes : list string;
  msc_metricAttributes : gmap string MetricAttribute;
  msc_X : gmap string yaml_value;
}.

(** Assignments to fields of [*metricSourceConfig]. *)
Definition set_defaults (s : metricSourceConfig) (filter : string) (scope deref : Z)
    (counterName gaugeName : templateString) : metricSourceConfig :=
  {| msc_Name := msc_Name s;
     msc_Search := msc_Search s;
     msc_Filter := Some filter;
     msc_Scope := Some scope;
     msc_Deref := Some deref;
     msc_CounterNameTemplate := Some counterName;
     msc_GaugeNameTemplate := Some gaugeName;
     msc_Attributes := msc_Attributes s;
     msc_ConstantLabels := msc_ConstantLabels s;
     msc_labelsFromAttributes := msc_labelsFromAttributes s;
     msc_metricAttributes := msc_metricAttributes s;
     msc_X := msc_X s |}.

Definition set_labelsFromAttributes (s : metricSourceConfig) (l : list string)
    : metricSourceConfig :=
  {| msc_Name := msc_Name s;
     msc_Search := msc_Search s;
     msc_Filter := msc_Filter s;
     msc_Scope := msc_Scope s;
     msc_Deref := msc_Deref s;
     msc_CounterNameTemplate := msc_CounterNameTemplate s;
     msc_GaugeNameTemplate := msc_GaugeNameTemplate s;
     msc_Attributes := msc_Attributes s;
     msc_ConstantLabels := msc_ConstantLabels s;
     msc_labelsFromAttributes := l;
     msc_metricAttributes := msc_metricAttributes s;
     msc_X := msc_X s |}.

Definition set_metricAttributes (s : metricSourceConfig) (m : gmap string MetricAttribute)
    : metricSourceConfig :=
  {| msc_Name := msc_Name s;
     msc_Search := msc_Search s;
     msc_Filter := msc_Filter s;
     msc_Scope := msc_Scope s;
     msc_Deref := msc_Deref s;
     msc_CounterNameTemplate := msc_CounterNameTemplate s;
     msc_GaugeNameTemplate := msc_GaugeNameTemplate s;
     msc_Attributes := msc_Attributes s;
     msc_ConstantLabels := msc_ConstantLabels s;
     msc_labelsFromAttributes := msc_labelsFromAttributes s;
     msc_metricAttributes := m;
     msc_X := msc_X s |}.

(** A pointer dereference. *)
Definition deref_ptr {A} (p : option A) : go A :=
  match p with
  | Some a => mret a
  | None => Panics NilDereference
  end.

Section config.
Context `{Library}.

Import ldap.

Definition defaultmetricNameTemplate : templateString :=
  {| template_ := Some {| template.name := "default"; template.sprig := false;
                          template.text := "{{ .section }}_{{ .attribute }}" |} |}.

Definition defaultCounterNameTemplate : templateString :=
  {| template_ := Some {| template.name := "default"; template.sprig := false;
                          template.text := "{{ .section }}_{{ .attribute }}_total" |} |}.

Definition dnString_UnmarshalYAML (s : string) : result string :=
  match ldap_ParseDN s with
  | Some err => Err (ErrSearchMalformed err)
  | None => Ok s
  end.

Definition filterString_UnmarshalYAML (s : string) : result string :=
  match ldap_CompileFilter s with
  | Some err => Err (ErrFilterMalformed err)
  | None => Ok s
  end.

Definition templateString_UnmarshalYAML (s : string) : result templateString :=
  let new_t := {| template.name := "config supplied template"; template.sprig := true;
                  template.text := s |} in
  match template_Parse new_t with
  | Some err => Err (ErrTemplateParse err s)
  | None => Ok {| template_ := Some new_t |}
  end.

(** The loop over [ldap.ScopeMap], whose names are pairwise distinct. *)
Fixpoint scope_by_name (scopes : list (Z * string)) (choice : string) : option Z :=
  match scopes with
  | [] => None
  | (scope, name) :: rest =>
    if bool_decide (name = choice) then Some scope else scope_by_name rest choice
  end.

Definition scopeChoice_UnmarshalYAML (choice : string) : result Z :=
  match scope_by_name ScopeMap choice with
  | Some scope => Ok scope
  | None =>
    if bool_decide (choice = "base") then Ok ScopeBaseObject
    else if bool_decide (choice = "single") then Ok ScopeSingleLevel
    else if bool_decide (choice = "subtree") then Ok ScopeWholeSubtree
    else Err (ErrScopeUnknown choice)
  end.

Definition derefChoice_UnmarshalYAML (choice : string) : result Z :=
  if bool_decide (choice = "never") then Ok NeverDerefAliases
  else if bool_decide (choice = "search") then Ok DerefInSearching
  else if bool_decide (choice = "base") then Ok DerefFindingBaseObj
  else if bool_decide (choice = "always") then Ok DerefAlways
  else Err (ErrDerefUnknown choice).

(** The hook of an optional (pointer) field: not called on an absent
    key. *)
Definition optional {A B} (f : A → result B) (o : option A) : result (option B) :=
  match o with
  | None => Ok None
  | Some a => b ← f a; Ok (Some b)
  end.

(** [len(strings.TrimSpace(label)) != len(label)] *)
Definition trimmed_shorter (label : string) : bool :=
  bool_decide (length (strings.TrimSpace (strings.bytes label)) ≠ length (strings.bytes label)).

(** The loop of [metricAttributeConfig.UnmarshalYAML] over the labels. *)
Fixpoint check_labels (idx : nat) (labels : list string) : result unit :=
  match labels with
  | [] => Ok tt
  | label :: rest =>
    if trimmed_shorter label then Err (ErrLabelWhitespace idx label)
    else check_labels (S idx) rest
  end.

Definition metricAttributeConfig_UnmarshalYAML (doc : metricAttributeConfig_doc)
    : result metricAttributeConfig :=
  translator ← optional templateString_UnmarshalYAML (doc_translator doc);
  let mac := {| mac_Name := doc_metric_name doc;
                mac_Type := doc_type doc;
                mac_Labels := doc_metric_labels doc;
                mac_Translator := default {| template_ := None |} translator;
                mac_Help := doc_help doc;
                mac_X := doc_metric_X doc |} in
  _ ← checkOverflow (mac_X mac) "config";
  if bool_decide (mac_Type mac = "") then Err ErrTypeUndefined
  else
    _ ← check_labels 0 (mac_Labels mac);
    Ok mac.

(** Decoding of a YAML mapping into a Go map whose values have a hook. *)
Definition decode_map {A B} (f : A → result B) (m : gmap string A) : result (gmap string B) :=
  foldr (λ '(k, a) acc, b ← f a; m' ← acc; Ok (<[k := b]> m')) (Ok ∅) (map_to_list m).

Definition attributeConfig_UnmarshalYAML (doc : attributeConfig_doc) : result attributeConfig :=
  metrics ← decode_map metricAttributeConfig_UnmarshalYAML (doc_attr_metrics doc);
  let a := {| ac_Labels := doc_attr_labels doc;
              ac_Metrics := metrics;
              ac_X := doc_attr_X doc |} in
  _ ← checkOverflow (ac_X a) "config";
  Ok a.

(** [unmarshal(plain(s))] in [metricSourceConfig.UnmarshalYAML]: the
    hooks of the fields, taken in the order of the struct. *)
Definition metricSourceConfig_plain (doc : metricSourceConfig_doc) : result metricSourceConfig :=
  search ← optional dnString_UnmarshalYAML (doc_search doc);
  filter ← optional filterString_UnmarshalYAML (doc_filter doc);
  scope ← optional scopeChoice_UnmarshalYAML (doc_scope doc);
  deref ← optional derefChoice_UnmarshalYAML (doc_deref doc);
  counterName ← optional templateString_UnmarshalYAML (doc_counter_metric_name_template doc);
  gaugeName ← optional templateString_UnmarshalYAML (doc_gauge_metric_name_template doc);
  attributes ← attributeConfig_UnmarshalYAML (doc_attributes doc);
  Ok {| msc_Name := doc_name doc;
        msc_Search := search;
        msc_Filter := filter;
        msc_Scope := scope;
        msc_Deref := deref;
        msc_CounterNameTemplate := counterName;
        msc_GaugeNameTemplate := gaugeName;
        msc_Attributes := attributes;
        msc_ConstantLabels := doc_labels doc;
        msc_labelsFromAttributes := [];
        msc_metricAttributes := ∅;
        msc_X := doc_X doc |}.

(** The closure [setName] of [createMetricAttribute]: the new value of
    [a.Name]. *)
Definition setName (msc : metricSourceConfig) (a : metricAttributeConfig)
    (attribute : string) (t : option templateString) : go string :=
  name ← (if bool_decide (mac_Name a = "") then
            t ← deref_ptr t;
            tmpl ← deref_ptr (template_ t);
            let data : gmap string template.value :=
              <["section" := template.VString (msc_Name msc)]>
                (<["attribute" := template.VString attribute]> ∅) in
            match template_Execute template.MissingKeyError tmpl data with
            | Err err => fail (ErrNaming attribute err)
            | Ok buffer => mret buffer
            end
          else mret (mac_Name a));
  mret ("ldap_" +:+ name).

Definition createMetricAttribute (msc : metricSourceConfig) (a : metricAttributeConfig)
    (attribute : string) : go metricSourceConfig :=
  let help := if bool_decide (mac_Help a = "") then "No help provided" else mac_Help a in
  let labels :=
    if bool_decide (length (msc_labelsFromAttributes msc) ≠ 0)
    then [] ++ msc_labelsFromAttributes msc ++ mac_Labels a
    else mac_Labels a in
  if bool_decide (mac_Type a = "counter") then
    name ← setName msc a attribute (msc_CounterNameTemplate msc);
    mret (set_metricAttributes msc
            (<[attribute := Counter (NewCounterMetricAttribute name labels
                 (msc_ConstantLabels msc) (template_ (mac_Translator a)) help)]>
               (msc_metricAttributes msc)))
  else if bool_decide (mac_Type a = "gauge") then
    name ← setName msc a attribute (msc_GaugeNameTemplate msc);
    mret (set_metricAttributes msc
            (<[attribute := Gauge (NewGaugeMetricAttribute name labels
                 (msc_ConstantLabels msc) (template_ (mac_Translator a)) help)]>
               (msc_metricAttributes msc)))
  else fail (ErrTypeInvalid (mac_Type a) attribute).

(** The metric attribute that [createMetricAttribute] stores under
    [attribute], taken on its own (a restatement used by the proofs,
    see [createMetricAttribute_make]). *)
Definition make_attribute (msc : metricSourceConfig) (a : metricAttributeConfig)
    (attribute : string) : go MetricAttribute :=
  let help := if bool_decide (mac_Help a = "") then "No help provided" else mac_Help a in
  let labels :=
    if bool_decide (length (msc_labelsFromAttributes msc) ≠ 0)
    then [] ++ msc_labelsFromAttributes msc ++ mac_Labels a
    else mac_Labels a in
  if bool_decide (mac_Type a = "counter") then
    name ← setName msc a attribute (msc_CounterNameTemplate msc);
    mret (Counter (NewCounterMetricAttribute name labels
                     (msc_ConstantLabels msc) (template_ (mac_Translator a)) help))
  else if bool_decide (mac_Type a = "gauge") then
    name ← setName msc a attribute (msc_GaugeNameTemplate msc);
    mret (Gauge (NewGaugeMetricAttribute name labels
                   (msc_ConstantLabels msc) (template_ (mac_Translator a)) help))
  else fail (ErrTypeInvalid (mac_Type a) attribute).

(** Both naming templates are set and compiled. *)
Definition names_ready (s : metricSourceConfig) : Prop :=
  (∃ t tmpl, msc_CounterNameTemplate s = Some t ∧ template_ t = Some tmpl) ∧
  (∃ t tmpl, msc_GaugeNameTemplate s = Some t ∧ template_ t = Some tmpl).

(** The three loops of [metricSourceConfig.UnmarshalYAML], each over
    the entries of a map in the order the run visits them. *)
Fixpoint check_constant_labels (entries : list (string * string)) : result unit :=
  match entries with
  | [] => Ok tt
  | (key, value) :: rest =>
    if trimmed_shorter value then Err (ErrConstantLabelWhitespace key value)
    else check_constant_labels rest
  end.

Fixpoint collect_label_names (entries : list (string * string))
    (labelsFromAttributes : list string) : result (list string) :=
  match entries with
  | [] => Ok labelsFromAttributes
  | (src, final_name) :: rest =>
    if bool_decide (final_name ∈ labelsFromAttributes)
    then Err (ErrDuplicateLabel src final_name)
    else collect_label_names rest (labelsFromAttributes ++ [final_name])
  end.

Fixpoint create_metric_attributes (s : metricSourceConfig)
    (entries : list (string * metricAttributeConfig)) : go metricSourceConfig :=
  match entries with
  | [] => mret s
  | (attr, metric_config) :: rest =>
    _ ← call (checkOverflow (mac_X metric_config) ("attribute " +:+ attr));
    s ← createMetricAttribute s metric_config attr;
    create_metric_attributes s rest
  end.

Definition metricSourceConfig_UnmarshalYAML (order : range_order) (section : nat)
    (doc : metricSourceConfig_doc) : go metricSourceConfig :=
  s ← call (metricSourceConfig_plain doc);
  _ ← call (checkOverflow (msc_X s) "config");
  match msc_Search s with
  | None => fail ErrSearchUndefined
  | Some _ =>
    let s := set_defaults s
               (default "(objectClass=*)" (msc_Filter s))
               (default ScopeBaseObject (msc_Scope s))
               (default DerefAlways (msc_Deref s))
               (default defaultCounterNameTemplate (msc_CounterNameTemplate s))
               (default defaultmetricNameTemplate (msc_GaugeNameTemplate s)) in
    _ ← call (check_constant_labels
                (range order (RangeConstantLabels section) (msc_ConstantLabels s)));
    let s := set_metricAttributes s ∅ in
    labels ← call (collect_label_names
                     (range order (RangeAttributeLabels section) (ac_Labels (msc_Attributes s)))
                     (msc_labelsFromAttributes s));
    let s := set_labelsFromAttributes s labels in
    create_metric_attributes s
      (range order (RangeAttributeMetrics section) (ac_Metrics (msc_Attributes s)))
  end.

(** [yaml.Unmarshal] over the list of sections: the first failing hook
    ends the decoding. *)
Fixpoint decode_sections (order : range_order) (section : nat)
    (docs : list metricSourceConfig_doc) : go (list metricSourceConfig) :=
  match docs with
  | [] => mret []
  | doc :: rest =>
    s ← metricSourceConfig_UnmarshalYAML order section doc;
    ss ← decode_sections order (S section) rest;
    mret (s :: ss)
  end.

(** The loop of [LoadConfig] over [parsed_data], appending to
    [sources]. *)
Fixpoint build_sources (order : range_order) (section : nat)
    (parsed_data : list metricSourceConfig) (sources : list MetricsSource)
    : go (list MetricsSource) :=
  match parsed_data with
  | [] => mret sources
  | s :: rest =>
    scope ← deref_ptr (msc_Scope s);
    deref ← deref_ptr (msc_Deref s);
    match NewMetricsSource order section (msc_Search s) (msc_Filter s) scope deref
            (msc_metricAttributes s) (ac_Labels (msc_Attributes s)) with
    | Panics p => Panics p
    | Returns source => build_sources order (S section) rest (sources ++ [source])
    end
  end.

Definition LoadConfig (order : range_order) (data : string) : go (list MetricsSource) :=
  match yaml_Unmarshal_document data with
  | Err err => fail err
  | Ok docs =>
    parsed_data ← decode_sections order 0 docs;
    build_sources order 0 parsed_data []
  end.

(** *** Vocabulary for comparing two loads *)





End config.

(** ** Describing the metrics and the bundled definitions *)

Section describe.
Context `{Library}.

Import prometheus ldap.

(** The loop of [Describe] over the sources, from the [n]-th on. The
    inner loop ranges over the map [query.MetricAttributes]; [order] is
    the order of the iterations of this call, the map of the [n]-th
    source being visited as the site [RangeMetricAttributes n]. *)
Fixpoint describe_sources (order : range_order) (n : nat) (sources : list MetricsSource)
    : list Desc :=
  match sources with
  | [] => []
  | query :: rest =>
    (GetDesc <$> (range order (RangeMetricAttributes n) (MetricAttributes query)).*2)
      ++ describe_sources order (S n) rest
  end.

(** [Exporter.Describe]: the descriptors sent on [ch]. *)
Definition Describe (order : range_order) (e : Exporter) : list Desc :=
  describe_sources order 0 (metricsSources e).

(** [Asset] is generated by go-bindata from the directory [data/]: the
    content of a bundled file, or an error for a name that is not
    bundled. *)
Context (Asset : string → result string).

Definition loadBundledConfig (order : range_order) (asset_name : string)
    : go (list MetricsSource) :=
  match Asset asset_name with
  | Err err => fail err
  | Ok data => LoadConfig order data
  end.

(** [ea.Name == "vendorname" && len(ea.Values) == 1 &&
    ea.Values[0] == "389 Project"] *)
Definition is_389 (ea : EntryAttribute) : bool :=
  bool_decide (Name ea = "vendorname") &&
  bool_decide (length (Values ea) = 1) &&
  bool_decide (Values ea !! 0 = Some "389 Project").

(** The two loops of [loadBundledMetricsForServer]: the inner one
    returns from the function at the first attribute that names the
    vendor. *)
Fixpoint bundled_for_attributes (order : range_order) (attributes : list EntryAttribute)
    : option (go (list MetricsSource)) :=
  match attributes with
  | [] => None
  | ea :: rest =>
    if is_389 ea then Some (loadBundledConfig order "data/389.yaml")
    else bundled_for_attributes order rest
  end.

Fixpoint bundled_for_entries (order : range_order) (entries : list Entry)
    : go (list MetricsSource) :=
  match entries with
  | [] => mret []
  | entry :: rest =>
    match bundled_for_attributes order (Attributes entry) with
    | Some found => found
    | None => bundled_for_entries order rest
    end
  end.

(** [loadBundledMetricsForServer]; the search is the first one made on
    the connection. *)
Definition loadBundledMetricsForServer (order : range_order) (conn : Conn)
    : go (list MetricsSource) :=
  match Search conn 0
          (NewSearchRequest "" ScopeBaseObject NeverDerefAliases 0 0 false
             "(objectClass=*)" ["vendorname"]) with
  | Err err => fail err
  | Ok sr => bundled_for_entries order (Entries sr)
  end.

(** *** Vocabulary for samples and for the vendor search *)

(** A sample of a metric attribute: it carries the attribute's
    descriptor and one label value for each declared label. *)
Definition sample_of (a : MetricAttribute) (metric : Metric) : Prop :=
  desc metric = GetDesc a ∧ length (labelValues metric) = length (labels a).

(** An attribute that names the vendor of the 389 directory server. *)
Definition names_389 (ea : EntryAttribute) : Prop :=
  Name ea = "vendorname" ∧ Values ea = ["389 Project"].

#[global] Instance names_389_dec ea : Decision (names_389 ea).
Proof. unfold names_389. apply _. Defined.

End describe.

(** *** Vocabulary for what a load builds *)

Section loaded.
Context `{Library}.

Import prometheus ldap.

(** The template that [templateString.UnmarshalYAML] compiles from a
    configured text. *)
Definition supplied (text : string) : templateString :=
  {| template_ := Some {| template.name := "config supplied template";
                          template.sprig := true;
                          template.text := text |} |}.

(** The naming template that a section uses for its counters or for
    its gauges: the configured one, and the default without one. *)
Definition naming_template (doc : metricSourceConfig_doc) (counter : bool) : templateString :=
  if counter
  then default defaultCounterNameTemplate (supplied <$> doc_counter_metric_name_template doc)
  else default defaultmetricNameTemplate (supplied <$> doc_gauge_metric_name_template doc).

(** The data that the naming template of an attribute is executed on. *)
Definition naming_data (doc : metricSourceConfig_doc) (attr : string)
    : gmap string template.value :=
  <["section" := template.VString (doc_name doc)]>
    (<["attribute" := template.VString attr]> ∅).

(** The name of the metric of an attribute, before the prefix: the
    configured one, or what the naming template gives. *)
Definition metric_name_of (doc : metricSourceConfig_doc) (attr : string)
    (mdoc : metricAttributeConfig_doc) (counter : bool) (name : string) : Prop :=
  if bool_decide (doc_metric_name mdoc = "") then
    ∃ tmpl, template_ (naming_template doc counter) = Some tmpl ∧
            template_Execute template.MissingKeyError tmpl (naming_data doc attr) = Ok name
  else name = doc_metric_name mdoc.

(** The metric attribute [ma] is what the section [doc] configures
    for the attribute [attr], described by [mdoc]; [mapped] are the
    label names of the section's label mapping, in the order in which
    this load has collected them. *)
Definition loaded_attribute (doc : metricSourceConfig_doc) (mapped : list string)
    (attr : string) (mdoc : metricAttributeConfig_doc) (ma : MetricAttribute) : Prop :=
  (doc_type mdoc = "counter" ∧ is_counter ma = true ∨
   doc_type mdoc = "gauge" ∧ is_counter ma = false) ∧
  translator ma = (doc_translator mdoc ≫= λ text, template_ (supplied text)) ∧
  help (descriptor ma) =
    (if bool_decide (doc_help mdoc = "") then "No help provided" else doc_help mdoc) ∧
  constLabels (descriptor ma) = doc_labels doc ∧
  labels ma = mapped ++ doc_metric_labels mdoc ∧
  variableLabels (descriptor ma) = mapped ++ doc_metric_labels mdoc ∧
  ∃ name, fqName (descriptor ma) = "ldap_" +:+ name ∧
          metric_name_of doc attr mdoc (is_counter ma) name.

(** The search request and the label mapping of the source [m] are
    what the section [doc] configures. *)
Definition loaded_request (doc : metricSourceConfig_doc) (m : MetricsSource) : Prop :=
  doc_search doc = Some (BaseDN (SearchRequest_ m)) ∧
  Filter (SearchRequest_ m) = default "(objectClass=*)" (doc_filter doc) ∧
  match doc_scope doc with
  | None => Scope (SearchRequest_ m) = ScopeBaseObject
  | Some choice => scopeChoice_UnmarshalYAML choice = Ok (Scope (SearchRequest_ m))
  end ∧
  match doc_deref doc with
  | None => DerefAliases (SearchRequest_ m) = DerefAlways
  | Some choice => derefChoice_UnmarshalYAML choice = Ok (DerefAliases (SearchRequest_ m))
  end ∧
  SizeLimit (SearchRequest_ m) = 0%Z ∧
  TimeLimit (SearchRequest_ m) = 0%Z ∧
  TypesOnly (SearchRequest_ m) = false ∧
  RequestAttributes (SearchRequest_ m) ≡ₚ
    (map_to_list (doc_attr_metrics (doc_attributes doc))).*1 ++
    (map_to_list (doc_attr_labels (doc_attributes doc))).*1 ∧
  LabelAttributes m = doc_attr_labels (doc_attributes doc).

(** The metric attributes of the source [m] are those that the section
    [doc] configures, one for each key of its metrics. *)
Definition loaded_attributes (doc : metricSourceConfig_doc) (m : MetricsSource) : Prop :=
  ∃ mapped,
    mapped ≡ₚ (map_to_list (doc_attr_labels (doc_attributes doc))).*2 ∧
    ∀ attr, option_Forall2 (loaded_attribute doc mapped attr)
              (doc_attr_metrics (doc_attributes doc) !! attr)
              (MetricAttributes m !! attr).

(** A text that starts or ends with white space. *)
Definition padded (s : string) : Prop :=
  strings.leading_space (strings.bytes s) ≠ 0 ∨
  strings.trailing_space (rev (strings.bytes s)) ≠ 0.

(** What a load checks in the description of a metric attribute: no
    unknown key, a type that is [counter] or [gauge], labels that
    [strings.TrimSpace] leaves as long as they are, a translator that
    parses, and, without a configured metric name, a naming template
    that can be executed. *)
Definition checked_metric (doc : metricSourceConfig_doc) (attr : string)
    (mdoc : metricAttributeConfig_doc) : Prop :=
  doc_metric_X mdoc = ∅ ∧
  (doc_type mdoc = "counter" ∨ doc_type mdoc = "gauge") ∧
  Forall (λ label, trimmed_shorter label = false) (doc_metric_labels mdoc) ∧
  (∀ text, doc_translator mdoc = Some text →
     templateString_UnmarshalYAML text = Ok (supplied text)) ∧
  (doc_metric_name mdoc = "" →
   ∃ name, metric_name_of doc attr mdoc (bool_decide (doc_type mdoc = "counter")) name).

(** What a load checks in a section: no unknown key in the section or
    in its attributes, a search base that is present and parses,
    a filter, a scope, an alias dereferencing and naming templates that
    are accepted when present, constant labels whose values
    [strings.TrimSpace] leaves as long as they are, label names that
    are pairwise distinct, and metric attributes as above. *)
Definition checked_section (doc : metricSourceConfig_doc) : Prop :=
  doc_X doc = ∅ ∧
  doc_attr_X (doc_attributes doc) = ∅ ∧
  (∃ search, doc_search doc = Some search ∧ ldap_ParseDN search = None) ∧
  (∀ filter, doc_filter doc = Some filter → ldap_CompileFilter filter = None) ∧
  (∀ choice, doc_scope doc = Some choice → is_Ok (scopeChoice_UnmarshalYAML choice)) ∧
  (∀ choice, doc_deref doc = Some choice → is_Ok (derefChoice_UnmarshalYAML choice)) ∧
  (∀ text, doc_counter_metric_name_template doc = Some text →
     templateString_UnmarshalYAML text = Ok (supplied text)) ∧
  (∀ text, doc_gauge_metric_name_template doc = Some text →
     templateString_UnmarshalYAML text = Ok (supplied text)) ∧
  map_Forall (λ _ value, trimmed_shorter value = false) (doc_labels doc) ∧
  NoDup (map_to_list (doc_attr_labels (doc_attributes doc))).*2 ∧
  map_Forall (checked_metric doc) (doc_attr_metrics (doc_attributes doc)).

End loaded.

(** ** A small implementation of the imported packages

    Enough of each package to run the program on concrete inputs:
    decimal floats, templates made of text and [{{ .field }}] actions,
    translation results in YAML flow style, and a table of configuration
    documents. *)

Module small.

Import prometheus.

Definition is_digit (c : ascii) : bool :=
  bool_decide (48 ≤ N_of_ascii c ≤ 57)%N.

Definition digit (c : ascii) : Z := Z.of_N (N_of_ascii c) - 48.

(** Decimal digits: mantissa read so far and number of digits after
    the point ([None] before the point). *)
Fixpoint decimal (s : string) (mantissa : Z) (frac : option nat) (seen : bool)
    : option (Z * nat) :=
  match s with
  | EmptyString => if seen then Some (mantissa, default 0 frac) else None
  | String c rest =>
    if is_digit c then decimal rest (mantissa * 10 + digit c) (S <$> frac) true
    else if bool_decide (c = "."%char) then
      match frac with
      | None => decimal rest mantissa (Some 0) seen
      | Some _ => None
      end
    else None
  end.

(** [strconv.ParseFloat] on the inputs of its exact path: a decimal
    with a mantissa below [2^53] and at most 22 digits after the
    point is the quotient of two floats that hold integers. *)
Definition ParseFloat (s : string) : result float :=
  let '(neg, digits) :=
    match s with
    | String "-" rest => (true, rest)
    | String "+" rest => (false, rest)
    | _ => (false, s)
    end in
  match decimal digits 0 None false with
  | Some (mantissa, frac) =>
    if bool_decide ((mantissa < 2 ^ 53)%Z ∧ frac ≤ 22) then
      let f := (strconv.float64_of_uint64 mantissa
                / strconv.float64_of_uint64 (10 ^ Z.of_nat frac))%float in
      Ok (if neg then (- f)%float else f)
    else Err (ErrNum "ParseFloat" s ErrRange)
  | None => Err (ErrNum "ParseFloat" s ErrSyntax)
  end.

(** *** Templates *)

Inductive item :=
| Text (s : string)
| Field (name : string).

(** [s] cut at the first occurrence of the two characters [a b]. *)
Fixpoint cut (a b : ascii) (s : string) : option (string * string) :=
  match s with
  | String c ((String d rest) as tail) =>
    if bool_decide (c = a ∧ d = b) then Some (EmptyString, rest)
    else '(before, after) ← cut a b tail; Some (String c before, after)
  | _ => None
  end.

Fixpoint skip_spaces (l : list ascii) : list ascii :=
  match l with
  | " "%char :: rest => skip_spaces rest
  | _ => l
  end.

Definition strip (s : string) : string :=
  string_of_list_ascii
    (reverse (skip_spaces (reverse (skip_spaces (list_ascii_of_string s))))).

Fixpoint parse (fuel : nat) (s : string) : result (list item) :=
  match fuel with
  | 0 => Ok [Text s]
  | S fuel =>
    match cut "{" "{" s with
    | None => Ok [Text s]
    | Some (before, after) =>
      match cut "}" "}" after with
      | None => Err (ErrExternal "template" "unclosed action")
      | Some (action, rest) =>
        match strip action with
        | String "." name =>
          items ← parse fuel rest; Ok (Text before :: Field name :: items)
        | _ => Err (ErrExternal "template" ("unsupported action: " +:+ action))
        end
      end
    end
  end.

Definition Parse (t : template.Template) : option error :=
  match parse (String.length (template.text t)) (template.text t) with
  | Ok _ => None
  | Err err => Some err
  end.

(** How [Execute] prints a value: a string as it is, a slice as
    [[a b c]]. *)
Definition print (v : template.value) : string :=
  match v with
  | template.VString s => s
  | template.VStrings l => "[" +:+ String.concat " " l +:+ "]"
  end.

Fixpoint execute (policy : template.missingkey) (data : gmap string template.value)
    (items : list item) : result string :=
  match items with
  | [] => Ok ""
  | Text s :: rest => out ← execute policy data rest; Ok (s +:+ out)
  | Field name :: rest =>
    match data !! name with
    | Some v => out ← execute policy data rest; Ok (print v +:+ out)
    | None =>
      match policy with
      | template.MissingKeyError =>
        Err (ErrExternal "template" ("map has no entry for key " +:+ name))
      | _ => out ← execute policy data rest; Ok ("<no value>" +:+ out)
      end
    end
  end.

Definition Execute (policy : template.missingkey) (t : template.Template)
    (data : gmap string template.value) : result string :=
  items ← parse (String.length (template.text t)) (template.text t);
  execute policy data items.

(** *** Translation results in YAML flow style *)

Inductive token :=
| TLBracket | TRBracket | TLBrace | TRBrace | TComma | TColon
| TWord (s : string).

Definition flush (word : string) (ts : list token) : list token :=
  if bool_decide (word = "") then ts else TWord word :: ts.

Fixpoint tokens (s word : string) : list token :=
  match s with
  | EmptyString => flush word []
  | String c rest =>
    if bool_decide (c = "["%char) then flush word (TLBracket :: tokens rest "")
    else if bool_decide (c = "]"%char) then flush word (TRBracket :: tokens rest "")
    else if bool_decide (c = "{"%char) then flush word (TLBrace :: tokens rest "")
    else if bool_decide (c = "}"%char) then flush word (TRBrace :: tokens rest "")
    else if bool_decide (c = ","%char) then flush word (TComma :: tokens rest "")
    else if bool_decide (c = ":"%char) then flush word (TColon :: tokens rest "")
    else if bool_decide (c = " "%char) then flush word (tokens rest "")
    else tokens rest (word +:+ String c "")
  end.

Definition malformed {A} : result A := Err (ErrExternal "yaml" "malformed flow text").

(** The pairs of a flow mapping of strings, up to its closing brace. *)
Fixpoint string_map (ts : list token) (m : gmap string string)
    : result (gmap string string * list token) :=
  match ts with
  | TRBrace :: rest => Ok (m, rest)
  | TComma :: rest => string_map rest m
  | TWord k :: TColon :: TWord v :: rest => string_map rest (<[k := v]> m)
  | _ => malformed
  end.

(** The pairs of one result, up to its closing brace: the struct tags
    send [value] and [labels] to their fields and any other key to
    the inline map [X]. *)
Fixpoint object (fuel : nat) (ts : list token) (r : translationResult)
    : result (translationResult * list token) :=
  match fuel with
  | 0 => malformed
  | S fuel =>
    match ts with
    | TRBrace :: rest => Ok (r, rest)
    | TComma :: rest => object fuel rest r
    | TWord k :: TColon :: TLBrace :: rest =>
      '(m, rest) ← string_map rest ∅;
      if bool_decide (k = "labels")
      then object fuel rest {| tr_Value := tr_Value r; tr_Labels := m; tr_X := tr_X r |}
      else object fuel rest
             {| tr_Value := tr_Value r; tr_Labels := tr_Labels r;
                tr_X := <[k := YMap (prod_map id YScalar <$> map_to_list m)]> (tr_X r) |}
    | TWord k :: TColon :: TWord v :: rest =>
      if bool_decide (k = "value") then
        f ← ParseFloat v;
        object fuel rest {| tr_Value := f; tr_Labels := tr_Labels r; tr_X := tr_X r |}
      else if bool_decide (k = "labels") then malformed
      else object fuel rest
             {| tr_Value := tr_Value r; tr_Labels := tr_Labels r;
                tr_X := <[k := YScalar v]> (tr_X r) |}
    | _ => malformed
    end
  end.

(** The elements of the flow sequence, up to its closing bracket;
    [~] and [null] decode to a [nil] pointer. *)
Fixpoint objects (fuel : nat) (ts : list token) : result (list (option translationResult)) :=
  match fuel with
  | 0 => malformed
  | S fuel =>
    match ts with
    | [TRBracket] => Ok []
    | TComma :: rest => objects fuel rest
    | TWord w :: rest =>
      if bool_decide (w = "~" ∨ w = "null")
      then rs ← objects fuel rest; Ok (None :: rs)
      else malformed
    | TLBrace :: rest =>
      '(r, rest) ← object fuel rest {| tr_Value := 0; tr_Labels := ∅; tr_X := ∅ |};
      rs ← objects fuel rest; Ok (Some r :: rs)
    | _ => malformed
    end
  end.

Definition Unmarshal_translationResults (text : string)
    : result (list (option translationResult)) :=
  match tokens text "" with
  | TLBracket :: ts => objects (S (length ts)) ts
  | _ => malformed
  end.

(** *** The other packages *)

(** [NewConstMetric] refuses label values that are not as many as the
    descriptor's variable labels. *)
Definition NewConstMetric_error (d : Desc) (labelValues : list string) : option error :=
  if bool_decide (length (variableLabels d) ≠ length labelValues)
  then Some (ErrExternal "prometheus" "inconsistent label cardinality")
  else None.

Fixpoint contains (c : ascii) (s : string) : bool :=
  match s with
  | EmptyString => false
  | String d rest => bool_decide (c = d) || contains c rest
  end.

(** A distinguished name is empty or has a [type=value] pair; a filter
    is in parentheses. *)
Definition ParseDN (s : string) : option error :=
  if bool_decide (s = "") || contains "=" s then None
  else Some (ErrExternal "ldap" "DN ended with incomplete type, value pair").

Definition CompileFilter (s : string) : option error :=
  match s with
  | String "(" rest =>
    if bool_decide (String.get (String.length rest - 1) rest = Some ")"%char) then None
    else Some (ErrExternal "ldap" "filter is not closed")
  | _ => Some (ErrExternal "ldap" "filter does not start with an '('")
  end.

(** *** Configuration documents *)

Definition metric_doc (metric_name type : string) (labels : list string)
    (translator : option string) (help : string) : metricAttributeConfig_doc :=
  {| doc_metric_name := metric_name; doc_type := type; doc_metric_labels := labels;
     doc_translator := translator; doc_help := help; doc_metric_X := ∅ |}.

Definition source_doc (name search : string) (labels : gmap string string)
    (metrics : gmap string metricAttributeConfig_doc) : metricSourceConfig_doc :=
  {| doc_name := name; doc_search := Some search; doc_filter := None;
     doc_scope := None; doc_deref := None;
     doc_counter_metric_name_template := None;
     doc_gauge_metric_name_template := None;
     doc_attributes := {| doc_attr_labels := labels; doc_attr_metrics := metrics;
                          doc_attr_X := ∅ |};
     doc_labels := ∅; doc_X := ∅ |}.

Definition users_text : string :=
  "[{name: users, search: 'ou=people,dc=example,dc=com', attributes: {labels: {cn: user}, metrics: {loginCount: {type: counter, metric_name: logins}}}}]".

Definition users_doc : list metricSourceConfig_doc :=
  [source_doc "users" "ou=people,dc=example,dc=com"
     {["cn" := "user"]}
     {["loginCount" := metric_doc "logins" "counter" [] None ""]}].

Definition staff_text : string :=
  "[{name: staff, search: 'ou=staff,dc=example,dc=com', attributes: {labels: {cn: user, ou: dept}, metrics: {loginCount: {type: counter, help: Logins}}}}]".

Definition staff_doc : list metricSourceConfig_doc :=
  [source_doc "staff" "ou=staff,dc=example,dc=com"
     (<["cn" := "user"]> {["ou" := "dept"]})
     {["loginCount" := metric_doc "" "counter" [] None "Logins"]}].

Definition clash_text : string :=
  "[{name: users, search: 'ou=people,dc=example,dc=com', attributes: {labels: {cn: user, uid: user}, metrics: {loginCount: {type: counter, metric_name: logins}}}}]".

Definition clash_section : metricSourceConfig_doc :=
  source_doc "users" "ou=people,dc=example,dc=com"
    (<["cn" := "user"]> {["uid" := "user"]})
    {["loginCount" := metric_doc "logins" "counter" [] None ""]}.

Definition clash_doc : list metricSourceConfig_doc := [clash_section].

Definition empty_label_text : string :=
  "[{name: users, search: 'ou=people,dc=example,dc=com', attributes: {metrics: {loginCount: {type: counter, metric_name: logins, labels: ['']}}}}]".

Definition empty_label_doc : list metricSourceConfig_doc :=
  [source_doc "users" "ou=people,dc=example,dc=com" ∅
     {["loginCount" := metric_doc "logins" "counter" [""] None ""]}].

Definition padded_label_text : string :=
  "[{name: users, search: 'ou=people,dc=example,dc=com', attributes: {metrics: {loginCount: {type: counter, metric_name: logins, labels: [' kind']}}}}]".

Definition padded_label_doc : list metricSourceConfig_doc :=
  [source_doc "users" "ou=people,dc=example,dc=com" ∅
     {["loginCount" := metric_doc "logins" "counter" [" kind"] None ""]}].

(** The documents this implementation can read, each with what
    [yaml.Unmarshal] finds in it. *)
Definition documents : list (string * list metricSourceConfig_doc) :=
  [(users_text, users_doc); (staff_text, staff_doc); (clash_text, clash_doc);
   (empty_label_text, empty_label_doc); (padded_label_text, padded_label_doc)].

Fixpoint lookup_document (table : list (string * list metricSourceConfig_doc))
    (data : string) : result (list metricSourceConfig_doc) :=
  match table with
  | [] => Err (ErrExternal "yaml" "unknown document")
  | (text, doc) :: rest =>
    if bool_decide (text = data) then Ok doc else lookup_document rest data
  end.

#[local] Instance library : Library :=
  {| strconv_ParseFloat := ParseFloat;
     template_Parse := Parse;
     template_Execute := Execute;
     yaml_Unmarshal_translationResults := Unmarshal_translationResults;
     yaml_Unmarshal_document := lookup_document documents;
     prometheus_NewConstMetric_error := NewConstMetric_error;
     ldap_ParseDN := ParseDN;
     ldap_CompileFilter := CompileFilter |}.

End small.

(** ** Concrete inputs *)

Module scenario.

Import prometheus ldap.
#[local] Existing Instance small.library.

(** Two ways of visiting maps: as listed, and the other way round. *)
Definition listed : range_order := λ _ _ l, l.
Definition backwards : range_order := λ _ _ l, reverse l.

Definition attribute (name : string) (values : list string) : EntryAttribute :=
  {| Name := name; Values := values |}.

(** Attributes without a translator. *)
Definition logins : CounterMetricAttribute :=
  NewCounterMetricAttribute "ldap_logins" [] ∅ None "No help provided".

Definition load : GaugeMetricAttribute :=
  NewGaugeMetricAttribute "ldap_load" [] ∅ None "Load average".

(** Translation templates. *)
Definition configured (text : string) : template.Template :=
  {| template.name := "config supplied template"; template.sprig := true;
     template.text := text |}.

Definition by_status : template.Template :=
  configured "[{value: {{ .value }}, labels: {status: ok}}, {value: 5, labels: {status: fail}}]".



Definition row (value : float) (status : string) : translationResult :=
  {| tr_Value := value; tr_Labels := {["status" := status]}; tr_X := ∅ |}.

(** Attributes with a translator, labelled by status and host. *)
Definition requests : CounterMetricAttribute :=
  NewCounterMetricAttribute "ldap_requests_total" ["status"; "host"] ∅
    (Some by_status) "Requests by status".

Definition connections : GaugeMetricAttribute :=
  NewGaugeMetricAttribute "ldap_connections" ["status"; "host"] ∅
    (Some by_status) "Connections by status".

Definition caller_labels : gmap string string :=
  <["host" := "a"]> {["status" := "unknown"]}.

(** The source of the users document, as loaded. *)
Definition logins_by_user : CounterMetricAttribute :=
  NewCounterMetricAttribute "ldap_logins" ["user"] ∅ None "No help provided".

Definition users : MetricsSource :=
  {| SearchRequest_ :=
       NewSearchRequest "ou=people,dc=example,dc=com" ScopeBaseObject DerefAlways 0 0 false
         "(objectClass=*)" ["loginCount"; "cn"];
     MetricAttributes := {["loginCount" := Counter logins_by_user]};
     LabelAttributes := {["cn" := "user"]} |}.

Definition alice : Entry :=
  {| DN := "cn=alice,ou=people,dc=example,dc=com";
     Attributes := [attribute "cn" ["alice"]; attribute "loginCount" ["4"]] |}.

(** An entry without the label attribute, and one where it has two
    values. *)
Definition nameless : Entry :=
  {| DN := "uid=7,ou=people,dc=example,dc=com";
     Attributes := [attribute "loginCount" ["9"]] |}.

Definition two_names : Entry :=
  {| DN := "cn=bob,ou=people,dc=example,dc=com";
     Attributes := [attribute "loginCount" ["9"]; attribute "cn" ["bob"; "robert"]] |}.

Definition alice_logins : Metric :=
  {| desc := c_Desc logins_by_user; valType := CounterValue; val := 4;
     labelValues := ["alice"] |}.

(** A server that fails the first search of a cycle and answers the
    others with alice's entry. *)
Definition flaky : Conn :=
  {| Search := λ n _,
       match n with
       | 0 => Err (ErrExternal "ldap" "LDAP Result Code 52: Unavailable")
       | _ => Ok {| Entries := [alice] |}
       end |}.

Definition exporter : Exporter := NewExporter flaky [users; users].

End scenario.

(** ** More concrete inputs *)

Module cases.

Import prometheus ldap scenario.
#[local] Existing Instance small.library.

(** A source whose label mapping sends two attributes to one label
    name. *)
Definition aliases : MetricsSource :=
  {| SearchRequest_ :=
       NewSearchRequest "ou=people,dc=example,dc=com" ScopeBaseObject DerefAlways 0 0 false
         "(objectClass=*)" ["loginCount"; "cn"; "uid"];
     MetricAttributes := {["loginCount" := Counter logins_by_user]};
     LabelAttributes := <["cn" := "user"]> {["uid" := "user"]} |}.

(** The users source with a counter that declares a label of its own,
    [kind], and has no translator. *)
Definition logins_by_kind : CounterMetricAttribute :=
  NewCounterMetricAttribute "ldap_logins" ["user"; "kind"] ∅ None "No help provided".

Definition kinds : MetricsSource :=
  {| SearchRequest_ := SearchRequest_ users;
     MetricAttributes := {["loginCount" := Counter logins_by_kind]};
     LabelAttributes := {["cn" := "user"]} |}.

(** alice's entry with an attribute that the users source has not
    asked for, followed by one more count. *)
Definition alice_with_mail : Entry :=
  {| DN := "cn=alice,ou=people,dc=example,dc=com";
     Attributes := [attribute "cn" ["alice"]; attribute "loginCount" ["4"];
                    attribute "mail" ["alice@example.com"];
                    attribute "loginCount" ["5"]] |}.

(** A translator whose text has a null element, before a result with
    an unknown field. *)
Definition with_null : template.Template :=
  configured "[{value: {{ .value }}}, null, {value: 2, unit: s}]".

Definition hits : CounterMetricAttribute :=
  NewCounterMetricAttribute "ldap_hits_total" [] ∅ (Some with_null) "Hits".

Definition counters : MetricsSource :=
  {| SearchRequest_ :=
       NewSearchRequest "cn=monitor" ScopeBaseObject DerefAlways 0 0 false
         "(objectClass=*)" ["hits"];
     MetricAttributes := {["hits" := Counter hits]};
     LabelAttributes := ∅ |}.

Definition monitor : Entry :=
  {| DN := "cn=monitor"; Attributes := [attribute "hits" ["7"]] |}.

(** A server that answers the first search of a cycle with alice's
    entry and the others with the monitor entry. *)
Definition steady : Conn :=
  {| Search := λ n _,
       match n with
       | 0 => Ok {| Entries := [alice] |}
       | _ => Ok {| Entries := [monitor] |}
       end |}.

Definition monitored : Exporter := NewExporter steady [users; counters; users].

End cases.

(** * Properties *)

Import prometheus ldap.

(** ** Label resolution *)

Section labels.

Lemma first_source_two (label_name : string) (first second : gmap string string) :
  first_source label_name [first; second] =
    match first !! label_name with
    | Some value => Some value
    | None => second !! label_name
    end.
Proof. simpl. destruct (first !! label_name), (second !! label_name); reflexivity. Qed.

Lemma first_source_one (label_name : string) (source : gmap string string) :
  first_source label_name [source] = source !! label_name.
Proof. simpl. destruct (source !! label_name); reflexivity. Qed.

Lemma buildOrderedLabels_Ok (desc_labels : list string) label_sources results :
  buildOrderedLabels desc_labels label_sources = Ok results ↔
  Forall2 (λ label_name value, first_source label_name label_sources = Some value)
    desc_labels results.
Proof.
  revert results. induction desc_labels as [|label_name rest IH]; intros results; simpl.
  - split.
    + intros [= <-]. constructor.
    + intros Hall. inversion Hall. reflexivity.
  - destruct (first_source label_name label_sources) as [value|] eqn:Hfirst.
    + destruct (buildOrderedLabels rest label_sources) as [tail|err] eqn:Hrest; simpl.
      * split.
        -- intros [= <-]. constructor; [assumption|]. by apply IH.
        -- intros Hall. inversion Hall as [|? v ? tail' Hv Htail]; subst.
           apply IH in Htail. congruence.
      * split; [discriminate|].
        intros Hall. inversion Hall as [|? v ? tail' Hv Htail]; subst.
        apply IH in Htail. discriminate.
    + split; [discriminate|].
      intros Hall. inversion Hall; congruence.
Qed.

Lemma buildOrderedLabels_Err (desc_labels : list string) label_sources :
  is_Err (buildOrderedLabels desc_labels label_sources) ↔
  Exists (λ label_name, first_source label_name label_sources = None) desc_labels.
Proof.
  induction desc_labels as [|label_name rest IH]; simpl.
  - split; [intros [? [=]] | intros Hex; inversion Hex].
  - destruct (first_source label_name label_sources) as [value|] eqn:Hfirst.
    + destruct (buildOrderedLabels rest label_sources) as [tail|err]; simpl.
      * split; [intros [? [=]]|].
        intros Hex. inversion Hex; subst; [congruence|].
        apply IH in H0 as [? [=]].
      * split; [|by eexists].
        intros _. apply Exists_cons_tl, IH. by eexists.
    + split; [|by eexists]. intros _. by apply Exists_cons_hd.
Qed.

Lemma buildOrderedLabels_length (desc_labels : list string) label_sources results :
  buildOrderedLabels desc_labels label_sources = Ok results →
  length results = length desc_labels.
Proof.
  intros Hok. apply buildOrderedLabels_Ok in Hok.
  symmetry. by eapply Forall2_length.
Qed.

End labels.

(** ** Metric attributes without a translator *)

Section untranslated.
Context `{Library}.

Lemma NewConstMetric_Ok d valueType value labelValues metric :
  NewConstMetric d valueType value labelValues = Ok metric ↔
  prometheus_NewConstMetric_error d labelValues = None ∧
  metric = {| desc := d; valType := valueType; val := value; labelValues := labelValues |}.
Proof.
  unfold NewConstMetric.
  destruct (prometheus_NewConstMetric_error d labelValues); split.
  - discriminate.
  - intros [[=] _].
  - intros [= <-]. done.
  - intros [_ ->]. done.
Qed.

Lemma Parse_untranslated_Ok (a : MetricAttribute) extra_labels entry metrics :
  translator a = None →
  Parse a extra_labels entry = Returns (Ok metrics) →
  ∃ value0 x labelValues,
    Values entry = [value0] ∧ raw_value a value0 = Ok x ∧
    buildOrderedLabels (labels a) [extra_labels] = Ok labelValues ∧
    metrics = [{| desc := GetDesc a; valType := CounterValue; val := x;
                  labelValues := labelValues |}].
Proof.
  intros Hnone. destruct a as [c|g]; simpl in *;
    [unfold CounterMetricAttribute_Parse | unfold GaugeMetricAttribute_Parse];
    rewrite Hnone; unfold call; intros [= Hok];
    destruct (Values entry) as [|value0 [|? ?]]; try discriminate.
  - destruct (strconv.ParseUint value0) as [x|] eqn:Hx; try discriminate.
    simpl in Hok.
    destruct (buildOrderedLabels (c_labels c) [extra_labels]) as [ls|];
      try discriminate.
    simpl in Hok.
    destruct (NewConstMetric (c_Desc c) CounterValue (strconv.float64_of_uint64 x) ls)
      as [metric|] eqn:Hmetric; try discriminate.
    apply NewConstMetric_Ok in Hmetric as [_ ->].
    injection Hok as <-. eexists _, _, _.
    split; [reflexivity|]. rewrite Hx. repeat split; reflexivity.
  - destruct (strconv_ParseFloat value0) as [x|] eqn:Hx; try discriminate.
    simpl in Hok.
    destruct (buildOrderedLabels (g_labels g) [extra_labels]) as [ls|];
      try discriminate.
    simpl in Hok.
    destruct (NewConstMetric (g_Desc g) CounterValue x ls)
      as [metric|] eqn:Hmetric; try discriminate.
    apply NewConstMetric_Ok in Hmetric as [_ ->].
    injection Hok as <-. eexists _, _, _.
    split; [reflexivity|]. rewrite Hx. repeat split; reflexivity.
Qed.

(** C1. Without a translator, [Parse] succeeds only on an attribute
    that carries exactly one raw value which parses (as an unsigned
    integer for a counter, as a float for a gauge); it then yields
    exactly one sample, whose value is the parsed number. It does
    succeed when moreover the labels resolve and the metric can be
    built. Any other number of values, or a value that does not
    parse, yields an error (and so no sample). *)
Theorem Parse_without_translator (a : MetricAttribute)
    (extra_labels : gmap string string) (entry : EntryAttribute) :
  translator a = None →
  (∀ metrics, Parse a extra_labels entry = Returns (Ok metrics) →
     ∃ value0 x labelValues,
       Values entry = [value0] ∧ raw_value a value0 = Ok x ∧
       buildOrderedLabels (labels a) [extra_labels] = Ok labelValues ∧
       metrics = [{| desc := GetDesc a; valType := CounterValue; val := x;
                     labelValues := labelValues |}]) ∧
  (∀ value0 x labelValues,
     Values entry = [value0] → raw_value a value0 = Ok x →
     buildOrderedLabels (labels a) [extra_labels] = Ok labelValues →
     prometheus_NewConstMetric_error (GetDesc a) labelValues = None →
     Parse a extra_labels entry =
       Returns (Ok [{| desc := GetDesc a; valType := CounterValue; val := x;
                       labelValues := labelValues |}])) ∧
  (length (Values entry) ≠ 1 →
     Parse a extra_labels entry =
       Returns (Err (ErrNoTranslator (Name entry) (length (Values entry))))) ∧
  (∀ value0, Values entry = [value0] → is_Err (raw_value a value0) →
     ∃ err, Parse a extra_labels entry = Returns (Err err)).
Proof.
  intros Hnone. split; [intros metrics; by apply Parse_untranslated_Ok|].
  destruct a as [c|g]; simpl in *;
    [unfold CounterMetricAttribute_Parse | unfold GaugeMetricAttribute_Parse];
    rewrite Hnone; unfold call.
  - repeat split.
    + intros value0 x ls -> Hx Hls Hnew.
      destruct (strconv.ParseUint value0) as [n|]; try discriminate.
      injection Hx as <-. simpl. rewrite Hls. simpl.
      unfold NewConstMetric. rewrite Hnew. reflexivity.
    + intros Hlen. by destruct (Values entry) as [|value0 [|? ?]].
    + intros value0 -> [err Herr].
      destruct (strconv.ParseUint value0); try discriminate. by eexists.
  - repeat split.
    + intros value0 x ls -> Hx Hls Hnew.
      rewrite Hx. simpl. rewrite Hls. simpl.
      unfold NewConstMetric. rewrite Hnew. reflexivity.
    + intros Hlen. by destruct (Values entry) as [|value0 [|? ?]].
    + intros value0 -> [err Herr]. rewrite Herr. by eexists.
Qed.

End untranslated.

(** ** The template translator *)

Section translator.
Context `{Library}.

Lemma checkOverflow_Ok {V} (m : gmap string V) ctx :
  checkOverflow m ctx = Ok tt ↔ m = ∅.
Proof.
  unfold checkOverflow. rewrite <- map_size_empty_iff.
  case_bool_decide; split; intros; try done; lia.
Qed.




Lemma check_results_panic values idx results p :
  check_results values idx results = Panics p → p = NilDereference ∧ None ∈ results.
Proof.
  revert idx. induction results as [|[r|] rest IH]; intros idx; simpl.
  - discriminate.
  - destruct (checkOverflow (tr_X r) _) as [[]|err]; [|discriminate].
    destruct (check_results values (S idx) rest) as [[tail|err]|p'] eqn:Hrest;
      simpl; try discriminate.
    intros [= ->]. apply IH in Hrest as [-> Hin]. split; [done|]. by right.
  - intros [= <-]. split; [done|]. by left.
Qed.


End translator.

(** ** Metric attributes with a translator *)

Section translated.
Context `{Library}.

Lemma do_the_translation_thing_empty t :
  do_the_translation_thing t [] = Panics IndexOutOfRange.
Proof. reflexivity. Qed.

Lemma do_the_translation_thing_panic t values p :
  do_the_translation_thing t values = Panics p →
  (p = IndexOutOfRange ∧ values = []) ∨
  (p = NilDereference ∧ ∃ value0 buffer results,
     head values = Some value0 ∧
     template_Execute template.MissingKeyError t (translation_input values value0)
       = Ok buffer ∧
     yaml_Unmarshal_translationResults buffer = Ok results ∧ None ∈ results).
Proof.
  unfold do_the_translation_thing. destruct values as [|value0 rest].
  - intros [= <-]. by left.
  - destruct (template_Execute _ _ _) as [buffer|err] eqn:Hexec; [|discriminate].
    destruct (yaml_Unmarshal_translationResults buffer) as [results|err] eqn:Hyaml;
      [|discriminate].
    intros Hpanic. apply check_results_panic in Hpanic as [-> Hin].
    right. split; [done|]. by exists value0, buffer, results.
Qed.

Lemma translated_Ok d valueType desc_labels extra_labels values metrics result :
  translated d valueType desc_labels extra_labels values metrics = Ok result ↔
  ∃ new, result = metrics ++ new ∧
    Forall2 (λ value metric, ∃ labelValues,
               buildOrderedLabels desc_labels [tr_Labels value; extra_labels]
                 = Ok labelValues ∧
               prometheus_NewConstMetric_error d labelValues = None ∧
               metric = {| desc := d; valType := valueType; val := tr_Value value;
                           labelValues := labelValues |})
      values new.
Proof.
  revert metrics result. induction values as [|value rest IH]; intros metrics result; simpl.
  - split.
    + intros [= <-]. exists []. split; [by rewrite app_nil_r | constructor].
    + intros (new & -> & Hall). inversion Hall. by rewrite app_nil_r.
  - destruct (buildOrderedLabels desc_labels [tr_Labels value; extra_labels])
      as [labelValues|err] eqn:Hlabels; simpl.
    + destruct (NewConstMetric d valueType (tr_Value value) labelValues)
        as [metric|err] eqn:Hmetric; simpl.
      * apply NewConstMetric_Ok in Hmetric as [Hnew ->]. rewrite IH. split.
        -- intros (new & -> & Hall). eexists (_ :: new).
           rewrite <- app_assoc. split; [done|].
           constructor; [|done]. exists labelValues. auto.
        -- intros (new & -> & Hall).
           inversion Hall as [|? metric ? new' (ls & Hls & _ & ->) Hall']; subst.
           rewrite Hlabels in Hls. injection Hls as <-.
           exists new'. by rewrite <- app_assoc.
      * split; [done|]. intros (new & -> & Hall).
        inversion Hall as [|? metric ? new' (ls & Hls & Hnew & ->) Hall']; subst.
        rewrite Hlabels in Hls. injection Hls as <-.
        unfold NewConstMetric in Hmetric. by rewrite Hnew in Hmetric.
    + split; [done|]. intros (new & -> & Hall).
      inversion Hall as [|? metric ? new' (ls & Hls & _) Hall']; subst.
      rewrite Hlabels in Hls. discriminate.
Qed.

Lemma translated_is_Err d valueType desc_labels extra_labels values metrics :
  Exists (λ value, is_Err (buildOrderedLabels desc_labels [tr_Labels value; extra_labels]))
    values →
  is_Err (translated d valueType desc_labels extra_labels values metrics).
Proof.
  intros Hex. revert metrics. induction Hex as [value rest [err Herr]|value rest _ IH];
    intros metrics; simpl.
  - rewrite Herr. by eexists.
  - destruct (buildOrderedLabels desc_labels [tr_Labels value; extra_labels]);
      simpl; [|by eexists].
    destruct (NewConstMetric d valueType (tr_Value value) a); simpl; [|by eexists].
    apply IH.
Qed.

Lemma translated_is_Ok d valueType desc_labels extra_labels values metrics :
  Forall (λ value, is_Ok (buildOrderedLabels desc_labels [tr_Labels value; extra_labels]))
    values →
  (∀ labelValues, length labelValues = length desc_labels →
     prometheus_NewConstMetric_error d labelValues = None) →
  is_Ok (translated d valueType desc_labels extra_labels values metrics).
Proof.
  intros Hall Hnew. revert metrics. induction Hall as [|value rest [ls Hls] _ IH];
    intros metrics; simpl.
  - by eexists.
  - rewrite Hls. simpl. unfold NewConstMetric.
    rewrite Hnew by by eapply buildOrderedLabels_length. simpl. apply IH.
Qed.

(** The translator path of either [Parse], in one equation. *)
Lemma Parse_translated (a : MetricAttribute) extra_labels entry t :
  translator a = Some t →
  Parse a extra_labels entry =
    values ← do_the_translation_thing t (Values entry);
    call (translated (GetDesc a)
            match a with Counter _ => CounterValue | Gauge _ => GaugeValue end
            (labels a) extra_labels values []).
Proof.
  intros Ht. destruct a as [c|g]; simpl in *;
    [unfold CounterMetricAttribute_Parse | unfold GaugeMetricAttribute_Parse];
    by rewrite Ht.
Qed.

(** C2 (amended). With a translator, each declared label of each
    translation result is taken from the translation's own label map
    when that has it (also when the caller's labels have it too), and
    from the caller-supplied labels otherwise. A label found in
    neither makes [Parse] return an error; when every label is found
    in at least one of the two and the metrics can be built, [Parse]
    succeeds. *)
Theorem Parse_label_priority (a : MetricAttribute) (extra_labels : gmap string string)
    (entry : EntryAttribute) (t : template.Template) (rs : list translationResult) :
  translator a = Some t →
  do_the_translation_thing t (Values entry) = Returns (Ok rs) →
  (∀ metrics, Parse a extra_labels entry = Returns (Ok metrics) →
     Forall2 (λ r metric,
                desc metric = GetDesc a ∧ val metric = tr_Value r ∧
                Forall2 (λ label_name value,
                           tr_Labels r !! label_name = Some value ∨
                           (tr_Labels r !! label_name = None ∧
                            extra_labels !! label_name = Some value))
                  (labels a) (labelValues metric))
       rs metrics) ∧
  (Exists (λ r, Exists (λ label_name,
                          tr_Labels r !! label_name = None ∧
                          extra_labels !! label_name = None) (labels a)) rs →
   ∃ err, Parse a extra_labels entry = Returns (Err err)) ∧
  (Forall (λ r, Forall (λ label_name,
                          is_Some (tr_Labels r !! label_name) ∨
                          is_Some (extra_labels !! label_name)) (labels a)) rs →
   (∀ labelValues, length labelValues = length (labels a) →
      prometheus_NewConstMetric_error (GetDesc a) labelValues = None) →
   ∃ metrics, Parse a extra_labels entry = Returns (Ok metrics)).
Proof.
  intros Ht Hrs. rewrite (Parse_translated _ _ _ _ Ht), Hrs. simpl. unfold call.
  set (valueType := match a with Counter _ => CounterValue | Gauge _ => GaugeValue end).
  repeat split.
  - intros metrics [= Hok]. apply translated_Ok in Hok as (new & -> & Hall). simpl.
    eapply Forall2_impl; [exact Hall|].
    intros r metric (labelValues & Hlabels & _ & ->). simpl.
    split; [done|]. split; [done|].
    apply buildOrderedLabels_Ok in Hlabels.
    eapply Forall2_impl; [exact Hlabels|].
    intros label_name value Hfirst. cbv beta in Hfirst.
    rewrite first_source_two in Hfirst.
    destruct (tr_Labels r !! label_name); [by left | by right].
  - intros Hmissing.
    destruct (translated_is_Err (GetDesc a) valueType (labels a) extra_labels rs [])
      as [err Herr]; [|exists err; by rewrite <- Herr].
    eapply Exists_impl; [exact Hmissing|]. intros r Hr. cbv beta in Hr.
    apply buildOrderedLabels_Err. eapply Exists_impl; [exact Hr|].
    intros label_name [Hfirst Hsecond]. cbv beta.
    by rewrite first_source_two, Hfirst.
  - intros Hfound Hnew.
    destruct (translated_is_Ok (GetDesc a) valueType (labels a) extra_labels rs [])
      as [metrics Hok]; [|done|exists metrics; by rewrite <- Hok].
    eapply Forall_impl; [exact Hfound|]. intros r Hr. cbv beta in Hr.
    destruct (buildOrderedLabels (labels a) [tr_Labels r; extra_labels])
      as [ls|err] eqn:Hls; [by eexists|].
    exfalso.
    assert (is_Err (buildOrderedLabels (labels a) [tr_Labels r; extra_labels]))
      as Herr by by eexists.
    apply buildOrderedLabels_Err in Herr.
    apply Exists_exists in Herr as (label_name & Hin & Hnone).
    rewrite Forall_forall in Hr. specialize (Hr _ Hin).
    rewrite first_source_two in Hnone.
    destruct (tr_Labels r !! label_name), (extra_labels !! label_name);
      destruct Hr as [[? ?]|[? ?]]; congruence.
Qed.

(** C9. A gauge attribute without a translator builds its one sample
    with the counter value type, while every sample it builds on the
    translator path has the gauge value type. *)
Theorem gauge_sample_value_types (g : GaugeMetricAttribute)
    (extra_labels : gmap string string) (entry : EntryAttribute) :
  (g_translator g = None →
   ∀ metrics, Parse g extra_labels entry = Returns (Ok metrics) →
     ∃ metric, metrics = [metric] ∧ valType metric = CounterValue) ∧
  (∀ t, g_translator g = Some t →
   ∀ metrics, Parse g extra_labels entry = Returns (Ok metrics) →
     Forall (λ metric, valType metric = GaugeValue) metrics).
Proof.
  split.
  - intros Hnone metrics Hok.
    destruct (Parse_untranslated_Ok (Gauge g) extra_labels entry metrics Hnone Hok)
      as (value0 & x & ls & _ & _ & _ & ->).
    by eexists.
  - intros t Ht metrics Hok.
    pose proof (Parse_translated (Gauge g) extra_labels entry t Ht) as Heq.
    simpl in Heq. simpl in Hok. rewrite Heq in Hok.
    destruct (do_the_translation_thing t (Values entry)) as [[rs|err]|p];
      try discriminate.
    simpl in Hok. injection Hok as Hok.
    apply translated_Ok in Hok as (new & -> & Hall). simpl.
    clear -Hall. induction Hall as [|r metric rs new (ls & _ & _ & ->) Hall IH];
      by constructor.
Qed.

(** C10. With a translator, [Parse] panics with an index out of range
    exactly when the attribute has no value: the empty value list is
    not turned into an error, and a non-empty one never raises this
    panic. On a non-empty list [Parse] returns (a result or an error)
    unless the rendered text decodes to a list with a [nil] element. *)
Theorem Parse_needs_a_value (a : MetricAttribute) (extra_labels : gmap string string)
    (entry : EntryAttribute) (t : template.Template) :
  translator a = Some t →
  (Values entry = [] → Parse a extra_labels entry = Panics IndexOutOfRange) ∧
  (Values entry ≠ [] → Parse a extra_labels entry ≠ Panics IndexOutOfRange) ∧
  (Values entry ≠ [] →
   (∀ value0 buffer results,
      template_Execute template.MissingKeyError t
        (translation_input (Values entry) value0) = Ok buffer →
      yaml_Unmarshal_translationResults buffer = Ok results → None ∉ results) →
   ∃ r, Parse a extra_labels entry = Returns r).
Proof.
  intros Ht. rewrite (Parse_translated _ _ _ _ Ht). repeat split.
  - by intros ->.
  - intros Hne Hpanic.
    destruct (do_the_translation_thing t (Values entry)) as [[rs|err]|p] eqn:Hdo;
      simpl in Hpanic; try discriminate.
    injection Hpanic as ->.
    apply do_the_translation_thing_panic in Hdo as [[_ Hnil]|[[=] _]]. done.
  - intros Hne Hnonil.
    destruct (do_the_translation_thing t (Values entry)) as [[rs|err]|p] eqn:Hdo;
      simpl; [by eexists | by eexists |].
    exfalso.
    apply do_the_translation_thing_panic in Hdo
      as [[_ Hnil]|[_ (value0 & buffer & results & _ & Hexec & Hyaml & Hin)]];
      [done|].
    by eapply Hnonil.
Qed.

End translated.

(** ** Metrics sources *)

Section entries.
Context `{Library}.

Lemma size_map_img_le (m : gmap string string) :
  size (map_img m : gset string) ≤ size m.
Proof.
  induction m as [|k v m Hk _ IH] using map_first_key_ind.
  - by rewrite map_img_empty_L, size_empty, map_size_empty.
  - rewrite map_img_insert_notin_L, map_size_insert_None by done.
    rewrite size_union_alt, size_singleton.
    assert (size (map_img m ∖ {[v]} : gset string) ≤ size (map_img m : gset string))
      by (apply subseteq_size; set_solver).
    lia.
Qed.

(** The labels collected from an entry are images, under the label
    mapping, of attributes that the entry has. *)
Lemma collect_labels_dom (m : MetricsSource) attributes labels result :
  collect_labels m attributes labels = Ok result →
  dom result ⊆
    dom labels ∪
    map_img (filter (λ kv, kv.1 ∈ Name <$> attributes) (LabelAttributes m)).
Proof.
  revert labels. induction attributes as [|attribute rest IH]; intros labels; simpl.
  - intros [= <-]. set_solver.
  - assert (map_img (filter (λ kv, kv.1 ∈ Name <$> rest) (LabelAttributes m))
            ⊆@{gset string}
            map_img (filter (λ kv, kv.1 ∈ Name attribute :: (Name <$> rest))
                       (LabelAttributes m))) as Hmono.
    { apply map_subseteq_img, map_filter_subseteq_ext.
      intros k v _ Hin. simpl in *. by right. }
    destruct (LabelAttributes m !! Name attribute) as [remapped_label_name|] eqn:Hlabel.
    + destruct (Values attribute) as [|value0 [|? ?]]; try discriminate.
      intros Hok. apply IH in Hok. rewrite dom_insert in Hok.
      assert (remapped_label_name ∈@{gset string}
              map_img (filter (λ kv, kv.1 ∈ Name attribute :: (Name <$> rest))
                         (LabelAttributes m))).
      { apply elem_of_map_img. exists (Name attribute).
        apply map_lookup_filter_Some. split; [done|]. simpl. by left. }
      set_solver.
    + intros Hok. apply IH in Hok. set_solver.
Qed.

Lemma collect_labels_missing (m : MetricsSource) attributes result attr :
  is_Some (LabelAttributes m !! attr) →
  Forall (λ attribute, Name attribute ≠ attr) attributes →
  collect_labels m attributes ∅ = Ok result →
  size result < size (LabelAttributes m).
Proof.
  intros [label Hattr] Hmissing Hok. apply collect_labels_dom in Hok.
  rewrite dom_empty, (left_id _ _) in Hok.
  set (present := filter (λ kv, kv.1 ∈ Name <$> attributes) (LabelAttributes m)) in *.
  assert (present ⊆ delete attr (LabelAttributes m)) as Hsub.
  { apply map_subseteq_spec. intros k v [Hk Hin]%map_lookup_filter_Some.
    simpl in Hin. apply lookup_delete_Some. split; [|done].
    intros <-. apply list_elem_of_fmap in Hin as (attribute & Hname & Hin).
    rewrite Forall_forall in Hmissing. by apply (Hmissing attribute). }
  apply map_subseteq_size in Hsub.
  rewrite map_size_delete_Some in Hsub by eauto.
  apply subseteq_size in Hok. rewrite size_dom in Hok.
  pose proof (size_map_img_le present).
  assert (size (LabelAttributes m) ≠ 0).
  { apply map_size_non_empty_iff. intros Hempty. by rewrite Hempty in Hattr. }
  lia.
Qed.

Lemma collect_labels_multi (m : MetricsSource) attributes labels attr :
  is_Some (LabelAttributes m !! attr) →
  Exists (λ attribute, Name attribute = attr ∧ length (Values attribute) ≠ 1) attributes →
  is_Err (collect_labels m attributes labels).
Proof.
  intros [label Hattr] Hex. revert labels.
  induction Hex as [attribute rest [Hname Hlen]|attribute rest _ IH]; intros labels; simpl.
  - rewrite Hname, Hattr.
    destruct (Values attribute) as [|value0 [|? ?]]; try done; by eexists.
  - destruct (LabelAttributes m !! Name attribute); [|apply IH].
    destruct (Values attribute) as [|value0 [|? ?]]; try apply IH; by eexists.
Qed.

Lemma scrape_entries_app (m : MetricsSource) before after :
  scrape_entries m (before ++ after) =
    match scrape_entries m before with
    | (sent, Returns (Ok _)) =>
      let '(sent', r) := scrape_entries m after in (sent ++ sent', r)
    | (sent, r) => (sent, r)
    end.
Proof.
  induction before as [|e before IH]; simpl.
  - by destruct (scrape_entries m after).
  - destruct (scrape_entry m e) as [sent [[[]|err]|p]]; try done.
    rewrite IH.
    destruct (scrape_entries m before) as [sent' [[[]|err]|p]]; try done.
    destruct (scrape_entries m after) as [sent'' r]. by rewrite app_assoc.
Qed.

(** C4. An entry in which a declared label attribute is missing, or
    does not carry exactly one value, is rejected with an error
    before any of its samples is sent; within a search result, what
    has been sent when [scrapeMetrics] returns is what the entries
    before it sent, and the return is not a success. *)
Theorem incomplete_entry_is_rejected (m : MetricsSource) (e : Entry) (attr : string) :
  is_Some (LabelAttributes m !! attr) →
  Forall (λ attribute, Name attribute ≠ attr) (Attributes e) ∨
  Exists (λ attribute, Name attribute = attr ∧ length (Values attribute) ≠ 1)
    (Attributes e) →
  (∃ err, scrape_entry m e = ([], Returns (Err err))) ∧
  (∀ before after, ∃ r,
     scrapeMetrics m {| Entries := before ++ e :: after |} =
       ((scrapeMetrics m {| Entries := before |}).1, r) ∧
     ∀ u, r ≠ Returns (Ok u)).
Proof.
  intros Hattr Hbad.
  assert (∃ err, scrape_entry m e = ([], Returns (Err err))) as [err Herr].
  { unfold scrape_entry. destruct Hbad as [Hmissing|Hmulti].
    - destruct (collect_labels m (Attributes e) ∅) as [labels|err] eqn:Hlabels;
        [|by eexists].
      pose proof (collect_labels_missing _ _ _ _ Hattr Hmissing Hlabels).
      rewrite bool_decide_true by lia. by eexists.
    - destruct (collect_labels_multi m (Attributes e) ∅ attr Hattr Hmulti)
        as [err ->]. by eexists. }
  split; [by exists err|].
  intros before after. unfold scrapeMetrics. simpl.
  rewrite scrape_entries_app. simpl. rewrite Herr.
  destruct (scrape_entries m before) as [sent [[[]|err']|p]]; simpl.
  - eexists. split; [by rewrite app_nil_r|]. done.
  - eexists. split; [done|]. done.
  - eexists. split; [done|]. done.
Qed.

End entries.

(** ** The scrape cycle *)

Section cycle.
Context `{Library}.

Lemma failures_after_S k failures :
  failures_after k (failures + 1) = failures_after (S k) failures.
Proof. unfold failures_after. by rewrite Nat.iter_succ_r. Qed.

(** Up to a hundred failures, counting in [float64] is exact: the value
    of [failures] is the number of increments. *)
Lemma failures_after_count k :
  k ≤ 100 → failures_after k 0 = strconv.float64_of_uint64 (Z.of_nat k).
Proof.
  intros Hk. do 101 (destruct k as [|k]; [vm_compute; reflexivity|]). lia.
Qed.

Lemma scrape_sources_cons (conn : Conn) n source rest failures :
  scrape_sources conn n (source :: rest) failures =
    match scrape_source conn n source with
    | (sent, Panics p) => (sent, failures, Some p)
    | (sent, Returns r) =>
      let failures := match r with Err _ => (failures + 1)%float | Ok _ => failures end in
      let '(sent', failures, p) := scrape_sources conn (S n) rest failures in
      (sent ++ sent', failures, p)
    end.
Proof.
  unfold scrape_source. simpl.
  destruct (Search conn n (SearchRequest_ source)) as [result|err]; [done|].
  simpl. by destruct (scrape_sources conn (S n) rest (failures + 1)) as [[? ?] ?].
Qed.




End cycle.

(** ** Configuration: label names *)

Section label_names.
Context `{Library}.

Lemma trim_length width fuel (s : list N) :
  length (strings.trim width fuel s) ≤ length s.
Proof.
  revert s. induction fuel as [|fuel IH]; intros s; simpl; [done|].
  destruct (width s) as [|k]; [done|].
  etrans; [apply IH|]. rewrite length_drop. lia.
Qed.

(** The fuel that [TrimSpace] gives to [trim], the length of the text,
    is enough: what is left starts with no white space. *)
Lemma trim_complete width fuel (s : list N) :
  width [] = 0 → length s ≤ fuel → width (strings.trim width fuel s) = 0.
Proof.
  intros Hnil. revert s. induction fuel as [|fuel IH]; intros s Hfuel; simpl.
  - destruct s; [done|simpl in Hfuel; lia].
  - destruct (width s) as [|k] eqn:Hwidth; [done|].
    apply IH. rewrite length_drop. destruct s; simpl in *; lia.
Qed.

Lemma TrimSpace_complete (s : list N) :
  strings.trailing_space (rev (strings.TrimSpace s)) = 0.
Proof.
  unfold strings.TrimSpace. rewrite rev_involutive.
  apply trim_complete; [done|]. by rewrite length_rev.
Qed.

Lemma TrimSpace_length (s : list N) : length (strings.TrimSpace s) ≤ length s.
Proof.
  unfold strings.TrimSpace. rewrite length_rev.
  etrans; [apply trim_length|]. rewrite length_rev. apply trim_length.
Qed.

Lemma trim_shorter width fuel (s : list N) :
  width s ≠ 0 → fuel ≠ 0 → s ≠ [] → length (strings.trim width fuel s) < length s.
Proof.
  intros Hwidth Hfuel Hs. destruct fuel as [|fuel]; [done|]. simpl.
  destruct (width s) as [|k]; [done|].
  eapply Nat.le_lt_trans; [apply trim_length|]. rewrite length_drop.
  destruct s; simpl in *; [done|lia].
Qed.

(** A label that starts with white space is shortened by
    [strings.TrimSpace]. *)
Lemma TrimSpace_leading (s : list N) :
  strings.leading_space s ≠ 0 → length (strings.TrimSpace s) < length s.
Proof.
  intros Hspace. unfold strings.TrimSpace. rewrite length_rev.
  eapply Nat.le_lt_trans; [apply trim_length|]. rewrite length_rev.
  apply trim_shorter; [done| |]; by destruct s.
Qed.

Lemma check_labels_Ok idx (labels : list string) :
  check_labels idx labels = Ok tt ↔ Forall (λ label, trimmed_shorter label = false) labels.
Proof.
  revert idx. induction labels as [|label rest IH]; intros idx; simpl.
  - split; [constructor|done].
  - destruct (trimmed_shorter label) eqn:Htrim.
    + split; [done|]. intros Hall. inversion Hall. congruence.
    + rewrite IH. split; [by constructor|]. intros Hall. by inversion Hall.
Qed.

(** What the hook of a metric attribute accepts: a recognised schema,
    a translator that parses, a type, and labels that
    [strings.TrimSpace] leaves as long as they are. *)
Lemma metricAttributeConfig_UnmarshalYAML_Ok (doc : metricAttributeConfig_doc) :
  doc_translator doc = None → doc_metric_X doc = ∅ → doc_type doc ≠ "" →
  Forall (λ label, trimmed_shorter label = false) (doc_metric_labels doc) →
  metricAttributeConfig_UnmarshalYAML doc =
    Ok {| mac_Name := doc_metric_name doc;
          mac_Type := doc_type doc;
          mac_Labels := doc_metric_labels doc;
          mac_Translator := {| template_ := None |};
          mac_Help := doc_help doc;
          mac_X := doc_metric_X doc |}.
Proof.
  intros Htranslator HX Htype Hlabels. unfold metricAttributeConfig_UnmarshalYAML.
  rewrite Htranslator. simpl.
  rewrite (proj2 (checkOverflow_Ok _ _) HX). simpl.
  rewrite bool_decide_false by done.
  by rewrite (proj2 (check_labels_Ok _ _) Hlabels).
Qed.

Lemma metricAttributeConfig_UnmarshalYAML_padded (doc : metricAttributeConfig_doc) :
  Exists (λ label, trimmed_shorter label = true) (doc_metric_labels doc) →
  is_Err (metricAttributeConfig_UnmarshalYAML doc).
Proof.
  intros Hpadded. unfold metricAttributeConfig_UnmarshalYAML.
  destruct (optional templateString_UnmarshalYAML (doc_translator doc));
    simpl; [|by eexists].
  destruct (checkOverflow _ _); simpl; [|by eexists].
  case_bool_decide; [by eexists|].
  destruct (check_labels 0 (doc_metric_labels doc)) as [[]|err] eqn:Hcheck;
    [|by eexists].
  apply check_labels_Ok in Hcheck. exfalso.
  apply Exists_exists in Hpadded as (label & Hin & Htrue).
  rewrite Forall_forall in Hcheck. specialize (Hcheck _ Hin). congruence.
Qed.

End label_names.

(** ** Configuration: loading *)

Section loading.
Context `{Library}.

Lemma range_permutation {V} (order : range_order) site (m : gmap string V) :
  range_order_valid order → range order site m ≡ₚ map_to_list m.
Proof. intros Hvalid. apply Hvalid. Qed.

Lemma createMetricAttribute_make s a attribute :
  createMetricAttribute s a attribute =
    ma ← make_attribute s a attribute;
    mret (set_metricAttributes s (<[attribute := ma]> (msc_metricAttributes s))).
Proof.
  unfold createMetricAttribute, make_attribute. cbv zeta.
  destruct (bool_decide (mac_Type a = "counter"));
    [|destruct (bool_decide (mac_Type a = "gauge"))]; try done;
    by destruct (setName s a attribute _) as [[name|err]|p].
Qed.

Lemma setName_returns s a attribute t tmpl :
  template_ t = Some tmpl → ∃ r, setName s a attribute (Some t) = Returns r.
Proof.
  intros Ht. unfold setName. case_bool_decide; simpl; [|by eexists].
  rewrite Ht. simpl. destruct (template_Execute _ _ _); simpl; by eexists.
Qed.

Lemma make_attribute_returns s a attribute :
  names_ready s → ∃ r, make_attribute s a attribute = Returns r.
Proof.
  intros [(tc & tmplc & Hc & Htc) (tg & tmplg & Hg & Htg)]. unfold make_attribute.
  cbv zeta.
  destruct (bool_decide (mac_Type a = "counter"));
    [|destruct (bool_decide (mac_Type a = "gauge"))].
  - rewrite Hc. destruct (setName_returns s a attribute tc tmplc Htc) as [[name|err] ->];
      by eexists.
  - rewrite Hg. destruct (setName_returns s a attribute tg tmplg Htg) as [[name|err] ->];
      by eexists.
  - by eexists.
Qed.

Lemma create_metric_attributes_returns s entries :
  names_ready s → ∃ r, create_metric_attributes s entries = Returns r.
Proof.
  revert s. induction entries as [|[attr metric_config] rest IH]; intros s Hready; simpl.
  - by eexists.
  - destruct (checkOverflow _ _); simpl; [|by eexists].
    rewrite createMetricAttribute_make.
    destruct (make_attribute_returns s metric_config attr Hready) as [[ma|err] ->];
      simpl; [|by eexists].
    by apply IH.
Qed.

Lemma optional_template_ready (text : option string) (t : option templateString)
    (fallback : templateString) :
  optional templateString_UnmarshalYAML text = Ok t →
  is_Some (template_ fallback) →
  ∃ tmpl, template_ (default fallback t) = Some tmpl.
Proof.
  intros Hok [tmpl Hfallback]. destruct text as [text|]; simpl in Hok.
  - unfold templateString_UnmarshalYAML in Hok.
    destruct (template_Parse _); simpl in Hok; [done|].
    injection Hok as <-. by eexists.
  - injection Hok as <-. by eexists.
Qed.

(** What decoding the fields leaves in the struct. *)
Lemma metricSourceConfig_plain_Ok doc s :
  metricSourceConfig_plain doc = Ok s →
  ac_Labels (msc_Attributes s) = doc_attr_labels (doc_attributes doc) ∧
  msc_labelsFromAttributes s = [] ∧
  (∃ tmpl, template_ (default defaultCounterNameTemplate (msc_CounterNameTemplate s))
             = Some tmpl) ∧
  (∃ tmpl, template_ (default defaultmetricNameTemplate (msc_GaugeNameTemplate s))
             = Some tmpl).
Proof.
  unfold metricSourceConfig_plain. intros Hok.
  destruct (optional dnString_UnmarshalYAML _) as [search|]; [|done].
  destruct (optional filterString_UnmarshalYAML _) as [filter|]; [|done].
  destruct (optional scopeChoice_UnmarshalYAML _) as [scope|]; [|done].
  destruct (optional derefChoice_UnmarshalYAML _) as [deref|]; [|done].
  destruct (optional templateString_UnmarshalYAML (doc_counter_metric_name_template doc))
    as [counterName|] eqn:Hcounter; [|done].
  destruct (optional templateString_UnmarshalYAML (doc_gauge_metric_name_template doc))
    as [gaugeName|] eqn:Hgauge; [|done].
  simpl in Hok. unfold attributeConfig_UnmarshalYAML in Hok.
  destruct (decode_map _ _) as [metrics|]; [|done]. simpl in Hok.
  destruct (checkOverflow _ _); [|done]. simpl in Hok.
  injection Hok as <-. simpl. repeat split.
  - by eapply optional_template_ready.
  - by eapply optional_template_ready.
Qed.

Lemma metricSourceConfig_UnmarshalYAML_returns order section doc :
  ∃ r, metricSourceConfig_UnmarshalYAML order section doc = Returns r.
Proof.
  unfold metricSourceConfig_UnmarshalYAML.
  destruct (metricSourceConfig_plain doc) as [s|err] eqn:Hplain; simpl; [|by eexists].
  apply metricSourceConfig_plain_Ok in Hplain as (_ & _ & [tc Htc] & [tg Htg]).
  destruct (checkOverflow _ _); simpl; [|by eexists].
  destruct (msc_Search s); [|by eexists].
  destruct (check_constant_labels _); simpl; [|by eexists].
  destruct (collect_label_names _ _); simpl; [|by eexists].
  apply create_metric_attributes_returns. split; simpl; eauto.
Qed.

Lemma decode_sections_Err order n docs :
  Exists (λ doc, ∀ section,
            ∃ err, metricSourceConfig_UnmarshalYAML order section doc = Returns (Err err))
    docs →
  ∃ err, decode_sections order n docs = Returns (Err err).
Proof.
  intros Hex. revert n. induction Hex as [doc rest Hdoc|doc rest _ IH]; intros n; simpl.
  - destruct (Hdoc n) as [err ->]. by eexists.
  - destruct (metricSourceConfig_UnmarshalYAML_returns order n doc) as [[s|err] ->];
      simpl; [|by eexists].
    destruct (IH (S n)) as [err ->]. by eexists.
Qed.

(** *** Label-name collisions *)

Lemma collect_label_names_Ok (entries : list (string * string)) acc r :
  collect_label_names entries acc = Ok r ↔
  r = acc ++ entries.*2 ∧ NoDup entries.*2 ∧ ∀ x, x ∈ entries.*2 → x ∉ acc.
Proof.
  revert acc. induction entries as [|[src final_name] rest IH]; intros acc; simpl.
  - rewrite app_nil_r. split.
    + intros [= <-]. split; [done|]. split; [constructor|]. intros x Hx. inversion Hx.
    + by intros [-> _].
  - case_bool_decide as Hin.
    + split; [done|]. intros (_ & _ & Hfresh). exfalso.
      apply (Hfresh final_name); [by left|done].
    + rewrite IH, <- app_assoc. simpl. split.
      * intros (-> & Hnodup & Hfresh). split; [done|]. split.
        -- constructor; [|done]. intros Hdup. apply (Hfresh _ Hdup). set_solver.
        -- intros x [->|Hx]%elem_of_cons; [done|].
           intros Hacc. apply (Hfresh _ Hx). set_solver.
      * intros (-> & Hnodup & Hfresh). apply NoDup_cons in Hnodup as [Hnotin Hnodup].
        split; [done|]. split; [done|].
        intros x Hx [Hacc|Hfinal]%elem_of_app.
        -- apply (Hfresh x); [by right|done].
        -- apply list_elem_of_singleton in Hfinal as ->. done.
Qed.

Lemma NoDup_fmap_same {A B} (f : A → B) (l : list A) x y :
  NoDup (f <$> l) → x ∈ l → y ∈ l → f x = f y → x = y.
Proof.
  induction l as [|z l IH]; simpl; [by intros _ ?%elem_of_nil|].
  intros [Hz Hnodup]%NoDup_cons [->|Hx]%elem_of_cons [->|Hy]%elem_of_cons Heq.
  - done.
  - exfalso. apply Hz. rewrite Heq. by apply list_elem_of_fmap_2.
  - exfalso. apply Hz. rewrite <- Heq. by apply list_elem_of_fmap_2.
  - by apply IH.
Qed.

Lemma colliding_labels_not_NoDup (m : gmap string string) a b l :
  a ≠ b → m !! a = Some l → m !! b = Some l → ¬ NoDup (map_to_list m).*2.
Proof.
  intros Hne Ha Hb Hnodup. apply elem_of_map_to_list in Ha, Hb.
  pose proof (NoDup_fmap_same snd _ _ _ Hnodup Ha Hb eq_refl) as [= ?]. done.
Qed.

Lemma colliding_labels_fail order section doc a b l :
  range_order_valid order → a ≠ b →
  doc_attr_labels (doc_attributes doc) !! a = Some l →
  doc_attr_labels (doc_attributes doc) !! b = Some l →
  ∃ err, metricSourceConfig_UnmarshalYAML order section doc = Returns (Err err).
Proof.
  intros Hvalid Hne Ha Hb. unfold metricSourceConfig_UnmarshalYAML.
  destruct (metricSourceConfig_plain doc) as [s|err] eqn:Hplain; simpl; [|by eexists].
  apply metricSourceConfig_plain_Ok in Hplain as (Hlabels & Hnil & _).
  destruct (checkOverflow _ _); simpl; [|by eexists].
  destruct (msc_Search s); [|by eexists].
  destruct (check_constant_labels _); simpl; [|by eexists].
  rewrite Hlabels, Hnil.
  destruct (collect_label_names _ _) as [names|err] eqn:Hnames; simpl; [|by eexists].
  exfalso. apply collect_label_names_Ok in Hnames as (_ & Hnodup & _).
  eapply colliding_labels_not_NoDup; [exact Hne|exact Ha|exact Hb|].
  rewrite <- (range_permutation order (RangeAttributeLabels section) _ Hvalid).
  exact Hnodup.
Qed.

(** C7. If two attributes of one source are mapped to the same label
    name, loading the configuration fails with an error, in whatever
    order the maps are visited. *)
Theorem colliding_label_names_fail (order : range_order) (data : string)
    (docs : list metricSourceConfig_doc) (doc : metricSourceConfig_doc)
    (a b l : string) :
  range_order_valid order →
  yaml_Unmarshal_document data = Ok docs →
  doc ∈ docs →
  a ≠ b →
  doc_attr_labels (doc_attributes doc) !! a = Some l →
  doc_attr_labels (doc_attributes doc) !! b = Some l →
  ∃ err, LoadConfig order data = Returns (Err err).
Proof.
  intros Hvalid Hdocs Hdoc Hne Ha Hb. unfold LoadConfig. rewrite Hdocs.
  destruct (decode_sections_Err order 0 docs) as [err ->]; [|by eexists].
  apply Exists_exists. exists doc. split; [done|].
  intros section. by eapply colliding_labels_fail.
Qed.

End loading.


(** ** Configuration: two loads of one document *)

Section reloading.
Context `{Library}.

Lemma check_constant_labels_Ok (entries : list (string * string)) :
  check_constant_labels entries = Ok tt ↔
  Forall (λ entry, trimmed_shorter entry.2 = false) entries.
Proof.
  induction entries as [|[key value] rest IH]; simpl.
  - split; [constructor|done].
  - destruct (trimmed_shorter value) eqn:Htrim.
    + split; [done|]. intros Hall. inversion Hall. simpl in *. congruence.
    + rewrite IH. split; [by constructor|]. intros Hall. by inversion Hall.
Qed.



Lemma set_metricAttributes_eta s : s = set_metricAttributes s (msc_metricAttributes s).
Proof. by destruct s. Qed.

(** What the loop that creates the metric attributes leaves behind. *)
Lemma create_metric_attributes_Ok s entries r :
  create_metric_attributes s entries = Returns (Ok r) →
  Forall (λ entry, checkOverflow (mac_X entry.2) ("attribute " +:+ entry.1) = Ok tt ∧
                   ∃ ma, make_attribute s entry.2 entry.1 = Returns (Ok ma)) entries ∧
  r = set_metricAttributes s (msc_metricAttributes r) ∧
  (NoDup entries.*1 →
   ∀ attr,
     (∀ cfg, (attr, cfg) ∈ entries →
        ∃ ma, make_attribute s cfg attr = Returns (Ok ma) ∧
              msc_metricAttributes r !! attr = Some ma) ∧
     (attr ∉ entries.*1 → msc_metricAttributes r !! attr = msc_metricAttributes s !! attr)).
Proof.
  revert s. induction entries as [|[a cfg0] rest IH]; intros s; simpl.
  - intros [= <-]. split; [constructor|]. split; [apply set_metricAttributes_eta|].
    intros _ attr. split; [by intros cfg ?%elem_of_nil|done].
  - destruct (checkOverflow (mac_X cfg0) ("attribute " +:+ a)) as [[]|err] eqn:Hflow;
      simpl; [|done].
    rewrite createMetricAttribute_make.
    destruct (make_attribute s cfg0 a) as [[ma0|err]|p] eqn:Hmake; simpl; try done.
    intros Hrest. apply IH in Hrest as (Hall & Hr & Hlookup).
    split; [|split].
    + constructor; [by eauto|]. exact Hall.
    + exact Hr.
    + intros [Ha Hnodup]%NoDup_cons attr. destruct (Hlookup Hnodup attr) as [Hin Hout].
      simpl in Hout. split.
      * intros cfg [[= -> ->]|Hcfg]%elem_of_cons.
        -- exists ma0. split; [done|]. rewrite Hout by done. apply lookup_insert_eq.
        -- apply Hin in Hcfg as (ma & Hma & Hr'). by exists ma.
      * intros Hattr. apply not_elem_of_cons in Hattr as [Hne Hattr].
        rewrite Hout by done. by apply lookup_insert_ne.
Qed.







End reloading.

(** * The properties on concrete inputs *)

Section runs.
Import scenario.
#[local] Existing Instance small.library.

Lemma listed_valid : range_order_valid listed.
Proof. by intros A site l. Qed.

Lemma backwards_valid : range_order_valid backwards.
Proof. intros A site l. apply reverse_Permutation. Qed.

(** C1 on a gauge with the value 3.5, and on a counter with the value 7,
    with a value that is no number, and with two values. *)
Lemma Parse_without_translator_runs :
  (translator (Counter logins) = None ∧ translator (Gauge load) = None) ∧
  Parse (Gauge load) ∅ (attribute "load" ["3.5"]) =
    Returns (Ok [{| desc := g_Desc load; valType := CounterValue; val := 3.5%float;
                    labelValues := [] |}]) ∧
  Parse (Counter logins) ∅ (attribute "loginCount" ["7"]) =
    Returns (Ok [{| desc := c_Desc logins; valType := CounterValue; val := 7%float;
                    labelValues := [] |}]) ∧
  (∃ err, Parse (Counter logins) ∅ (attribute "loginCount" ["abc"]) = Returns (Err err)) ∧
  Parse (Counter logins) ∅ (attribute "loginCount" ["7"; "8"]) =
    Returns (Err (ErrNoTranslator "loginCount" 2)).
Proof.
  split; [by split|].
  destruct (Parse_without_translator (Gauge load) ∅ (attribute "load" ["3.5"]) eq_refl)
    as (_ & Hgauge & _ & _).
  destruct (Parse_without_translator (Counter logins) ∅ (attribute "loginCount" ["7"])
              eq_refl) as (_ & Hcounter & _ & _).
  destruct (Parse_without_translator (Counter logins) ∅ (attribute "loginCount" ["abc"])
              eq_refl) as (_ & _ & _ & Hsyntax).
  destruct (Parse_without_translator (Counter logins) ∅
              (attribute "loginCount" ["7"; "8"]) eq_refl) as (_ & _ & Hcount & _).
  split; [|split; [|split]].
  - apply (Hgauge "3.5"); [reflexivity | vm_compute; reflexivity | reflexivity..].
  - apply (Hcounter "7"); [reflexivity | vm_compute; reflexivity | reflexivity..].
  - apply (Hsyntax "abc"); [reflexivity|]. by eexists.
  - apply Hcount. simpl. lia.
Defined.


(** C2 as stated fails: the label [status] is in the translation's
    label map and in the caller's labels, and [Parse] succeeds, with the
    translation's values. *)
Lemma label_in_both_sources_is_accepted :
  do_the_translation_thing by_status ["2"] = Returns (Ok [row 2 "ok"; row 5 "fail"]) ∧
  tr_Labels (row 2 "ok") !! "status" = Some "ok" ∧
  tr_Labels (row 5 "fail") !! "status" = Some "fail" ∧
  caller_labels !! "status" = Some "unknown" ∧
  Parse (Counter requests) caller_labels (attribute "requests" ["2"]) =
    Returns (Ok [{| desc := c_Desc requests; valType := CounterValue; val := 2%float;
                    labelValues := ["ok"; "a"] |};
                 {| desc := c_Desc requests; valType := CounterValue; val := 5%float;
                    labelValues := ["fail"; "a"] |}]).
Proof. repeat split; vm_compute; reflexivity. Qed.

(** C2 (amended) on the same attribute: [status] comes from the
    translation, [host] from the caller; without the caller's labels
    [host] is found nowhere and [Parse] fails. *)
Lemma Parse_label_priority_runs :
  (translator (Counter requests) = Some by_status ∧
   do_the_translation_thing by_status (Values (attribute "requests" ["2"])) =
     Returns (Ok [row 2 "ok"; row 5 "fail"])) ∧
  (∃ metrics,
     Parse (Counter requests) caller_labels (attribute "requests" ["2"]) =
       Returns (Ok metrics)) ∧
  (∃ err, Parse (Counter requests) ∅ (attribute "requests" ["2"]) = Returns (Err err)).
Proof.
  assert (do_the_translation_thing by_status (Values (attribute "requests" ["2"])) =
            Returns (Ok [row 2 "ok"; row 5 "fail"])) as Hrows
    by (vm_compute; reflexivity).
  split; [by split|].
  destruct (Parse_label_priority (Counter requests) caller_labels
              (attribute "requests" ["2"]) by_status _ eq_refl Hrows) as (_ & _ & Hfound).
  destruct (Parse_label_priority (Counter requests) ∅
              (attribute "requests" ["2"]) by_status _ eq_refl Hrows) as (_ & Hmissing & _).
  split.
  - apply Hfound.
    + simpl.
      apply Forall_cons; split; [|apply Forall_cons; split; [|by apply Forall_nil]];
        (apply Forall_cons; split;
         [left; by eexists
         |apply Forall_cons; split; [right; by eexists | by apply Forall_nil]]).
    + intros labelValues Hlen. simpl in *. unfold small.NewConstMetric_error.
      simpl. by rewrite bool_decide_false by lia.
  - apply Hmissing. apply Exists_cons_hd, Exists_cons_tl, Exists_cons_hd. by split.
Defined.

(** C9 on a gauge without and with a translator. *)
Lemma gauge_sample_value_types_runs :
  (∃ metric, Parse load ∅ (attribute "load" ["3.5"]) = Returns (Ok [metric]) ∧
             valType metric = CounterValue) ∧
  (∃ metrics, Parse connections caller_labels (attribute "connections" ["2"]) =
                Returns (Ok metrics) ∧
              length metrics = 2 ∧
              Forall (λ metric, valType metric = GaugeValue) metrics).
Proof.
  destruct (gauge_sample_value_types load ∅ (attribute "load" ["3.5"])) as (Hplain & _).
  destruct (gauge_sample_value_types connections caller_labels
              (attribute "connections" ["2"])) as (_ & Htranslated).
  split.
  - destruct (Hplain eq_refl _ ltac:(vm_compute; reflexivity)) as (metric & Heq & Htype).
    exists metric. split; [|done]. rewrite <- Heq. vm_compute; reflexivity.
  - eexists. split; [vm_compute; reflexivity|]. split; [reflexivity|].
    eapply (Htranslated by_status eq_refl). vm_compute; reflexivity.
Defined.

(** C10 on an attribute that came back without a value, and with one. *)
Lemma Parse_needs_a_value_runs :
  translator (Counter requests) = Some by_status ∧
  Parse (Counter requests) caller_labels (attribute "requests" []) = Panics IndexOutOfRange ∧
  Parse (Counter requests) caller_labels (attribute "requests" ["2"]) ≠ Panics IndexOutOfRange.
Proof.
  split; [done|].
  destruct (Parse_needs_a_value (Counter requests) caller_labels (attribute "requests" [])
              by_status eq_refl) as (Hempty & _).
  destruct (Parse_needs_a_value (Counter requests) caller_labels (attribute "requests" ["2"])
              by_status eq_refl) as (_ & Hvalue & _).
  split; [by apply Hempty | by apply Hvalue].
Defined.

(** C4 on an entry without the label attribute [cn] and on one where it
    has two values, each between two complete entries: only the first
    complete entry's sample is sent. *)
Lemma incomplete_entry_is_rejected_runs :
  (is_Some (LabelAttributes users !! "cn") ∧
   Forall (λ a, Name a ≠ "cn") (Attributes nameless) ∧
   Exists (λ a, Name a = "cn" ∧ length (Values a) ≠ 1) (Attributes two_names)) ∧
  (∃ err, scrape_entry users nameless = ([], Returns (Err err))) ∧
  (∃ err, scrape_entry users two_names = ([], Returns (Err err))) ∧
  scrape_entry users alice = ([alice_logins], Returns (Ok tt)) ∧
  (∃ r, scrapeMetrics users {| Entries := [alice] ++ nameless :: [alice] |} =
          ([alice_logins], r) ∧ ∀ u, r ≠ Returns (Ok u)).
Proof.
  assert (is_Some (LabelAttributes users !! "cn")) as Hlabel by by eexists.
  assert (Forall (λ a, Name a ≠ "cn") (Attributes nameless)) as Hmissing
    by by repeat constructor.
  assert (Exists (λ a, Name a = "cn" ∧ length (Values a) ≠ 1) (Attributes two_names))
    as Hmulti by (apply Exists_cons_tl, Exists_cons_hd; split; [done|simpl; lia]).
  split; [done|].
  destruct (incomplete_entry_is_rejected users nameless "cn" Hlabel (or_introl Hmissing))
    as (Hnameless & Hresult).
  destruct (incomplete_entry_is_rejected users two_names "cn" Hlabel (or_intror Hmulti))
    as (Htwo & _).
  split; [done|]. split; [done|]. split; [vm_compute; reflexivity|].
  destruct (Hresult [alice] [alice]) as (r & Hr & Hfail).
  exists r. split; [|done]. rewrite Hr. f_equal; vm_compute; reflexivity.
Defined.


(** C7 on a document that maps [cn] and [uid] to the label [user]. *)
Lemma colliding_label_names_fail_runs :
  (range_order_valid listed ∧
   yaml_Unmarshal_document small.clash_text = Ok small.clash_doc) ∧
  ∃ err, LoadConfig listed small.clash_text = Returns (Err err).
Proof.
  assert (yaml_Unmarshal_document small.clash_text = Ok small.clash_doc) as Hload
    by (vm_compute; reflexivity).
  split; [split; [exact listed_valid | exact Hload]|].
  apply (colliding_label_names_fail listed small.clash_text small.clash_doc
           small.clash_section "cn" "uid" "user" listed_valid Hload).
  - by left.
  - done.
  - vm_compute; reflexivity.
  - vm_compute; reflexivity.
Defined.

Example colliding_label_names_error :
  LoadConfig listed small.clash_text = Returns (Err (ErrDuplicateLabel "uid" "user")).
Proof. vm_compute; reflexivity. Qed.

(** The end-to-end example of the specification: the users document
    loads to one source, which turns alice's entry into one counter
    sample [ldap_logins] with the label [user=alice] and the value 4. *)
Example users_end_to_end :
  LoadConfig listed small.users_text = Returns (Ok [users]) ∧
  scrapeMetrics users {| Entries := [alice] |} =
    ([{| desc := NewDesc "ldap_logins" "No help provided" ["user"] ∅;
         valType := CounterValue; val := 4%float; labelValues := ["alice"] |}],
     Returns (Ok tt)).
Proof. split; vm_compute; reflexivity. Qed.

(** C6 fails on the code for the empty label name. The check
    [len(strings.TrimSpace(label)) != len(label)], whose error message
    reads "cannot have whitespace and must be nonempty", lets the empty
    string through: the hook of the metric attribute accepts the label
    list [[""]], and the document loads, with the empty string as the
    variable label of the metric. A label with surrounding white space
    is refused. *)
Theorem empty_label_is_accepted :
  trimmed_shorter "" = false ∧
  metricAttributeConfig_UnmarshalYAML (small.metric_doc "logins" "counter" [""] None "") =
    Ok {| mac_Name := "logins"; mac_Type := "counter"; mac_Labels := [""];
          mac_Translator := {| template_ := None |}; mac_Help := ""; mac_X := ∅ |} ∧
  LoadConfig listed small.empty_label_text =
    Returns (Ok [{| SearchRequest_ :=
                      NewSearchRequest "ou=people,dc=example,dc=com" ScopeBaseObject
                        DerefAlways 0 0 false "(objectClass=*)" ["loginCount"];
                    MetricAttributes :=
                      {["loginCount" :=
                          Counter (NewCounterMetricAttribute "ldap_logins" [""] ∅ None
                                     "No help provided")]};
                    LabelAttributes := ∅ |}]) ∧
  LoadConfig listed small.padded_label_text =
    Returns (Err (ErrLabelWhitespace 0 " kind")).
Proof. repeat split; vm_compute; reflexivity. Qed.



End runs.

(** * Further properties *)

(** ** Label resolution over any number of sources *)

Section label_sources.

Lemma first_source_Some (label_name : string) label_sources value :
  first_source label_name label_sources = Some value ↔
  ∃ k source,
    label_sources !! k = Some source ∧ source !! label_name = Some value ∧
    ∀ j earlier, j < k → label_sources !! j = Some earlier → earlier !! label_name = None.
Proof.
  induction label_sources as [|source rest IH]; simpl.
  - split; [done|]. by intros (k & source & ? & _).
  - destruct (source !! label_name) as [v|] eqn:Hsource.
    + split.
      * intros [= <-]. exists 0, source. repeat split; [done..|]. intros j ? Hj. lia.
      * intros (k & source' & Hk & Hvalue & Hearlier). destruct k as [|k].
        -- simpl in Hk. injection Hk as <-. congruence.
        -- specialize (Hearlier 0 source). rewrite Hearlier in Hsource; [done|lia|done].
    + rewrite IH. split.
      * intros (k & source' & Hk & Hvalue & Hearlier). exists (S k), source'.
        repeat split; [done..|]. intros [|j] earlier Hj Hlookup; simpl in *.
        -- by injection Hlookup as <-.
        -- apply (Hearlier j); [lia|done].
      * intros (k & source' & Hk & Hvalue & Hearlier). destruct k as [|k]; simpl in *.
        -- injection Hk as <-. congruence.
        -- exists k, source'. repeat split; [done..|]. intros j earlier Hj Hlookup.
           apply (Hearlier (S j)); [lia|done].
Qed.

Lemma first_source_None (label_name : string) label_sources :
  first_source label_name label_sources = None ↔
  Forall (λ source : gmap string string, source !! label_name = None) label_sources.
Proof.
  induction label_sources as [|source rest IH]; simpl.
  - split; [constructor|done].
  - destruct (source !! label_name) as [v|] eqn:Hsource.
    + split; [done|]. intros Hall. apply Forall_cons in Hall as [Hhead _]. congruence.
    + rewrite IH. split; [by constructor|]. by intros [_ ?]%Forall_cons.
Qed.

Lemma buildOrderedLabels_first_missing (desc_labels : list string) label_sources err :
  buildOrderedLabels desc_labels label_sources = Err err →
  ∃ i label_name,
    desc_labels !! i = Some label_name ∧
    err = ErrLabelNotFound label_name label_sources ∧
    first_source label_name label_sources = None ∧
    ∀ j earlier, j < i → desc_labels !! j = Some earlier →
      is_Some (first_source earlier label_sources).
Proof.
  induction desc_labels as [|label_name rest IH]; simpl; [done|].
  destruct (first_source label_name label_sources) as [value|] eqn:Hfirst.
  - destruct (buildOrderedLabels rest label_sources) as [tail|err'] eqn:Hrest; [done|].
    simpl. intros [= <-]. destruct (IH eq_refl) as (i & l & Hi & Herr & Hnone & Hearlier).
    exists (S i), l. repeat split; [done..|].
    intros [|j] earlier Hj Hlookup; simpl in *.
    + injection Hlookup as <-. by eexists.
    + apply (Hearlier j); [lia|done].
  - intros [= <-]. exists 0, label_name. repeat split; [done..|]. intros j ? Hj. lia.
Qed.

(** X1. [buildOrderedLabels] over any number of label sources: on
    success there is one value for each declared label, in the order of
    the declaration, and the value of a label is the one in the first
    source, in argument order, that has the label; the call fails when
    a declared label is in no source, and the error names the first
    such label. *)
Theorem buildOrderedLabels_resolves (desc_labels : list string)
    (label_sources : list (gmap string string)) :
  match buildOrderedLabels desc_labels label_sources with
  | Ok results =>
    length results = length desc_labels ∧
    ∀ i label_name, desc_labels !! i = Some label_name →
      ∃ k source value,
        results !! i = Some value ∧
        label_sources !! k = Some source ∧ source !! label_name = Some value ∧
        ∀ j earlier, j < k → label_sources !! j = Some earlier →
          earlier !! label_name = None
  | Err err =>
    ∃ i label_name,
      desc_labels !! i = Some label_name ∧
      err = ErrLabelNotFound label_name label_sources ∧
      Forall (λ source : gmap string string, source !! label_name = None) label_sources ∧
      ∀ j earlier, j < i → desc_labels !! j = Some earlier →
        Exists (λ source : gmap string string, is_Some (source !! earlier)) label_sources
  end.
Proof.
  destruct (buildOrderedLabels desc_labels label_sources) as [results|err] eqn:Hbuild.
  - pose proof (buildOrderedLabels_length _ _ _ Hbuild) as Hlength.
    split; [done|]. apply buildOrderedLabels_Ok in Hbuild.
    intros i label_name Hi.
    destruct (Forall2_lookup_l _ _ _ _ _ Hbuild Hi) as (value & Hvalue & Hfirst).
    apply first_source_Some in Hfirst as (k & source & Hk & Hsource & Hearlier).
    by exists k, source, value.
  - apply buildOrderedLabels_first_missing in Hbuild
      as (i & label_name & Hi & Herr & Hnone & Hearlier).
    exists i, label_name. repeat split; [done..|by apply first_source_None|].
    intros j earlier Hj Hlookup.
    destruct (Hearlier j earlier Hj Hlookup) as [value Hvalue].
    apply first_source_Some in Hvalue as (k & source & Hk & Hsource & _).
    apply Exists_exists. exists source. split; [by eapply list_elem_of_lookup_2|by eexists].
Qed.

End label_sources.

(** ** The label check of an entry *)

Section label_check.
Context `{Library}.

Lemma collect_labels_keeps (m : MetricsSource) attributes labels result :
  collect_labels m attributes labels = Ok result →
  ∀ l, is_Some (labels !! l) → is_Some (result !! l).
Proof.
  revert labels. induction attributes as [|attribute rest IH]; intros labels; simpl.
  - by intros [= <-].
  - destruct (LabelAttributes m !! Name attribute) as [remapped|]; [|apply IH].
    destruct (Values attribute) as [|value0 [|? ?]]; try discriminate.
    intros Hok l Hl. apply (IH _ Hok). rewrite lookup_insert_is_Some.
    destruct (decide (remapped = l)); auto.
Qed.

Lemma collect_labels_covers (m : MetricsSource) attributes labels result :
  collect_labels m attributes labels = Ok result →
  ∀ attribute l, attribute ∈ attributes →
    LabelAttributes m !! Name attribute = Some l → is_Some (result !! l).
Proof.
  revert labels. induction attributes as [|attribute rest IH]; intros labels; simpl.
  - intros _ ? ? Hin. by apply elem_of_nil in Hin.
  - intros Hok a l Hin Hl. apply elem_of_cons in Hin as [->|Hin].
    + rewrite Hl in Hok. destruct (Values attribute) as [|value0 [|? ?]]; try discriminate.
      apply (collect_labels_keeps _ _ _ _ Hok). rewrite lookup_insert_eq. by eexists.
    + destruct (LabelAttributes m !! Name attribute) as [remapped|].
      * destruct (Values attribute) as [|value0 [|? ?]]; try discriminate.
        by eapply IH.
      * by eapply IH.
Qed.

Lemma collect_labels_values (m : MetricsSource) attributes labels result :
  collect_labels m attributes labels = Ok result →
  ∀ l v, result !! l = Some v →
    labels !! l = Some v ∨
    ∃ attribute, attribute ∈ attributes ∧
      LabelAttributes m !! Name attribute = Some l ∧ Values attribute = [v].
Proof.
  revert labels. induction attributes as [|attribute rest IH]; intros labels; simpl.
  - intros [= <-]. auto.
  - destruct (LabelAttributes m !! Name attribute) as [remapped|] eqn:Hlabel.
    + destruct (Values attribute) as [|value0 [|? ?]] eqn:Hvalues; try discriminate.
      intros Hok l v Hl. destruct (IH _ Hok l v Hl) as [Hin|(a & Hin & Ha & Hv)].
      * apply lookup_insert_Some in Hin as [[<- <-]|[_ Hin]]; [|by left].
        right. exists attribute. split; [by left|done].
      * right. exists a. split; [by right|done].
    + intros Hok l v Hl. destruct (IH _ Hok l v Hl) as [Hin|(a & Hin & Ha & Hv)].
      * by left.
      * right. exists a. split; [by right|done].
Qed.

Lemma collect_labels_single (m : MetricsSource) attributes labels :
  Forall (λ attribute,
            is_Some (LabelAttributes m !! Name attribute) → length (Values attribute) = 1)
    attributes →
  is_Ok (collect_labels m attributes labels).
Proof.
  intros Hall. revert labels.
  induction Hall as [|attribute rest Hsingle _ IH]; intros labels; simpl.
  - by eexists.
  - destruct (LabelAttributes m !! Name attribute) as [remapped|]; [|apply IH].
    specialize (Hsingle (ltac:(by eexists))).
    destruct (Values attribute) as [|value0 [|? ?]]; try discriminate. apply IH.
Qed.

(** In a map with as many distinct values as keys, no two keys share a
    value; and conversely. *)
Lemma map_img_size_injective (m : gmap string string) :
  size (map_img m : gset string) = size m →
  ∀ a b l, m !! a = Some l → m !! b = Some l → a = b.
Proof.
  intros Hsize a b l Ha Hb. destruct (decide (a = b)) as [|Hne]; [done|exfalso].
  assert (map_img m = (map_img (delete a m) : gset string)) as Himg.
  { rewrite <- (insert_delete_id m a l) at 1 by done.
    rewrite map_img_insert_notin_L by apply lookup_delete_eq.
    assert (l ∈ (map_img (delete a m) : gset string)).
    { apply elem_of_map_img. exists b. by rewrite lookup_delete_ne. }
    set_solver. }
  pose proof (size_map_img_le (delete a m)) as Hle.
  rewrite <- Himg, map_size_delete_Some in Hle by eauto.
  assert (size m ≠ 0).
  { apply map_size_non_empty_iff. intros Hempty. by rewrite Hempty in Ha. }
  lia.
Qed.

Lemma map_img_injective_size (m : gmap string string) :
  (∀ a b l, m !! a = Some l → m !! b = Some l → a = b) →
  size (map_img m : gset string) = size m.
Proof.
  induction m as [|k v m Hk IH] using map_ind; intros Hinj.
  - by rewrite map_img_empty_L, size_empty, map_size_empty.
  - rewrite map_img_insert_notin_L, map_size_insert_None by done.
    assert (v ∉ (map_img m : gset string)) as Hfresh.
    { intros [k' Hk']%elem_of_map_img.
      assert (k = k') as <-; [|congruence].
      apply (Hinj k k' v); [by rewrite lookup_insert_eq|].
      rewrite lookup_insert_ne; [done|]. intros <-. congruence. }
    rewrite size_union, size_singleton by set_solver.
    rewrite IH; [done|]. intros a b l Ha Hb.
    apply (Hinj a b l); (rewrite lookup_insert_ne; [done|]); intros <-; congruence.
Qed.

(** What passing the label check means. *)
Lemma label_check_passed (m : MetricsSource) attributes labels :
  collect_labels m attributes ∅ = Ok labels →
  size labels = size (LabelAttributes m) →
  dom labels = map_img (LabelAttributes m) ∧
  (∀ a b l, LabelAttributes m !! a = Some l → LabelAttributes m !! b = Some l → a = b) ∧
  (∀ attr l, LabelAttributes m !! attr = Some l →
     ∃ attribute v, attribute ∈ attributes ∧ Name attribute = attr ∧
       Values attribute = [v] ∧ labels !! l = Some v).
Proof.
  intros Hok Hsize. pose proof (collect_labels_dom _ _ _ _ Hok) as Hdom.
  rewrite dom_empty, (left_id _ _) in Hdom.
  set (present := filter (λ kv, kv.1 ∈ Name <$> attributes) (LabelAttributes m)) in *.
  assert (present ⊆ LabelAttributes m) as Hsub by apply map_filter_subseteq.
  pose proof (map_subseteq_size _ _ Hsub) as Hle1.
  pose proof (size_map_img_le present) as Hle2.
  pose proof (subseteq_size _ _ Hdom) as Hle3. rewrite size_dom in Hle3.
  assert (present = LabelAttributes m) as Hall.
  { apply map_subseteq_size_eq; [done|lia]. }
  rewrite Hall in Hdom, Hle2, Hle3.
  assert (dom labels = (map_img (LabelAttributes m) : gset string)) as Heq.
  { apply set_subseteq_size_eq; [done|]. rewrite size_dom. lia. }
  assert (∀ a b l, LabelAttributes m !! a = Some l → LabelAttributes m !! b = Some l →
                   a = b) as Hinj.
  { apply map_img_size_injective. lia. }
  split; [done|]. split; [done|].
  intros attr l Hattr.
  assert (is_Some (labels !! l)) as [v Hv].
  { apply elem_of_dom. rewrite Heq. apply elem_of_map_img. by exists attr. }
  destruct (collect_labels_values _ _ _ _ Hok l v Hv) as [Hin|(a & Hin & Ha & Hvalues)].
  { by rewrite lookup_empty in Hin. }
  exists a, v. repeat split; [done| |done..]. by apply (Hinj _ _ l).
Qed.

(** X2. An entry that [scrapeMetrics] scrapes without error has passed
    the label check: the label set handed to every [Parse] has exactly
    the label names of the source's mapping, the value of each name is
    the single value of an attribute of the entry that the mapping
    sends to it, and no two attributes of the mapping share a label
    name. *)
Theorem accepted_entry_is_complete (m : MetricsSource) (e : Entry)
    (sent : list Metric) (u : unit) :
  scrape_entry m e = (sent, Returns (Ok u)) →
  ∃ labels,
    scrape_attributes m labels (Attributes e) = (sent, Returns (Ok u)) ∧
    dom labels = map_img (LabelAttributes m) ∧
    (∀ attr l, LabelAttributes m !! attr = Some l →
       ∃ attribute v, attribute ∈ Attributes e ∧ Name attribute = attr ∧
         Values attribute = [v] ∧ labels !! l = Some v) ∧
    (∀ a b l, LabelAttributes m !! a = Some l → LabelAttributes m !! b = Some l → a = b).
Proof.
  unfold scrape_entry.
  destruct (collect_labels m (Attributes e) ∅) as [labels|err] eqn:Hlabels; [|done].
  case_bool_decide as Hsize; [done|]. intros Hscrape.
  assert (size labels = size (LabelAttributes m)) as Hsize'.
  { destruct (decide (size labels = size (LabelAttributes m))); [done|]. by destruct Hsize. }
  destruct (label_check_passed _ _ _ Hlabels Hsize') as (Hdom & Hinj & Hvalues).
  by exists labels.
Qed.

(** X3. A source whose label mapping sends two attributes to one label
    name rejects every entry before any sample is sent, whatever the
    entry holds; so no search result with an entry is ever scraped
    with success. *)
Theorem shared_label_name_rejects_every_entry (m : MetricsSource) (a b l : string) :
  a ≠ b →
  LabelAttributes m !! a = Some l →
  LabelAttributes m !! b = Some l →
  ∀ e, (∃ err, scrape_entry m e = ([], Returns (Err err))) ∧
       ∀ rest, ∃ err,
         scrapeMetrics m {| Entries := e :: rest |} = ([], Returns (Err err)).
Proof.
  intros Hne Ha Hb e.
  assert (∃ err, scrape_entry m e = ([], Returns (Err err))) as [err Herr].
  { unfold scrape_entry.
    destruct (collect_labels m (Attributes e) ∅) as [labels|err] eqn:Hlabels;
      [|by eexists].
    case_bool_decide as Hsize; [by eexists|]. exfalso.
    assert (size labels = size (LabelAttributes m)) as Hsize'.
    { destruct (decide (size labels = size (LabelAttributes m))); [done|].
      by destruct Hsize. }
    destruct (label_check_passed _ _ _ Hlabels Hsize') as (_ & Hinj & _).
    apply Hne. by apply (Hinj a b l). }
  split; [by exists err|].
  intros rest. exists err. unfold scrapeMetrics. simpl. by rewrite Herr.
Qed.

(** X4. The converse of the rejection of incomplete entries: when no
    two attributes of the label mapping share a label name, an entry
    that has every attribute of the mapping, each occurrence with one
    value, passes the label check, and the second loop runs with a
    label set that has exactly the label names of the mapping. *)
Theorem complete_entry_is_accepted (m : MetricsSource) (e : Entry) :
  (∀ a b l, LabelAttributes m !! a = Some l → LabelAttributes m !! b = Some l → a = b) →
  (∀ attr, is_Some (LabelAttributes m !! attr) → attr ∈ Name <$> Attributes e) →
  Forall (λ attribute,
            is_Some (LabelAttributes m !! Name attribute) → length (Values attribute) = 1)
    (Attributes e) →
  ∃ labels,
    collect_labels m (Attributes e) ∅ = Ok labels ∧
    dom labels = map_img (LabelAttributes m) ∧
    scrape_entry m e = scrape_attributes m labels (Attributes e).
Proof.
  intros Hinj Hpresent Hsingle.
  destruct (collect_labels_single m (Attributes e) ∅ Hsingle) as [labels Hlabels].
  assert (dom labels = (map_img (LabelAttributes m) : gset string)) as Hdom.
  { apply set_eq. intros l. split.
    - intros Hl. pose proof (collect_labels_dom _ _ _ _ Hlabels) as Hsub.
      rewrite dom_empty, (left_id _ _) in Hsub. apply Hsub in Hl.
      apply elem_of_map_img in Hl as [attr [Hattr _]%map_lookup_filter_Some].
      apply elem_of_map_img. by exists attr.
    - intros [attr Hattr]%elem_of_map_img.
      assert (attr ∈ Name <$> Attributes e) as Hin by (apply Hpresent; by eexists).
      apply list_elem_of_fmap in Hin as (attribute & -> & Hin).
      apply elem_of_dom. by eapply collect_labels_covers. }
  exists labels. split; [done|]. split; [done|].
  unfold scrape_entry. rewrite Hlabels.
  rewrite bool_decide_false; [done|].
  intros Hsize. apply Hsize.
  rewrite <- size_dom, Hdom. by apply map_img_injective_size.
Qed.

Lemma scrape_attributes_app (m : MetricsSource) labels before after :
  scrape_attributes m labels (before ++ after) =
    match scrape_attributes m labels before with
    | (sent, Returns (Ok _)) =>
      let '(sent', r) := scrape_attributes m labels after in (sent ++ sent', r)
    | (sent, r) => (sent, r)
    end.
Proof.
  induction before as [|attribute before IH].
  - simpl. by destruct (scrape_attributes m labels after).
  - change ((attribute :: before) ++ after) with (attribute :: (before ++ after)).
    cbn [scrape_attributes].
    destruct (MetricAttributes m !! Name attribute) as [metricVec|].
    + destruct (Parse metricVec labels attribute) as [[metrics|err]|p]; try done.
      rewrite IH.
      destruct (scrape_attributes m labels before) as [sent [[[]|err]|p]]; try done.
      destruct (scrape_attributes m labels after) as [sent' r]. by rewrite app_assoc.
    + destruct (LabelAttributes m !! Name attribute); [apply IH|done].
Qed.

(** X5. An attribute that is neither a metric attribute nor a label
    attribute of the source is never skipped: an entry that holds one
    is not scraped with success. When the entry has passed the label
    check and the attributes before the unrecognized one were parsed,
    their samples have been sent by the time the error is returned,
    and the attributes after it are not looked at. *)
Theorem unrecognized_attribute_fails (m : MetricsSource) (e : Entry)
    (before after : list EntryAttribute) (attribute : EntryAttribute) :
  Attributes e = before ++ attribute :: after →
  MetricAttributes m !! Name attribute = None →
  LabelAttributes m !! Name attribute = None →
  (∀ sent u, scrape_entry m e ≠ (sent, Returns (Ok u))) ∧
  (∀ labels sent,
     collect_labels m (Attributes e) ∅ = Ok labels →
     size labels = size (LabelAttributes m) →
     scrape_attributes m labels before = (sent, Returns (Ok tt)) →
     scrape_entry m e =
       (sent, Returns (Err (ErrUnrecognizedAttribute (Name attribute))))).
Proof.
  intros Hattributes Hmetric Hlabel.
  assert (∀ labels sent u,
            scrape_attributes m labels (before ++ attribute :: after)
            ≠ (sent, Returns (Ok u))) as Hnever.
  { intros labels sent u. rewrite scrape_attributes_app. cbn [scrape_attributes].
    rewrite Hmetric, Hlabel. unfold fail.
    destruct (scrape_attributes m labels before) as [sent' [[[]|err]|p]];
      intros Heq; inversion Heq. }
  split.
  - intros sent u. unfold scrape_entry.
    destruct (collect_labels m (Attributes e) ∅) as [labels|err]; [|done].
    case_bool_decide; [done|]. rewrite Hattributes. apply Hnever.
  - intros labels sent Hlabels Hsize Hbefore. unfold scrape_entry.
    rewrite Hlabels, bool_decide_false by (intros Hne; by apply Hne).
    rewrite Hattributes, scrape_attributes_app, Hbefore. cbn [scrape_attributes].
    rewrite Hmetric, Hlabel. by rewrite app_nil_r.
Qed.

(** X17. The second loop of [scrapeMetrics] over an entry ends without
    error exactly when every attribute of the entry is a metric
    attribute that [Parse] turns into samples or, not being one, a
    label attribute; what it has sent is then the samples of the
    metric attributes, in the order of the entry. An attribute that
    is both a metric attribute and a label attribute is parsed. *)
Theorem scraped_attributes_samples (m : MetricsSource) (labels : gmap string string)
    (attributes : list EntryAttribute) (sent : list Metric) :
  scrape_attributes m labels attributes = (sent, Returns (Ok tt)) ↔
  ∃ outputs,
    sent = concat outputs ∧
    Forall2 (λ attribute metrics,
               match MetricAttributes m !! Name attribute with
               | Some metricVec => Parse metricVec labels attribute = Returns (Ok metrics)
               | None => is_Some (LabelAttributes m !! Name attribute) ∧ metrics = []
               end)
      attributes outputs.
Proof.
  revert sent. induction attributes as [|attribute rest IH]; intros sent.
  - simpl. split.
    + intros [= <-]. exists []. split; [done|constructor].
    + intros (outputs & -> & Hall). by inversion Hall.
  - cbn [scrape_attributes].
    destruct (MetricAttributes m !! Name attribute) as [metricVec|] eqn:Hmetric.
    + destruct (Parse metricVec labels attribute) as [[metrics|err]|p] eqn:Hparse.
      * destruct (scrape_attributes m labels rest) as [sent' r] eqn:Hrest. split.
        -- intros [= <- ->]. destruct (proj1 (IH sent') eq_refl) as (outputs & -> & Hall).
           exists (metrics :: outputs). split; [done|]. constructor; [|done].
           by rewrite Hmetric.
        -- intros (outputs & -> & Hall).
           inversion Hall as [|? metrics' ? outputs' Hhead Htail]; subst.
           rewrite Hmetric, Hparse in Hhead. injection Hhead as <-.
           assert ((sent', r) = (concat outputs', Returns (Ok tt))) as [= -> ->].
           { apply IH. by exists outputs'. }
           done.
      * split; [done|]. intros (outputs & -> & Hall).
        inversion Hall as [|? metrics' ? outputs' Hhead Htail]; subst.
        rewrite Hmetric, Hparse in Hhead. done.
      * split; [done|]. intros (outputs & -> & Hall).
        inversion Hall as [|? metrics' ? outputs' Hhead Htail]; subst.
        rewrite Hmetric, Hparse in Hhead. done.
    + destruct (LabelAttributes m !! Name attribute) as [label|] eqn:Hlabel.
      * rewrite IH. split.
        -- intros (outputs & -> & Hall). exists ([] :: outputs). split; [done|].
           constructor; [|done]. rewrite Hmetric, Hlabel. split; [by eexists|done].
        -- intros (outputs & -> & Hall).
           inversion Hall as [|? metrics' ? outputs' Hhead Htail]; subst.
           rewrite Hmetric in Hhead. destruct Hhead as [_ ->]. by exists outputs'.
      * split; [done|]. intros (outputs & -> & Hall).
        inversion Hall as [|? metrics' ? outputs' Hhead Htail]; subst.
        rewrite Hmetric, Hlabel in Hhead. by destruct Hhead as [[? [=]] _].
Qed.

Lemma scrape_attributes_parsed (m : MetricsSource) labels attributes sent u :
  scrape_attributes m labels attributes = (sent, Returns (Ok u)) →
  ∀ attribute a, attribute ∈ attributes →
    MetricAttributes m !! Name attribute = Some a →
    ∃ metrics, Parse a labels attribute = Returns (Ok metrics).
Proof.
  revert sent. induction attributes as [|attribute rest IH]; intros sent.
  - intros _ ? ? Hin. by apply elem_of_nil in Hin.
  - cbn [scrape_attributes]. intros Hok other a Hin Ha.
    destruct (MetricAttributes m !! Name attribute) as [metricVec|] eqn:Hmetric.
    + destruct (Parse metricVec labels attribute) as [[metrics|err]|p] eqn:Hparse;
        try done.
      destruct (scrape_attributes m labels rest) as [sent' r] eqn:Hrest.
      injection Hok as <- ->.
      apply elem_of_cons in Hin as [->|Hin].
      * rewrite Hmetric in Ha. injection Ha as <-. by exists metrics.
      * by eapply IH.
    + destruct (LabelAttributes m !! Name attribute); [|done].
      apply elem_of_cons in Hin as [->|Hin]; [congruence|]. by eapply IH.
Qed.

(** X18. The labels that a metric attribute declares of its own can
    only come from a translation: an entry that holds a metric
    attribute without a translator, one of whose labels is not a
    label name of the source's label mapping, is never scraped with
    success. *)
Theorem own_labels_need_a_translator (m : MetricsSource) (e : Entry)
    (attribute : EntryAttribute) (a : MetricAttribute) (l : string) :
  attribute ∈ Attributes e →
  MetricAttributes m !! Name attribute = Some a →
  translator a = None →
  l ∈ labels a →
  l ∉ (map_img (LabelAttributes m) : gset string) →
  ∀ sent u, scrape_entry m e ≠ (sent, Returns (Ok u)).
Proof.
  intros Hin Ha Hnone Hl Hunmapped sent u Hentry. unfold scrape_entry in Hentry.
  destruct (collect_labels m (Attributes e) ∅) as [collected|err] eqn:Hlabels; [|done].
  case_bool_decide as Hsize; [done|].
  assert (size collected = size (LabelAttributes m)) as Hsize'.
  { destruct (decide (size collected = size (LabelAttributes m))); [done|].
    by destruct Hsize. }
  destruct (label_check_passed _ _ _ Hlabels Hsize') as (Hdom & _).
  destruct (scrape_attributes_parsed _ _ _ _ _ Hentry attribute a Hin Ha)
    as [metrics Hparse].
  apply Parse_untranslated_Ok in Hparse as (_ & _ & ls & _ & _ & Hls & _); [|done].
  apply buildOrderedLabels_Ok in Hls.
  apply list_elem_of_lookup_1 in Hl as [i Hi].
  destruct (Forall2_lookup_l _ _ _ _ _ Hls Hi) as (value & _ & Hfirst).
  rewrite first_source_one in Hfirst.
  apply Hunmapped. rewrite <- Hdom. apply elem_of_dom. by eexists.
Qed.

(** X6. A source built by [NewMetricsSource] asks the server for the
    attributes that [scrapeMetrics] recognizes, and for no other: the
    requested attributes are, up to the order of the run, the keys of
    the metric attributes and the keys of the label mapping; a missing
    filter becomes the filter that matches any object class, and the
    limits are zero. *)
Theorem NewMetricsSource_requests (order : range_order) (section : nat)
    (searchDN : string) (filter : option string) (scope deref : Z)
    (metric_attributes : gmap string MetricAttribute)
    (label_attributes : gmap string string) :
  range_order_valid order →
  ∃ m,
    NewMetricsSource order section (Some searchDN) filter scope deref
      metric_attributes label_attributes = Returns m ∧
    MetricAttributes m = metric_attributes ∧
    LabelAttributes m = label_attributes ∧
    SearchRequest_ m =
      NewSearchRequest searchDN scope deref 0 0 false (default "(objectClass=*)" filter)
        (RequestAttributes (SearchRequest_ m)) ∧
    RequestAttributes (SearchRequest_ m) ≡ₚ
      (map_to_list metric_attributes).*1 ++ (map_to_list label_attributes).*1 ∧
    (∀ attr, attr ∈ RequestAttributes (SearchRequest_ m) ↔
       is_Some (MetricAttributes m !! attr) ∨ is_Some (LabelAttributes m !! attr)).
Proof.
  intros Hvalid. eexists. split; [reflexivity|]. simpl.
  assert (∀ V (site : range_site) (map : gmap string V) attr,
            attr ∈ (range order site map).*1 ↔ is_Some (map !! attr)) as Hkeys.
  { intros V site map attr. rewrite range_permutation by done.
    rewrite list_elem_of_fmap. split.
    - intros ([k v] & -> & Hin). apply elem_of_map_to_list in Hin. by eexists.
    - intros [v Hv]. exists (attr, v). split; [done|]. by apply elem_of_map_to_list. }
  repeat split; try done.
  - by rewrite !range_permutation.
  - intros [Hin|Hin]%elem_of_app; [left|right]; by eapply Hkeys.
  - intros [Hin|Hin]; apply elem_of_app; [left|right]; by eapply Hkeys.
Qed.

End label_check.

(** ** Samples and descriptors *)

Section samples.
Context `{Library}.

Lemma Parse_samples (a : MetricAttribute) extra_labels entry metrics :
  Parse a extra_labels entry = Returns (Ok metrics) →
  Forall (sample_of a) metrics.
Proof.
  destruct (translator a) as [t|] eqn:Ht.
  - rewrite (Parse_translated _ _ _ _ Ht).
    destruct (do_the_translation_thing t (Values entry)) as [[values|err]|p]; try done.
    unfold mbind, go_bind, call. intros [= Hok].
    apply translated_Ok in Hok as (new & -> & Hall). simpl.
    clear Ht. induction Hall as [|value metric values new (ls & Hls & _ & ->) _ IH];
      constructor; [|done].
    split; [done|]. simpl. by eapply buildOrderedLabels_length.
  - intros Hok.
    apply Parse_untranslated_Ok in Hok as (value0 & x & ls & _ & _ & Hls & ->); [|done].
    constructor; [|constructor]. split; [done|]. simpl.
    by eapply buildOrderedLabels_length.
Qed.

Lemma scrape_attributes_samples (m : MetricsSource) labels attributes metric :
  metric ∈ (scrape_attributes m labels attributes).1 →
  ∃ attr a, MetricAttributes m !! attr = Some a ∧ sample_of a metric.
Proof.
  induction attributes as [|attribute rest IH]; cbn [scrape_attributes].
  - simpl. by intros ?%elem_of_nil.
  - destruct (MetricAttributes m !! Name attribute) as [metricVec|] eqn:Hmetric.
    + destruct (Parse metricVec labels attribute) as [[metrics|err]|p] eqn:Hparse;
        try (simpl; by intros ?%elem_of_nil).
      destruct (scrape_attributes m labels rest) as [sent r]. simpl in *.
      intros [Hin|Hin]%elem_of_app; [|by apply IH].
      exists (Name attribute), metricVec. split; [done|].
      apply Parse_samples in Hparse. rewrite Forall_forall in Hparse. by apply Hparse.
    + destruct (LabelAttributes m !! Name attribute); [done|].
      simpl. by intros ?%elem_of_nil.
Qed.

Lemma scrape_entries_samples (m : MetricsSource) entries metric :
  metric ∈ (scrape_entries m entries).1 →
  ∃ attr a, MetricAttributes m !! attr = Some a ∧ sample_of a metric.
Proof.
  assert (∀ e, metric ∈ (scrape_entry m e).1 →
               ∃ attr a, MetricAttributes m !! attr = Some a ∧ sample_of a metric)
    as Hentry.
  { intros e. unfold scrape_entry.
    destruct (collect_labels m (Attributes e) ∅) as [labels|err];
      [|simpl; by intros ?%elem_of_nil].
    case_bool_decide; [simpl; by intros ?%elem_of_nil|].
    apply scrape_attributes_samples. }
  induction entries as [|e rest IH]; simpl.
  - by intros ?%elem_of_nil.
  - specialize (Hentry e).
    destruct (scrape_entry m e) as [sent [[[]|err]|p]]; simpl in *; try done.
    destruct (scrape_entries m rest) as [sent' r]. simpl in *.
    intros [Hin|Hin]%elem_of_app; auto.
Qed.

Lemma scrape_sources_samples (conn : Conn) n sources failures metric :
  metric ∈ (scrape_sources conn n sources failures).1.1 →
  ∃ query attr a,
    query ∈ sources ∧ MetricAttributes query !! attr = Some a ∧ sample_of a metric.
Proof.
  revert n failures. induction sources as [|source rest IH]; intros n failures.
  - simpl. by intros ?%elem_of_nil.
  - cbn [scrape_sources].
    assert (∀ n failures, metric ∈ (scrape_sources conn n rest failures).1.1 →
              ∃ query attr a, query ∈ source :: rest ∧
                MetricAttributes query !! attr = Some a ∧ sample_of a metric) as IH'.
    { intros n' failures' Hin.
      destruct (IH _ _ Hin) as (query & attr & a & Hquery & Hattr & Hsample).
      exists query, attr, a. split; [by right|done]. }
    destruct (Search conn n (SearchRequest_ source)) as [result|err]; [|apply IH'].
    pose proof (scrape_entries_samples source (Entries result) metric) as Hsource.
    unfold scrapeMetrics.
    destruct (scrape_entries source (Entries result)) as [sent [r|p]]; simpl in *.
    + specialize (IH' (S n) match r with Err _ => (failures + 1)%float | Ok _ => failures end).
      destruct (scrape_sources conn (S n) rest
                  match r with Err _ => (failures + 1)%float | Ok _ => failures end)
        as [[sent' failures'] p']. simpl in *.
      intros [Hin|Hin]%elem_of_app; [|by apply IH'].
      destruct (Hsource Hin) as (attr & a & Hattr & Hsample).
      exists source, attr, a. split; [by left|done].
    + intros Hin. destruct (Hsource Hin) as (attr & a & Hattr & Hsample).
      exists source, attr, a. split; [by left|done].
Qed.

Lemma describe_sources_elem (order : range_order) n sources d :
  range_order_valid order →
  d ∈ describe_sources order n sources ↔
  ∃ query attr a,
    query ∈ sources ∧ MetricAttributes query !! attr = Some a ∧ GetDesc a = d.
Proof.
  intros Hvalid. revert n. induction sources as [|source rest IH]; intros n; simpl.
  - split; [by intros ?%elem_of_nil|]. by intros (? & ? & ? & ?%elem_of_nil & _).
  - rewrite elem_of_app, IH, range_permutation by done. split.
    + intros [Hin|(query & attr & a & Hquery & Hattr & Hd)].
      * apply list_elem_of_fmap in Hin as (a & -> & Hin).
        apply list_elem_of_fmap in Hin as ([attr a'] & -> & Hin).
        apply elem_of_map_to_list in Hin.
        exists source, attr, a'. split; [by left|done].
      * exists query, attr, a. split; [by right|done].
    + intros (query & attr & a & Hquery & Hattr & Hd).
      apply elem_of_cons in Hquery as [->|Hquery].
      * left. apply list_elem_of_fmap. exists a. split; [done|].
        apply list_elem_of_fmap. exists (attr, a). split; [done|].
        by apply elem_of_map_to_list.
      * right. by exists query, attr, a.
Qed.

Lemma describe_sources_length (order : range_order) n sources :
  range_order_valid order →
  length (describe_sources order n sources) =
    sum_list ((λ query, size (MetricAttributes query)) <$> sources).
Proof.
  intros Hvalid. revert n. induction sources as [|source rest IH]; intros n; simpl.
  - done.
  - rewrite length_app, !length_fmap, IH. f_equal.
    unfold range. rewrite (Hvalid _ _ (map_to_list (MetricAttributes source))).
    by rewrite length_map_to_list.
Qed.

(** X7. [Describe] announces the descriptor of every metric attribute
    of every source, once for each attribute, and nothing else: in
    particular not the descriptors of the four self-metrics, unless an
    attribute has the same one. *)
Theorem Describe_announces_the_attributes (order : range_order) (e : Exporter) :
  range_order_valid order →
  (∀ d, d ∈ Describe order e ↔
        ∃ query attr a,
          query ∈ metricsSources e ∧ MetricAttributes query !! attr = Some a ∧
          GetDesc a = d) ∧
  length (Describe order e) =
    sum_list ((λ query, size (MetricAttributes query)) <$> metricsSources e).
Proof.
  intros Hvalid. split.
  - intros d. by apply describe_sources_elem.
  - by apply describe_sources_length.
Qed.

(** X8. Whatever a cycle sends for the sources, whether the cycle
    ends, meets errors or panics, is a sample of a metric attribute of
    one of the sources: it carries that attribute's descriptor, which
    [Describe] has announced, and has one label value for each label
    the attribute declares. *)
Theorem samples_are_described (order : range_order) (e : Exporter) (elapsed : float)
    (metric : Metric) :
  range_order_valid order →
  metric ∈ (scrape e elapsed).1.2 →
  desc metric ∈ Describe order e ∧
  ∃ query attr a,
    query ∈ metricsSources e ∧ MetricAttributes query !! attr = Some a ∧
    desc metric = GetDesc a ∧ length (labelValues metric) = length (labels a).
Proof.
  intros Hvalid. unfold scrape.
  pose proof (scrape_sources_samples (conn e) 0 (metricsSources e) 0%float metric)
    as Hsamples.
  destruct (scrape_sources (conn e) 0 (metricsSources e) 0) as [[sent failures] p].
  simpl in *. intros Hin.
  destruct (Hsamples Hin) as (query & attr & a & Hquery & Hattr & Hdesc & Hlength).
  split; [|by exists query, attr, a].
  apply describe_sources_elem; [done|]. by exists query, attr, a.
Qed.

End samples.

(** ** A panic in a cycle *)

Section panics.
Context `{Library}.

Lemma scrape_sources_app (conn : Conn) n before rest failures :
  Forall returned (imap (λ i, scrape_source conn (n + i)) before) →
  scrape_sources conn n (before ++ rest) failures =
    let '(sent, failures', p) :=
      scrape_sources conn (n + length before) rest
        (failures_after
           (length (filter is_failure (imap (λ i, scrape_source conn (n + i)) before)))
           failures) in
    (concat (fst <$> imap (λ i, scrape_source conn (n + i)) before) ++ sent, failures', p).
Proof.
  revert n failures. induction before as [|source before IH]; intros n failures Hall.
  - simpl. rewrite Nat.add_0_r. unfold failures_after. simpl.
    by destruct (scrape_sources conn n rest failures) as [[sent failures'] p].
  - rewrite imap_cons in Hall |- *. apply Forall_cons in Hall as [[r Hr] Hall].
    assert (imap ((λ i, scrape_source conn (n + i)) ∘ S) before
            = imap (λ i, scrape_source conn (S n + i)) before) as Hshift.
    { apply imap_ext. intros i x _. simpl. f_equal. lia. }
    rewrite Hshift in Hall |- *. specialize (IH (S n)).
    rewrite Nat.add_0_r in Hr |- *.
    change ((source :: before) ++ rest) with (source :: (before ++ rest)).
    rewrite scrape_sources_cons, filter_cons, fmap_cons. unfold is_failure at 1.
    destruct (scrape_source conn n source) as [sent r']. simpl in Hr. subst r'.
    cbn [concat fst snd length]. replace (n + S (length before)) with (S n + length before) by lia.
    destruct r as [[]|err].
    + rewrite IH by done. rewrite decide_False by (by intros []).
      destruct (scrape_sources conn (S n + length before) rest _) as [[sent' failures'] p].
      by rewrite app_assoc.
    + rewrite IH by done. rewrite decide_True by done.
      cbn [length]. rewrite failures_after_S.
      destruct (scrape_sources conn (S n + length before) rest _) as [[sent' failures'] p].
      by rewrite app_assoc.
Qed.

(** X9. When the scrape of a source panics, the cycle ends there: the
    sources after it are not searched, [Collect] sends none of the
    four self-metrics, and what has been sent is what the sources
    before it sent followed by what the panicking source had sent. The
    deferred update of [scrape] has run all the same: the duration is
    set, the total-scrapes counter has grown by one, and the failures
    counted before the panic are in the last-scrape-error gauge and
    added to the total-errors counter; the panicking source is not
    counted as a failure. *)
Theorem panic_ends_the_cycle (e : Exporter) (elapsed : float)
    (before after : list MetricsSource) (source : MetricsSource)
    (partial : list Metric) (p : panic) :
  metricsSources e = before ++ source :: after →
  Forall returned (imap (scrape_source (conn e)) before) →
  scrape_source (conn e) (length before) source = (partial, Panics p) →
  ∃ e',
    Collect e elapsed =
      (e', concat (fst <$> imap (scrape_source (conn e)) before) ++ partial, Panics p) ∧
    e' = {| duration := Set_ (duration e) elapsed;
            scrapeError :=
              Set_ (scrapeError e)
                (failures_after
                   (length (filter is_failure (imap (scrape_source (conn e)) before))) 0);
            totalErrors :=
              Add (totalErrors e)
                (failures_after
                   (length (filter is_failure (imap (scrape_source (conn e)) before))) 0);
            totalScrapes := Inc (totalScrapes e);
            conn := conn e;
            metricsSources := metricsSources e |}.
Proof.
  intros Hsources Hbefore Hpanic.
  assert (scrape_sources (conn e) 0 (before ++ source :: after) 0 =
            (concat (fst <$> imap (scrape_source (conn e)) before) ++ partial,
             failures_after
               (length (filter is_failure (imap (scrape_source (conn e)) before))) 0,
             Some p)) as Hloop.
  { rewrite (scrape_sources_app (conn e) 0 before (source :: after) 0%float Hbefore).
    change (0 + length before) with (length before).
    rewrite scrape_sources_cons, Hpanic. reflexivity. }
  rewrite <- Hsources in Hloop. unfold Collect, scrape. rewrite Hloop. by eexists.
Qed.

End panics.

(** ** The bundled definitions *)

Section bundled.
Context `{Library}.

Lemma is_389_names (ea : EntryAttribute) : is_389 ea = bool_decide (names_389 ea).
Proof.
  unfold is_389, names_389. destruct ea as [name values]. simpl.
  destruct values as [|value [|? ?]]; repeat case_bool_decide; simpl in *;
    try done; try (exfalso; naive_solver).
Qed.

Context (Asset : string → result string).

Lemma bundled_for_attributes_spec (order : range_order) attributes :
  bundled_for_attributes Asset order attributes =
    if decide (Exists names_389 attributes)
    then Some (loadBundledConfig Asset order "data/389.yaml") else None.
Proof.
  induction attributes as [|ea rest IH]; cbn [bundled_for_attributes].
  - destruct (decide (Exists names_389 [])) as [Hex|_]; [by apply Exists_nil in Hex|done].
  - rewrite is_389_names, IH.
    destruct (decide (Exists names_389 (ea :: rest))) as [Hex|Hex];
      case_bool_decide as Hea; try done.
    + destruct (decide (Exists names_389 rest)); [done|].
      by apply Exists_cons in Hex as [?|?].
    + exfalso. apply Hex. by left.
    + destruct (decide (Exists names_389 rest)); [|done].
      exfalso. apply Hex. by right.
Qed.

(** X10. [loadBundledMetricsForServer] returns the error of a failed
    vendor search as it is. Otherwise it loads the bundled 389
    definitions exactly when some entry of the answer, at any position,
    has an attribute [vendorname] whose only value is [389 Project],
    and the result is then that of [LoadConfig] on the bundled file
    (or the error of reading it); for any other answer it returns an
    empty list of sources and no error. *)
Theorem bundled_definitions_by_vendor (order : range_order) (conn : Conn) :
  loadBundledMetricsForServer Asset order conn =
    match Search conn 0
            (NewSearchRequest "" ScopeBaseObject NeverDerefAliases 0 0 false
               "(objectClass=*)" ["vendorname"]) with
    | Err err => Returns (Err err)
    | Ok sr =>
      if decide (Exists (λ entry, Exists names_389 (Attributes entry)) (Entries sr))
      then match Asset "data/389.yaml" with
           | Err err => Returns (Err err)
           | Ok data => LoadConfig order data
           end
      else Returns (Ok [])
    end.
Proof.
  unfold loadBundledMetricsForServer.
  destruct (Search conn 0 _) as [sr|err]; [|done].
  induction (Entries sr) as [|entry rest IH]; cbn [bundled_for_entries].
  - destruct (decide (Exists _ [])) as [Hex|_]; [by apply Exists_nil in Hex|done].
  - rewrite bundled_for_attributes_spec, IH. unfold loadBundledConfig, fail.
    destruct (decide (Exists _ (entry :: rest))) as [Hex|Hex];
      destruct (decide (Exists names_389 (Attributes entry))) as [Hentry|Hentry];
      try done.
    + destruct (decide (Exists _ rest)); [done|].
      by apply Exists_cons in Hex as [?|?].
    + exfalso. apply Hex. by left.
    + destruct (decide (Exists _ rest)); [|done].
      exfalso. apply Hex. by right.
Qed.

End bundled.

(** ** What a load builds *)

Section built.
Context `{Library}.

Lemma optional_Ok {A B} (f : A → result B) (o : option A) (r : option B) :
  optional f o = Ok r →
  match o with
  | None => r = None
  | Some a => ∃ b, f a = Ok b ∧ r = Some b
  end.
Proof.
  destruct o as [a|]; simpl.
  - destruct (f a) as [b|err]; simpl; [|done]. intros [= <-]. by exists b.
  - by intros [= <-].
Qed.

(** Decoding a mapping: the hook has accepted every value, and the
    result has the same keys. *)
Lemma decode_entries_Ok {A B} (f : A → result B) (l : list (string * A))
    (r : gmap string B) :
  NoDup l.*1 →
  foldr (λ '(k, a) acc, b ← f a; m' ← acc; Ok (<[k := b]> m')) (Ok ∅) l = Ok r →
  ∀ k, (∀ a, (k, a) ∈ l → ∃ b, f a = Ok b ∧ r !! k = Some b) ∧
       (k ∉ l.*1 → r !! k = None).
Proof.
  revert r. induction l as [|[k0 a0] rest IH]; intros r Hnodup; simpl.
  - intros [= <-] k. split; [by intros a ?%elem_of_nil|done].
  - apply NoDup_cons in Hnodup as [Hk0 Hnodup].
    destruct (f a0) as [b0|err] eqn:Hf; simpl; [|done].
    destruct (foldr _ _ rest) as [m'|err] eqn:Hrest; simpl; [|done].
    intros [= <-] k. destruct (IH m' Hnodup eq_refl k) as [Hin Hout]. split.
    + intros a [[= -> ->]|Ha]%elem_of_cons.
      * exists b0. split; [done|]. apply lookup_insert_eq.
      * destruct (Hin a Ha) as (b & Hb & Hlookup). exists b. split; [done|].
        rewrite lookup_insert_ne; [done|]. intros <-. apply Hk0.
        apply list_elem_of_fmap. by exists (k0, a).
    + intros Hk. simpl in Hk. apply not_elem_of_cons in Hk as [Hne Hk].
      rewrite lookup_insert_ne by done. by apply Hout.
Qed.

Lemma decode_map_Ok {A B} (f : A → result B) (m : gmap string A) (r : gmap string B) :
  decode_map f m = Ok r →
  ∀ k, option_Forall2 (λ a b, f a = Ok b) (m !! k) (r !! k).
Proof.
  intros Hok k.
  destruct (decode_entries_Ok f (map_to_list m) r (NoDup_fst_map_to_list m) Hok k)
    as [Hin Hout].
  destruct (m !! k) as [a|] eqn:Hk.
  - apply elem_of_map_to_list in Hk. destruct (Hin a Hk) as (b & Hb & ->).
    by constructor.
  - rewrite Hout; [constructor|].
    intros ([k' a] & -> & Ha%elem_of_map_to_list)%list_elem_of_fmap. simpl in Hk.
    congruence.
Qed.

(** What the hook of a metric attribute has checked when it returns,
    and what it leaves in the struct. *)
Lemma metricAttributeConfig_UnmarshalYAML_inv (mdoc : metricAttributeConfig_doc) mac :
  metricAttributeConfig_UnmarshalYAML mdoc = Ok mac →
  mac_Name mac = doc_metric_name mdoc ∧
  mac_Type mac = doc_type mdoc ∧
  mac_Labels mac = doc_metric_labels mdoc ∧
  mac_Help mac = doc_help mdoc ∧
  mac_X mac = ∅ ∧
  template_ (mac_Translator mac) = (doc_translator mdoc ≫= λ text, template_ (supplied text)) ∧
  doc_metric_X mdoc = ∅ ∧
  doc_type mdoc ≠ "" ∧
  Forall (λ label, trimmed_shorter label = false) (doc_metric_labels mdoc) ∧
  (∀ text, doc_translator mdoc = Some text →
     templateString_UnmarshalYAML text = Ok (supplied text)).
Proof.
  unfold metricAttributeConfig_UnmarshalYAML.
  destruct (optional templateString_UnmarshalYAML (doc_translator mdoc))
    as [parsed|err] eqn:Htranslator; simpl; [|done].
  apply optional_Ok in Htranslator.
  destruct (checkOverflow (doc_metric_X mdoc) "config") as [[]|err] eqn:Hflow;
    simpl; [|done].
  apply checkOverflow_Ok in Hflow.
  case_bool_decide as Htype; [done|].
  destruct (check_labels 0 (doc_metric_labels mdoc)) as [[]|err] eqn:Hlabels;
    simpl; [|done].
  apply check_labels_Ok in Hlabels. intros [= <-]. simpl.
  assert (template_ (default {| template_ := None |} parsed)
          = (doc_translator mdoc ≫= λ text, template_ (supplied text)) ∧
          ∀ text, doc_translator mdoc = Some text →
                  templateString_UnmarshalYAML text = Ok (supplied text)) as [? ?].
  { destruct (doc_translator mdoc) as [text|]; simpl.
    - destruct Htranslator as (t & Ht & ->). simpl.
      unfold templateString_UnmarshalYAML in Ht.
      destruct (template_Parse _) eqn:Hparse; [done|]. injection Ht as <-.
      split; [done|]. intros ? [= <-]. unfold templateString_UnmarshalYAML.
      by rewrite Hparse.
    - subst parsed. split; [done|]. by intros ? [=]. }
  repeat split; done.
Qed.

(** What decoding the fields of a section has checked when it
    returns, and what it leaves in the struct. *)
Lemma metricSourceConfig_plain_inv (doc : metricSourceConfig_doc) s :
  metricSourceConfig_plain doc = Ok s →
  msc_Name s = doc_name doc ∧
  optional dnString_UnmarshalYAML (doc_search doc) = Ok (msc_Search s) ∧
  optional filterString_UnmarshalYAML (doc_filter doc) = Ok (msc_Filter s) ∧
  optional scopeChoice_UnmarshalYAML (doc_scope doc) = Ok (msc_Scope s) ∧
  optional derefChoice_UnmarshalYAML (doc_deref doc) = Ok (msc_Deref s) ∧
  optional templateString_UnmarshalYAML (doc_counter_metric_name_template doc)
    = Ok (msc_CounterNameTemplate s) ∧
  optional templateString_UnmarshalYAML (doc_gauge_metric_name_template doc)
    = Ok (msc_GaugeNameTemplate s) ∧
  decode_map metricAttributeConfig_UnmarshalYAML (doc_attr_metrics (doc_attributes doc))
    = Ok (ac_Metrics (msc_Attributes s)) ∧
  ac_Labels (msc_Attributes s) = doc_attr_labels (doc_attributes doc) ∧
  doc_attr_X (doc_attributes doc) = ∅ ∧
  msc_ConstantLabels s = doc_labels doc ∧
  msc_labelsFromAttributes s = [] ∧
  msc_metricAttributes s = ∅ ∧
  msc_X s = doc_X doc.
Proof.
  unfold metricSourceConfig_plain. intros Hok.
  destruct (optional dnString_UnmarshalYAML _) as [search|]; [|done].
  destruct (optional filterString_UnmarshalYAML _) as [filter|]; [|done].
  destruct (optional scopeChoice_UnmarshalYAML _) as [scope|]; [|done].
  destruct (optional derefChoice_UnmarshalYAML _) as [deref|]; [|done].
  destruct (optional templateString_UnmarshalYAML (doc_counter_metric_name_template doc))
    as [counterName|]; [|done].
  destruct (optional templateString_UnmarshalYAML (doc_gauge_metric_name_template doc))
    as [gaugeName|]; [|done].
  simpl in Hok. unfold attributeConfig_UnmarshalYAML in Hok.
  destruct (decode_map _ _) as [metrics|]; [|done]. simpl in Hok.
  destruct (checkOverflow _ _) as [[]|] eqn:Hflow; [|done]. simpl in Hok.
  apply checkOverflow_Ok in Hflow.
  injection Hok as <-. simpl. repeat split; done.
Qed.

(** The naming template of a decoded section. *)
Lemma naming_template_decoded (text : option string) (t : option templateString)
    (fallback : templateString) :
  optional templateString_UnmarshalYAML text = Ok t →
  default fallback t = default fallback (supplied <$> text).
Proof.
  intros Hok. apply optional_Ok in Hok. destruct text as [text|]; simpl.
  - destruct Hok as (parsed & Hparsed & ->). simpl.
    unfold templateString_UnmarshalYAML in Hparsed.
    destruct (template_Parse _); [done|]. by injection Hparsed as <-.
  - by subst t.
Qed.

Lemma setName_Ok s mac attr (t : templateString) name :
  setName s mac attr (Some t) = Returns (Ok name) →
  ∃ n, name = "ldap_" +:+ n ∧
       if bool_decide (mac_Name mac = "") then
         ∃ tmpl, template_ t = Some tmpl ∧
                 template_Execute template.MissingKeyError tmpl
                   (<["section" := template.VString (msc_Name s)]>
                      (<["attribute" := template.VString attr]> ∅)) = Ok n
       else n = mac_Name mac.
Proof.
  unfold setName. case_bool_decide as Hname; simpl.
  - destruct (template_ t) as [tmpl|]; simpl; [|done].
    destruct (template_Execute _ _ _) as [buffer|err] eqn:Hexecute; simpl; [|done].
    intros [= <-]. exists buffer. split; [done|]. by exists tmpl.
  - intros [= <-]. by exists (mac_Name mac).
Qed.

(** The metric attribute that [createMetricAttribute] makes from a
    decoded description. *)
Lemma make_attribute_loaded s mac attr ma doc mdoc :
  msc_Name s = doc_name doc →
  msc_ConstantLabels s = doc_labels doc →
  msc_CounterNameTemplate s = Some (naming_template doc true) →
  msc_GaugeNameTemplate s = Some (naming_template doc false) →
  metricAttributeConfig_UnmarshalYAML mdoc = Ok mac →
  make_attribute s mac attr = Returns (Ok ma) →
  loaded_attribute doc (msc_labelsFromAttributes s) attr mdoc ma.
Proof.
  intros Hname Hconst Hcounter Hgauge Hmac.
  apply metricAttributeConfig_UnmarshalYAML_inv in Hmac
    as (HName & HType & HLabels & HHelp & _ & HTranslator & _).
  unfold make_attribute. cbv zeta.
  assert ((if bool_decide (length (msc_labelsFromAttributes s) ≠ 0)
           then [] ++ msc_labelsFromAttributes s ++ mac_Labels mac
           else mac_Labels mac) = msc_labelsFromAttributes s ++ doc_metric_labels mdoc)
    as ->.
  { rewrite HLabels. case_bool_decide as Hlen; [done|].
    destruct (msc_labelsFromAttributes s) as [|x l]; [done|]. simpl in Hlen.
    first [done | by destruct Hlen]. }
  rewrite Hcounter, Hgauge, HType, HHelp, Hconst.
  destruct (bool_decide (doc_type mdoc = "counter")) eqn:Hc;
    [|destruct (bool_decide (doc_type mdoc = "gauge")) eqn:Hg]; [| |done].
  - apply bool_decide_eq_true in Hc.
    destruct (setName s mac attr (Some (naming_template doc true)))
      as [[name|err]|p] eqn:Hset; simpl; try done.
    intros [= <-]. apply setName_Ok in Hset as (n & -> & Hn).
    rewrite HName, Hname in Hn.
    unfold loaded_attribute. simpl. repeat split; try done; [by left|].
    exists n. split; [done|]. unfold metric_name_of, naming_data. exact Hn.
  - apply bool_decide_eq_true in Hg.
    destruct (setName s mac attr (Some (naming_template doc false)))
      as [[name|err]|p] eqn:Hset; simpl; try done.
    intros [= <-]. apply setName_Ok in Hset as (n & -> & Hn).
    rewrite HName, Hname in Hn.
    unfold loaded_attribute. simpl. repeat split; try done; [by right|].
    exists n. split; [done|]. unfold metric_name_of, naming_data. exact Hn.
Qed.

Lemma map_Forall_range {V} (order : range_order) site (m : gmap string V)
    (P : string → V → Prop) :
  range_order_valid order →
  Forall (λ entry, P entry.1 entry.2) (range order site m) ↔ map_Forall P m.
Proof.
  intros Hvalid. rewrite range_permutation by done.
  rewrite map_Forall_to_list, Forall_forall. unfold curry. split.
  - intros Hall. apply Forall_forall. intros [k v]. apply Hall.
  - intros Hall [k v]. rewrite Forall_forall in Hall. apply Hall.
Qed.

(** What the hook of a section has checked when it returns, and what
    it leaves in the struct. *)
Lemma section_decoded order section doc s :
  range_order_valid order →
  metricSourceConfig_UnmarshalYAML order section doc = Returns (Ok s) →
  checked_section doc ∧
  msc_Search s = doc_search doc ∧
  msc_Filter s = Some (default "(objectClass=*)" (doc_filter doc)) ∧
  (∃ scope, msc_Scope s = Some scope ∧
     match doc_scope doc with
     | None => scope = ScopeBaseObject
     | Some choice => scopeChoice_UnmarshalYAML choice = Ok scope
     end) ∧
  (∃ deref, msc_Deref s = Some deref ∧
     match doc_deref doc with
     | None => deref = DerefAlways
     | Some choice => derefChoice_UnmarshalYAML choice = Ok deref
     end) ∧
  ac_Labels (msc_Attributes s) = doc_attr_labels (doc_attributes doc) ∧
  ∃ mapped,
    mapped ≡ₚ (map_to_list (doc_attr_labels (doc_attributes doc))).*2 ∧
    ∀ attr, option_Forall2 (loaded_attribute doc mapped attr)
              (doc_attr_metrics (doc_attributes doc) !! attr)
              (msc_metricAttributes s !! attr).
Proof.
  intros Hvalid. unfold metricSourceConfig_UnmarshalYAML.
  destruct (metricSourceConfig_plain doc) as [s0|err] eqn:Hplain; simpl; [|done].
  apply metricSourceConfig_plain_inv in Hplain
    as (HName & HSearch & HFilter & HScope & HDeref & HCounter & HGauge & HMetrics &
        HLabels & HattrX & HConst & Hfrom & Hattrs & HX).
  destruct (checkOverflow (msc_X s0) "config") as [[]|err] eqn:Hflow; simpl; [|done].
  apply checkOverflow_Ok in Hflow. rewrite HX in Hflow.
  destruct (msc_Search s0) as [search|] eqn:Hsearch; [|done].
  destruct (check_constant_labels _) as [[]|err] eqn:Hconstant; simpl; [|done].
  apply check_constant_labels_Ok in Hconstant.
  apply (map_Forall_range order _ _ (λ _ value, trimmed_shorter value = false) Hvalid)
    in Hconstant.
  rewrite HConst in Hconstant.
  destruct (collect_label_names _ _) as [names|err] eqn:Hnames; simpl; [|done].
  apply collect_label_names_Ok in Hnames as (-> & Hnodup & _).
  rewrite Hfrom, HLabels in *. simpl.
  rewrite (range_permutation order _ _ Hvalid) in Hnodup.
  set (mapped := (range order (RangeAttributeLabels section)
                    (doc_attr_labels (doc_attributes doc))).*2) in *.
  set (s' := set_labelsFromAttributes _ _).
  intros Hcreate. apply create_metric_attributes_Ok in Hcreate as (_ & Hs & Hlookup).
  assert (NoDup (range order (RangeAttributeMetrics section)
                   (ac_Metrics (msc_Attributes s0))).*1) as Hkeys.
  { rewrite range_permutation by done. apply NoDup_fst_map_to_list. }
  specialize (Hlookup Hkeys).
  assert (∀ attr, option_Forall2
            (λ mdoc ma, loaded_attribute doc mapped attr mdoc ma ∧
                        metricAttributeConfig_UnmarshalYAML mdoc = Ok (default
                          {| mac_Name := ""; mac_Type := ""; mac_Labels := [];
                             mac_Translator := {| template_ := None |};
                             mac_Help := ""; mac_X := ∅ |}
                          (ac_Metrics (msc_Attributes s0) !! attr)))
            (doc_attr_metrics (doc_attributes doc) !! attr)
            (msc_metricAttributes s !! attr)) as Hattributes.
  { intros attr. destruct (Hlookup attr) as [Hin Hout].
    pose proof (decode_map_Ok _ _ _ HMetrics attr) as Hdecoded.
    destruct (doc_attr_metrics (doc_attributes doc) !! attr) as [mdoc|] eqn:Hdoc;
      inversion Hdecoded as [? mac Hmac Heq1 Heq2|Heq1 Heq2]; subst.
    - symmetry in Heq2. destruct (Hin mac) as (ma & Hmake & ->).
      { rewrite range_permutation by done. by apply elem_of_map_to_list. }
      constructor. split; [|done].
      apply (make_attribute_loaded s' mac attr ma doc mdoc); try done.
      + simpl. unfold naming_template. f_equal.
        by eapply naming_template_decoded.
      + simpl. unfold naming_template. f_equal.
        by eapply naming_template_decoded.
    - symmetry in Heq2. rewrite Hout; [constructor|].
      rewrite range_permutation by done.
      intros ([k' a] & -> & Ha%elem_of_map_to_list)%list_elem_of_fmap. simpl in Heq2.
      congruence. }
  assert (msc_Search s = Some search ∧
          msc_Filter s = Some (default "(objectClass=*)" (msc_Filter s0)) ∧
          msc_Scope s = Some (default ScopeBaseObject (msc_Scope s0)) ∧
          msc_Deref s = Some (default DerefAlways (msc_Deref s0)) ∧
          msc_Attributes s = msc_Attributes s0) as (Hs1 & Hs2 & Hs3 & Hs4 & Hs5).
  { rewrite Hs. simpl. by rewrite Hsearch. }
  apply optional_Ok in HSearch, HFilter, HScope, HDeref.
  split; [|split; [|split; [|split; [|split; [|split]]]]].
  - unfold checked_section. split; [done|]. split; [done|].
    split; [|split; [|split; [|split; [|split; [|split; [|split; [|split]]]]]]].
    + destruct (doc_search doc) as [dn|]; [|done].
      destruct HSearch as (b & Hb & _). unfold dnString_UnmarshalYAML in Hb.
      exists dn. split; [done|]. by destruct (ldap_ParseDN dn).
    + intros filter Hf. rewrite Hf in HFilter. destruct HFilter as (b & Hb & _).
      unfold filterString_UnmarshalYAML in Hb. by destruct (ldap_CompileFilter filter).
    + intros choice Hc. rewrite Hc in HScope. destruct HScope as (b & Hb & _).
      by exists b.
    + intros choice Hc. rewrite Hc in HDeref. destruct HDeref as (b & Hb & _).
      by exists b.
    + intros text Ht. rewrite Ht in HCounter. apply optional_Ok in HCounter.
      destruct HCounter as (b & Hb & _). unfold templateString_UnmarshalYAML in Hb |- *.
      by destruct (template_Parse _).
    + intros text Ht. rewrite Ht in HGauge. apply optional_Ok in HGauge.
      destruct HGauge as (b & Hb & _). unfold templateString_UnmarshalYAML in Hb |- *.
      by destruct (template_Parse _).
    + done.
    + done.
    + intros attr mdoc Hdoc. specialize (Hattributes attr). rewrite Hdoc in Hattributes.
      inversion Hattributes as [? ma [Hloaded Hmac] Heq1 Heq2|]; subst.
      apply metricAttributeConfig_UnmarshalYAML_inv in Hmac
        as (_ & _ & _ & _ & _ & _ & HmX & _ & Htrim & Htranslator).
      destruct Hloaded as (Htype & _ & _ & _ & _ & _ & name & _ & Hnamed).
      unfold checked_metric. split; [done|]. split; [tauto|]. split; [done|].
      split; [done|]. intros _. exists name.
      destruct Htype as [[Ht Hc]|[Ht Hc]]; rewrite Hc in Hnamed; rewrite Ht;
        exact Hnamed.
  - rewrite Hs1. destruct (doc_search doc) as [dn|]; [|done].
    destruct HSearch as (b & Hb & [= ->]). unfold dnString_UnmarshalYAML in Hb.
    destruct (ldap_ParseDN dn); [done|]. by injection Hb as <-.
  - rewrite Hs2. f_equal. destruct (doc_filter doc) as [f|]; simpl.
    + destruct HFilter as (b & Hb & ->). unfold filterString_UnmarshalYAML in Hb.
      destruct (ldap_CompileFilter f); [done|]. by injection Hb as <-.
    + by rewrite HFilter.
  - eexists. split; [exact Hs3|]. destruct (doc_scope doc) as [c|].
    + by destruct HScope as (b & Hb & ->).
    + by rewrite HScope.
  - eexists. split; [exact Hs4|]. destruct (doc_deref doc) as [c|].
    + by destruct HDeref as (b & Hb & ->).
    + by rewrite HDeref.
  - by rewrite Hs5.
  - exists mapped. split; [unfold mapped; by rewrite range_permutation|].
    intros attr. specialize (Hattributes attr).
    destruct Hattributes as [mdoc ma [Hloaded _]|]; by constructor.
Qed.

(** *** The other way round: what passes the checks is loaded *)






(** *** The two loops of a load *)

Lemma decode_sections_inv order section docs parsed :
  decode_sections order section docs = Returns (Ok parsed) →
  Forall2 (λ doc s, ∃ k, metricSourceConfig_UnmarshalYAML order k doc = Returns (Ok s))
    docs parsed.
Proof.
  revert section parsed. induction docs as [|doc rest IH]; intros section parsed; simpl.
  - intros [= <-]. constructor.
  - destruct (metricSourceConfig_UnmarshalYAML order section doc) as [[s|err]|p] eqn:Hs;
      simpl; try done.
    destruct (decode_sections order (S section) rest) as [[ss|err]|p] eqn:Hrest;
      simpl; try done.
    intros [= <-]. constructor; [by exists section|]. by eapply IH.
Qed.


(** The pointers that [LoadConfig] dereferences are set when the hook
    of a section returns. *)
Lemma section_pointers order section doc s :
  metricSourceConfig_UnmarshalYAML order section doc = Returns (Ok s) →
  is_Some (msc_Search s) ∧ is_Some (msc_Scope s) ∧ is_Some (msc_Deref s).
Proof.
  unfold metricSourceConfig_UnmarshalYAML.
  destruct (metricSourceConfig_plain doc) as [s0|err]; simpl; [|done].
  destruct (checkOverflow (msc_X s0) "config"); simpl; [|done].
  destruct (msc_Search s0) as [search|] eqn:Hsearch; [|done].
  destruct (check_constant_labels _); simpl; [|done].
  destruct (collect_label_names _ _); simpl; [|done].
  intros Hcreate. apply create_metric_attributes_Ok in Hcreate as (_ & -> & _).
  simpl. rewrite Hsearch. by repeat split; eexists.
Qed.

Lemma build_sources_inv order section parsed acc sources :
  build_sources order section parsed acc = Returns (Ok sources) →
  ∃ built, sources = acc ++ built ∧
    Forall2 (λ s m, ∃ k search scope deref,
               msc_Search s = Some search ∧ msc_Scope s = Some scope ∧
               msc_Deref s = Some deref ∧
               NewMetricsSource order k (Some search) (msc_Filter s) scope deref
                 (msc_metricAttributes s) (ac_Labels (msc_Attributes s)) = Returns m)
      parsed built.
Proof.
  revert section acc. induction parsed as [|s rest IH]; intros section acc; simpl.
  - intros [= <-]. exists []. split; [by rewrite app_nil_r|constructor].
  - destruct (msc_Scope s) as [scope|] eqn:Hscope; simpl; [|done].
    destruct (msc_Deref s) as [deref|] eqn:Hderef; simpl; [|done].
    destruct (msc_Search s) as [search|] eqn:Hsearch; simpl; [|done].
    intros Hrest. apply IH in Hrest as (built & -> & Hall).
    eexists (_ :: built). rewrite <- app_assoc. split; [done|].
    constructor; [|done]. by exists section, search, scope, deref.
Qed.

Lemma build_sources_succeeds order section parsed acc :
  Forall (λ s, is_Some (msc_Search s) ∧ is_Some (msc_Scope s) ∧ is_Some (msc_Deref s))
    parsed →
  ∃ sources, build_sources order section parsed acc = Returns (Ok sources).
Proof.
  intros Hall. revert section acc.
  induction Hall as [|s rest ([search Hsearch] & [scope Hscope] & [deref Hderef]) _ IH];
    intros section acc; simpl.
  - by eexists.
  - rewrite Hscope, Hderef, Hsearch. simpl. apply IH.
Qed.

Lemma decode_sections_returns order section docs :
  ∃ r, decode_sections order section docs = Returns r.
Proof.
  revert section. induction docs as [|doc rest IH]; intros section; simpl.
  - by eexists.
  - destruct (metricSourceConfig_UnmarshalYAML_returns order section doc)
      as [[s|err] ->]; simpl; [|by eexists].
    destruct (IH (S section)) as [[ss|err] ->]; simpl; by eexists.
Qed.

Lemma build_sources_of_decoded order section docs parsed k acc :
  decode_sections order section docs = Returns (Ok parsed) →
  ∃ sources, build_sources order k parsed acc = Returns (Ok sources).
Proof.
  intros Hdecode. apply build_sources_succeeds.
  apply decode_sections_inv in Hdecode.
  induction Hdecode as [|doc s docs' parsed' [n Hs] _ IH]; constructor; [|done].
  by eapply section_pointers.
Qed.


(** A document that decodes is loaded or refused. *)
Lemma LoadConfig_refused order data docs :
  yaml_Unmarshal_document data = Ok docs →
  (∀ sources, LoadConfig order data = Returns (Ok sources) → False) →
  ∃ err, LoadConfig order data = Returns (Err err).
Proof.
  intros Hdocs Hnot. unfold LoadConfig in *. rewrite Hdocs in *.
  destruct (decode_sections_returns order 0 docs) as [[parsed|err] Hdecode];
    rewrite Hdecode in *; simpl in *; [|by eexists].
  destruct (build_sources_of_decoded order 0 docs parsed 0 [] Hdecode) as [sources Hbuild].
  exfalso. by apply (Hnot sources).
Qed.

(** What a successful load has built, section by section. *)
Lemma LoadConfig_inv order data docs sources :
  yaml_Unmarshal_document data = Ok docs →
  LoadConfig order data = Returns (Ok sources) →
  Forall2 (λ doc m, ∃ s k k' search scope deref,
             metricSourceConfig_UnmarshalYAML order k doc = Returns (Ok s) ∧
             msc_Search s = Some search ∧ msc_Scope s = Some scope ∧
             msc_Deref s = Some deref ∧
             NewMetricsSource order k' (Some search) (msc_Filter s) scope deref
               (msc_metricAttributes s) (ac_Labels (msc_Attributes s)) = Returns m)
    docs sources.
Proof.
  intros Hdocs. unfold LoadConfig. rewrite Hdocs.
  destruct (decode_sections order 0 docs) as [[parsed|err]|p] eqn:Hdecode; simpl;
    try done.
  apply decode_sections_inv in Hdecode.
  intros (built & -> & Hbuilt)%build_sources_inv. simpl. clear Hdocs.
  revert built Hbuilt. induction Hdecode as [|doc s docs parsed [k Hs] _ IH];
    intros built Hbuilt; inversion Hbuilt as [|? m ? built' Hm Hrest]; subst;
    [constructor|].
  constructor; [|by apply IH].
  destruct Hm as (k' & search & scope & deref & ? & ? & ? & ?).
  by exists s, k, k', search, scope, deref.
Qed.

(** X12. The search request of each loaded source is the one its
    section configures: the search base as written; the filter as
    written, or the filter that matches any object class; the scope
    and the alias dereferencing named by the section, or the base
    object and always; no size or time limit; and it asks, up to the
    order of the run, for the keys of the section's metrics and of its
    label mapping. The label mapping of the source is that of the
    section. *)
Theorem LoadConfig_builds_the_requests (order : range_order) (data : string)
    (docs : list metricSourceConfig_doc) (sources : list MetricsSource) :
  range_order_valid order →
  yaml_Unmarshal_document data = Ok docs →
  LoadConfig order data = Returns (Ok sources) →
  Forall2 loaded_request docs sources.
Proof.
  intros Hvalid Hdocs Hload.
  eapply Forall2_impl; [by eapply LoadConfig_inv|].
  intros doc m (s & k & k' & search & scope & deref & Hs & Hsearch & Hscope & Hderef & Hm).
  apply section_decoded in Hs
    as (_ & HSearch & HFilter & (scope' & Hscope' & HScope) &
        (deref' & Hderef' & HDeref) & HLabels & mapped & _ & Hattributes); [|done].
  injection Hm as <-. unfold loaded_request. simpl.
  rewrite Hscope in Hscope'. injection Hscope' as <-.
  rewrite Hderef in Hderef'. injection Hderef' as <-.
  rewrite HFilter, HLabels. simpl.
  split; [by rewrite <- HSearch|]. split; [done|]. split; [done|]. split; [done|].
  repeat split.
  rewrite !range_permutation by done. f_equiv.
  apply NoDup_Permutation; [apply NoDup_fst_map_to_list..|].
  intros attr. rewrite !list_elem_of_fmap. specialize (Hattributes attr). split.
  - intros ([k0 ma] & -> & Hin%elem_of_map_to_list). simpl in *. rewrite Hin in Hattributes.
    inversion Hattributes as [mdoc ? _ Heq1 Heq2|]; subst.
    exists (k0, mdoc). split; [done|]. by apply elem_of_map_to_list.
  - intros ([k0 mdoc] & -> & Hin%elem_of_map_to_list). simpl in *.
    rewrite Hin in Hattributes.
    inversion Hattributes as [? ma _ Heq1 Heq2|]; subst.
    exists (k0, ma). split; [done|]. by apply elem_of_map_to_list.
Qed.

(** X13. Each loaded source has one metric attribute for each key of
    its section's metrics, and no other. The attribute is a counter
    or a gauge as its type says; its translator is the configured
    template, if any; its descriptor has the section's constant
    labels, the configured help or, without one, [No help provided],
    and the name [ldap_] followed by the configured metric name or,
    without one, by what the section's naming template for that type
    gives for the section and the attribute; its labels are the label
    names of the section's label mapping, in one order for the whole
    section, followed by its own labels. *)
Theorem LoadConfig_builds_the_attributes (order : range_order) (data : string)
    (docs : list metricSourceConfig_doc) (sources : list MetricsSource) :
  range_order_valid order →
  yaml_Unmarshal_document data = Ok docs →
  LoadConfig order data = Returns (Ok sources) →
  Forall2 loaded_attributes docs sources.
Proof.
  intros Hvalid Hdocs Hload.
  eapply Forall2_impl; [by eapply LoadConfig_inv|].
  intros doc m (s & k & k' & search & scope & deref & Hs & Hsearch & Hscope & Hderef & Hm).
  apply section_decoded in Hs as (_ & _ & _ & _ & _ & _ & mapped & Hmapped & Hattributes);
    [|done].
  injection Hm as <-. by exists mapped.
Qed.

Lemma loaded_sections_checked order data docs sources :
  range_order_valid order →
  yaml_Unmarshal_document data = Ok docs →
  LoadConfig order data = Returns (Ok sources) →
  Forall checked_section docs.
Proof.
  intros Hvalid Hdocs Hload.
  pose proof (LoadConfig_inv _ _ _ _ Hdocs Hload) as Hall.
  clear -Hall Hvalid. induction Hall as [|doc m docs sources Hm _ IH];
    constructor; [|done].
  destruct Hm as (s & k & _ & _ & _ & _ & Hs & _).
  by apply section_decoded in Hs as [? _].
Qed.


(** *** White space around labels *)

Lemma trim_nothing width fuel (s : list N) :
  width s = 0 → strings.trim width fuel s = s.
Proof. intros Hwidth. destruct fuel; simpl; [done|]. by rewrite Hwidth. Qed.

(** The check [len(strings.TrimSpace(s)) != len(s)] holds exactly of
    the texts that start or end with white space. *)
Lemma trimmed_shorter_padded (s : string) : trimmed_shorter s = true ↔ padded s.
Proof.
  unfold trimmed_shorter, padded. rewrite bool_decide_eq_true.
  set (b := strings.bytes s). split.
  - intros Hshorter.
    destruct (decide (strings.leading_space b = 0)) as [Hleading|]; [|by left].
    destruct (decide (strings.trailing_space (rev b) = 0)) as [Htrailing|]; [|by right].
    exfalso. apply Hshorter. unfold strings.TrimSpace.
    rewrite (trim_nothing _ _ b Hleading), (trim_nothing _ _ (rev b) Htrailing).
    by rewrite rev_involutive.
  - intros [Hleading|Htrailing].
    + pose proof (TrimSpace_leading b Hleading). lia.
    + destruct (decide (strings.leading_space b = 0)) as [Hleading|Hleading].
      * unfold strings.TrimSpace. rewrite (trim_nothing _ _ b Hleading), length_rev.
        assert (length (strings.trim strings.trailing_space (length b) (rev b))
                < length (rev b)) as Hlt.
        { apply trim_shorter; [done| |].
          - destruct b; [done|]. simpl. lia.
          - intros Hnil. by rewrite Hnil in Htrailing. }
        rewrite length_rev in Hlt. lia.
      * pose proof (TrimSpace_leading b Hleading). lia.
Qed.

(** X15. A label of a metric attribute, or the value of a constant
    label, that starts or ends with white space makes [LoadConfig]
    fail with an error. *)
Theorem padded_labels_are_refused (order : range_order) (data : string)
    (docs : list metricSourceConfig_doc) (doc : metricSourceConfig_doc) :
  range_order_valid order →
  yaml_Unmarshal_document data = Ok docs →
  doc ∈ docs →
  (∃ attr mdoc label,
     doc_attr_metrics (doc_attributes doc) !! attr = Some mdoc ∧
     label ∈ doc_metric_labels mdoc ∧ padded label) ∨
  (∃ key value, doc_labels doc !! key = Some value ∧ padded value) →
  ∃ err, LoadConfig order data = Returns (Err err).
Proof.
  intros Hvalid Hdocs Hdoc Hpadded.
  apply (LoadConfig_refused order data docs Hdocs). intros sources Hload.
  pose proof (loaded_sections_checked _ _ _ _ Hvalid Hdocs Hload) as Hall.
  rewrite Forall_forall in Hall.
  destruct (Hall doc Hdoc) as (_ & _ & _ & _ & _ & _ & _ & _ & Hconstant & _ & Hmetrics).
  destruct Hpadded as [(attr & mdoc & label & Hattr & Hlabel & Hpad)|
                       (key & value & Hkey & Hpad)].
  - destruct (Hmetrics attr mdoc Hattr) as (_ & _ & Hlabels & _).
    rewrite Forall_forall in Hlabels. specialize (Hlabels label Hlabel).
    apply trimmed_shorter_padded in Hpad. congruence.
  - specialize (Hconstant key value Hkey). simpl in Hconstant.
    apply trimmed_shorter_padded in Hpad. congruence.
Qed.

End built.

(** ** A null translation result *)

Section null_results.
Context `{Library}.

Lemma check_results_null values idx good others :
  Forall (λ r, tr_X r = ∅) good →
  check_results values idx ((Some <$> good) ++ None :: others) = Panics NilDereference.
Proof.
  intros Hgood. revert idx. induction Hgood as [|g good Hg _ IH]; intros idx; simpl.
  - done.
  - rewrite (proj2 (checkOverflow_Ok _ _) Hg). by rewrite IH.
Qed.

(** X16. When the text that a translator renders decodes to a list
    with a null element, and the results before it have no unknown
    field, [Parse] panics on a nil dereference instead of returning an
    error; the results after the null element are not looked at. *)
Theorem null_translation_result_panics (a : MetricAttribute)
    (extra_labels : gmap string string) (entry : EntryAttribute) (t : template.Template)
    (value0 : string) (buffer : string) (good : list translationResult)
    (others : list (option translationResult)) :
  translator a = Some t →
  head (Values entry) = Some value0 →
  template_Execute template.MissingKeyError t (translation_input (Values entry) value0)
    = Ok buffer →
  yaml_Unmarshal_translationResults buffer = Ok ((Some <$> good) ++ None :: others) →
  Forall (λ r, tr_X r = ∅) good →
  do_the_translation_thing t (Values entry) = Panics NilDereference ∧
  Parse a extra_labels entry = Panics NilDereference.
Proof.
  intros Ht Hhead Hexecute Hyaml Hgood.
  assert (do_the_translation_thing t (Values entry) = Panics NilDereference) as Hdo.
  { unfold do_the_translation_thing.
    destruct (Values entry) as [|value rest]; [done|]. injection Hhead as ->.
    rewrite Hexecute, Hyaml. by apply check_results_null. }
  split; [done|]. by rewrite (Parse_translated _ _ _ _ Ht), Hdo.
Qed.

End null_results.

(** * The further properties on concrete inputs *)

Section more_runs.
Import scenario cases.
#[local] Existing Instance small.library.

(** X2 on alice's entry: the label set has the label [user], with the
    value of [cn]. *)
Lemma accepted_entry_is_complete_runs :
  scrape_entry users alice = ([alice_logins], Returns (Ok tt)) ∧
  ∃ labels,
    scrape_attributes users labels (Attributes alice) = ([alice_logins], Returns (Ok tt)) ∧
    dom labels = map_img (LabelAttributes users) ∧
    labels !! "user" = Some "alice".
Proof.
  assert (scrape_entry users alice = ([alice_logins], Returns (Ok tt))) as Hentry
    by (vm_compute; reflexivity).
  split; [exact Hentry|].
  destruct (accepted_entry_is_complete users alice [alice_logins] tt Hentry)
    as (labels & Hsent & Hdom & Hvalues & _).
  exists labels. split; [exact Hsent|]. split; [exact Hdom|].
  destruct (Hvalues "cn" "user" eq_refl) as (a & v & Hin & Hname & Hvalue & Hlabel).
  rewrite Hlabel. f_equal.
  apply elem_of_cons in Hin as [->|Hin].
  - by injection Hvalue as <-.
  - apply list_elem_of_singleton in Hin as ->. by vm_compute in Hname.
Defined.

(** X3 on a mapping that sends [cn] and [uid] to [user]: alice's entry
    is rejected. *)
Lemma shared_label_name_rejects_every_entry_runs :
  ("cn" ≠ "uid" ∧
   LabelAttributes aliases !! "cn" = Some "user" ∧
   LabelAttributes aliases !! "uid" = Some "user") ∧
  (∃ err, scrape_entry aliases alice = ([], Returns (Err err))) ∧
  (∃ err, scrapeMetrics aliases {| Entries := [alice; alice] |} = ([], Returns (Err err))).
Proof.
  assert ("cn" ≠ "uid") as Hne by done.
  assert (LabelAttributes aliases !! "cn" = Some "user") as Hcn by (vm_compute; reflexivity).
  assert (LabelAttributes aliases !! "uid" = Some "user") as Huid
    by (vm_compute; reflexivity).
  split; [done|].
  destruct (shared_label_name_rejects_every_entry aliases "cn" "uid" "user" Hne Hcn Huid
              alice) as [Hentry Hresult].
  split; [exact Hentry|]. exact (Hresult [alice]).
Defined.

Lemma users_mapping_injective a b l :
  LabelAttributes users !! a = Some l → LabelAttributes users !! b = Some l → a = b.
Proof.
  simpl. intros [<- _]%lookup_singleton_Some [<- _]%lookup_singleton_Some. done.
Qed.

(** X4 on alice's entry. *)
Lemma complete_entry_is_accepted_runs :
  ((∀ a b l, LabelAttributes users !! a = Some l → LabelAttributes users !! b = Some l →
             a = b) ∧
   (∀ attr, is_Some (LabelAttributes users !! attr) → attr ∈ Name <$> Attributes alice) ∧
   Forall (λ attribute,
             is_Some (LabelAttributes users !! Name attribute) →
             length (Values attribute) = 1) (Attributes alice)) ∧
  ∃ labels,
    collect_labels users (Attributes alice) ∅ = Ok labels ∧
    dom labels = map_img (LabelAttributes users) ∧
    scrape_entry users alice = scrape_attributes users labels (Attributes alice).
Proof.
  assert (∀ attr, is_Some (LabelAttributes users !! attr) →
                  attr ∈ Name <$> Attributes alice) as Hpresent.
  { simpl. intros attr [l [<- _]%lookup_singleton_Some]. by left. }
  assert (Forall (λ attribute,
                    is_Some (LabelAttributes users !! Name attribute) →
                    length (Values attribute) = 1) (Attributes alice)) as Hsingle.
  { apply Forall_cons. split; [done|]. apply Forall_cons. split; [done|].
    apply Forall_nil. done. }
  split; [split; [exact users_mapping_injective|split; [exact Hpresent|exact Hsingle]]|].
  exact (complete_entry_is_accepted users alice users_mapping_injective Hpresent Hsingle).
Defined.

(** X5 on alice's entry with a [mail] attribute: the count before it
    has been sent, the one after it has not. *)
Lemma unrecognized_attribute_fails_runs :
  (MetricAttributes users !! "mail" = None ∧ LabelAttributes users !! "mail" = None) ∧
  scrape_entry users alice_with_mail =
    ([alice_logins], Returns (Err (ErrUnrecognizedAttribute "mail"))).
Proof.
  split; [split; vm_compute; reflexivity|].
  destruct (unrecognized_attribute_fails users alice_with_mail
              [attribute "cn" ["alice"]; attribute "loginCount" ["4"]]
              [attribute "loginCount" ["5"]]
              (attribute "mail" ["alice@example.com"])
              eq_refl ltac:(vm_compute; reflexivity) ltac:(vm_compute; reflexivity))
    as [_ Hsent].
  apply (Hsent {["user" := "alice"]} [alice_logins]).
  - vm_compute; reflexivity.
  - vm_compute; reflexivity.
  - vm_compute; reflexivity.
Defined.

(** X18 on a counter of the users source with the label [kind]:
    alice's entry is refused. *)
Lemma own_labels_need_a_translator_runs :
  (attribute "loginCount" ["4"] ∈ Attributes alice ∧
   MetricAttributes kinds !! "loginCount" = Some (Counter logins_by_kind) ∧
   translator (Counter logins_by_kind) = None ∧
   "kind" ∈ labels (Counter logins_by_kind)) ∧
  ("kind" ∈ (map_img (LabelAttributes kinds) : gset string) → False) ∧
  (∀ sent u, scrape_entry kinds alice ≠ (sent, Returns (Ok u))) ∧
  ∃ err, scrape_entry kinds alice = ([], Returns (Err err)).
Proof.
  assert (attribute "loginCount" ["4"] ∈ Attributes alice) as Hin by (right; by left).
  assert (MetricAttributes kinds !! "loginCount" = Some (Counter logins_by_kind)) as Ha
    by (vm_compute; reflexivity).
  assert ("kind" ∈ labels (Counter logins_by_kind)) as Hl by (right; by left).
  assert ("kind" ∉ (map_img (LabelAttributes kinds) : gset string)) as Hunmapped.
  { simpl. rewrite map_img_singleton_L. by intros ?%elem_of_singleton. }
  split; [done|]. split; [exact Hunmapped|].
  split.
  - exact (own_labels_need_a_translator kinds alice (attribute "loginCount" ["4"])
             (Counter logins_by_kind) "kind" Hin Ha eq_refl Hl Hunmapped).
  - eexists. vm_compute; reflexivity.
Defined.

(** X6 on the maps of the users source. *)
Lemma NewMetricsSource_requests_runs :
  range_order_valid listed ∧
  ∃ m,
    NewMetricsSource listed 0 (Some "ou=people,dc=example,dc=com") None
      ScopeBaseObject DerefAlways (MetricAttributes users) (LabelAttributes users)
    = Returns m ∧
    Filter (SearchRequest_ m) = "(objectClass=*)" ∧
    (∀ attr, attr ∈ RequestAttributes (SearchRequest_ m) ↔
       is_Some (MetricAttributes m !! attr) ∨ is_Some (LabelAttributes m !! attr)).
Proof.
  split; [exact listed_valid|].
  destruct (NewMetricsSource_requests listed 0 "ou=people,dc=example,dc=com" None
              ScopeBaseObject DerefAlways (MetricAttributes users) (LabelAttributes users)
              listed_valid) as (m & Hm & _ & _ & Hrequest & _ & Hasks).
  exists m. split; [exact Hm|]. split; [by rewrite Hrequest|]. exact Hasks.
Defined.

(** X7 on the exporter of two users sources. *)
Lemma Describe_announces_the_attributes_runs :
  range_order_valid listed ∧
  c_Desc logins_by_user ∈ Describe listed exporter ∧
  length (Describe listed exporter) = 2.
Proof.
  split; [exact listed_valid|].
  destruct (Describe_announces_the_attributes listed exporter listed_valid)
    as [Helem Hlength].
  split.
  - apply Helem. exists users, "loginCount", (Counter logins_by_user).
    split; [by left|]. split; [vm_compute; reflexivity|done].
  - rewrite Hlength. vm_compute; reflexivity.
Defined.

(** X8 on the same exporter: alice's sample is sent, and described. *)
Lemma samples_are_described_runs :
  (range_order_valid listed ∧ alice_logins ∈ (scrape exporter 0.25).1.2) ∧
  desc alice_logins ∈ Describe listed exporter ∧
  ∃ query attr a,
    query ∈ metricsSources exporter ∧ MetricAttributes query !! attr = Some a ∧
    desc alice_logins = GetDesc a ∧
    length (labelValues alice_logins) = length (labels a).
Proof.
  assert (alice_logins ∈ (scrape exporter 0.25).1.2) as Hsent.
  { assert ((scrape exporter 0.25).1.2 = [alice_logins]) as -> by (vm_compute; reflexivity).
    by left. }
  split; [split; [exact listed_valid|exact Hsent]|].
  exact (samples_are_described listed exporter 0.25 alice_logins listed_valid Hsent).
Defined.

(** X9 on three sources of which the second renders a null result:
    alice's sample of the first source is all that is sent, the third
    source is not scraped, and the counters are updated. *)
Lemma panic_ends_the_cycle_runs :
  (metricsSources monitored = [users] ++ counters :: [users] ∧
   Forall returned (imap (scrape_source (conn monitored)) [users]) ∧
   scrape_source (conn monitored) 1 counters = ([], Panics NilDereference)) ∧
  ∃ e',
    Collect monitored 0.25 = (e', [alice_logins], Panics NilDereference) ∧
    val (totalScrapes e') = 1%float ∧
    val (scrapeError e') = 0%float ∧
    val (totalErrors e') = 0%float ∧
    val (duration e') = 0.25%float.
Proof.
  assert (Forall returned (imap (scrape_source (conn monitored)) [users])) as Hbefore.
  { apply Forall_cons. split; [|apply Forall_nil; done].
    exists (Ok tt). vm_compute; reflexivity. }
  assert (scrape_source (conn monitored) 1 counters = ([], Panics NilDereference))
    as Hpanic by (vm_compute; reflexivity).
  split; [split; [reflexivity|split; [exact Hbefore|exact Hpanic]]|].
  destruct (panic_ends_the_cycle monitored 0.25 [users] [users] counters []
              NilDereference eq_refl Hbefore Hpanic) as (e' & Hcollect & He').
  exists e'. split.
  - rewrite Hcollect. repeat f_equal; vm_compute; reflexivity.
  - rewrite He'. repeat split; vm_compute; reflexivity.
Defined.

(** X16 on the translator with a null element. *)
Lemma null_translation_result_panics_runs :
  (translator (Counter hits) = Some with_null ∧
   head (Values (attribute "hits" ["7"])) = Some "7" ∧
   template_Execute template.MissingKeyError with_null (translation_input ["7"] "7")
     = Ok "[{value: 7}, null, {value: 2, unit: s}]") ∧
  Parse (Counter hits) ∅ (attribute "hits" ["7"]) = Panics NilDereference.
Proof.
  assert (template_Execute template.MissingKeyError with_null (translation_input ["7"] "7")
          = Ok "[{value: 7}, null, {value: 2, unit: s}]") as Hexecute
    by (vm_compute; reflexivity).
  assert (yaml_Unmarshal_translationResults "[{value: 7}, null, {value: 2, unit: s}]"
          = Ok ((Some <$> [{| tr_Value := 7; tr_Labels := ∅; tr_X := ∅ |}]) ++
                None :: [Some {| tr_Value := 2; tr_Labels := ∅;
                                 tr_X := {["unit" := YScalar "s"]} |}])) as Hyaml
    by (vm_compute; reflexivity).
  assert (Forall (λ r, tr_X r = ∅) [{| tr_Value := 7; tr_Labels := ∅; tr_X := ∅ |}])
    as Hgood by (apply Forall_cons; split; [done|apply Forall_nil; done]).
  split; [split; [reflexivity|split; [reflexivity|exact Hexecute]]|].
  destruct (null_translation_result_panics (Counter hits) ∅ (attribute "hits" ["7"])
              with_null "7" "[{value: 7}, null, {value: 2, unit: s}]" _ _
              eq_refl eq_refl Hexecute Hyaml Hgood)
    as [_ Hparse].
  exact Hparse.
Defined.

Lemma staff_loads :
  ∃ sources, LoadConfig backwards small.staff_text = Returns (Ok sources) ∧
             length sources = 1.
Proof. eexists. split; [vm_compute; reflexivity | reflexivity]. Qed.

Lemma staff_decodes : yaml_Unmarshal_document small.staff_text = Ok small.staff_doc.
Proof. vm_compute; reflexivity. Qed.

(** X12 on the staff document, whose maps are visited backwards. *)
Lemma LoadConfig_builds_the_requests_runs :
  (range_order_valid backwards ∧
   yaml_Unmarshal_document small.staff_text = Ok small.staff_doc) ∧
  ∃ sources,
    LoadConfig backwards small.staff_text = Returns (Ok sources) ∧
    Forall2 loaded_request small.staff_doc sources.
Proof.
  split; [split; [exact backwards_valid|exact staff_decodes]|].
  destruct staff_loads as (sources & Hload & _).
  exists sources. split; [exact Hload|].
  exact (LoadConfig_builds_the_requests backwards small.staff_text small.staff_doc sources
           backwards_valid staff_decodes Hload).
Defined.

(** X13 on the staff document: the metric, which has no configured
    name, is named by the default template for counters. *)
Lemma LoadConfig_builds_the_attributes_runs :
  (range_order_valid backwards ∧
   yaml_Unmarshal_document small.staff_text = Ok small.staff_doc) ∧
  ∃ sources,
    LoadConfig backwards small.staff_text = Returns (Ok sources) ∧
    Forall2 loaded_attributes small.staff_doc sources.
Proof.
  split; [split; [exact backwards_valid|exact staff_decodes]|].
  destruct staff_loads as (sources & Hload & _).
  exists sources. split; [exact Hload|].
  exact (LoadConfig_builds_the_attributes backwards small.staff_text small.staff_doc sources
           backwards_valid staff_decodes Hload).
Defined.


(** X15 on the document with the label [ kind]. *)
Lemma padded_labels_are_refused_runs :
  (range_order_valid listed ∧
   yaml_Unmarshal_document small.padded_label_text = Ok small.padded_label_doc ∧
   padded " kind") ∧
  ∃ err, LoadConfig listed small.padded_label_text = Returns (Err err).
Proof.
  assert (yaml_Unmarshal_document small.padded_label_text = Ok small.padded_label_doc)
    as Hdocs by (vm_compute; reflexivity).
  assert (padded " kind") as Hpadded by (left; vm_compute; discriminate).
  split; [split; [exact listed_valid|split; [exact Hdocs|exact Hpadded]]|].
  apply (padded_labels_are_refused listed small.padded_label_text small.padded_label_doc
           (small.source_doc "users" "ou=people,dc=example,dc=com" ∅
              {["loginCount" := small.metric_doc "logins" "counter" [" kind"] None ""]})
           listed_valid Hdocs).
  - by left.
  - left. exists "loginCount", (small.metric_doc "logins" "counter" [" kind"] None ""),
      " kind".
    split; [vm_compute; reflexivity|]. split; [by left|exact Hpadded].
Defined.

End more_runs.
